(** * Dialogue state resolution of the Autoss sales assistant

    A shallow embedding of the deterministic core of
    [backend/agent_pipeline.py] and [backend/utils.py]: short-memory
    normalisation, slot extraction, dialogue-act classification, the memory
    resolver, the hard intent rules, the commercial part of the context guard
    and the constraint merge of the memory updater.

    Modelling conventions.
    - Python [str] is a Rocq [string] over the ASCII repertoire.  For such text
      [unicodedata.normalize("NFD", _)] is the identity and no character has
      category [Mn]; characters above 127 are neither word characters nor
      white space.
    - Python dictionaries are association lists in insertion order.
    - Numbers: [int] is [Z]; a [float] is given by a rational and is the
      double nearest to it (that rational itself when it is a double).  Float
      arithmetic is IEEE-754 binary64, round to nearest, ties to even, as
      [SpecFloat] defines it; converting an int beyond the doubles raises
      [OverflowError].  A stored NaN is not represented; [time.time()] is a
      parameter [now].
    - [int(s)] and [str(n)] refuse more than 4300 digits, the default of
      [sys.get_int_max_str_digits()].
    - Exceptions are values of [exn], threaded through the [result] monad. *)

From Stdlib Require Import String Ascii List ZArith QArith Bool Lia Arith.
From Stdlib Require SpecFloat.
Import ListNotations.
Open Scope string_scope.
Set Warnings "-register-all".

(** ** Exceptions and the result monad *)

Inductive exn : Type :=
| TypeError
| AttributeError
| ValueError
| KeyError
| IndexError
| OverflowError.

Definition exn_eqb (a b : exn) : bool :=
  match a, b with
  | TypeError, TypeError => true
  | AttributeError, AttributeError => true
  | ValueError, ValueError => true
  | KeyError, KeyError => true
  | IndexError, IndexError => true
  | OverflowError, OverflowError => true
  | _, _ => false
  end.

Inductive result (A : Type) : Type :=
| Ok (a : A)
| Raise (e : exn).

Arguments Ok {A} a.
Arguments Raise {A} e.

Definition bind {A B : Type} (r : result A) (k : A -> result B) : result B :=
  match r with
  | Ok a => k a
  | Raise e => Raise e
  end.

Declare Scope py_scope.
Delimit Scope py_scope with py.
Notation "x <- c ;; k" := (bind c (fun x => k))
  (at level 61, c at next level, right associativity) : py_scope.
Open Scope py_scope.

(** [try: body except e: handler] *)
Definition try_except {A : Type} (body : result A) (e : exn) (handler : result A)
  : result A :=
  match body with
  | Ok a => Ok a
  | Raise e' => if exn_eqb e e' then handler else Raise e'
  end.

(** The value of a computation, [d] when it raised. *)
Definition result_value {A : Type} (d : A) (r : result A) : A :=
  match r with
  | Ok a => a
  | Raise _ => d
  end.

Definition returns {A : Type} (r : result A) : Prop := exists a, r = Ok a.

(** Short-circuit [or] / [and] over computations that may raise. *)
Definition orM (a : result bool) (b : result bool) : result bool :=
  x <- a ;; if x then Ok true else b.

Definition andM (a : result bool) (b : result bool) : result bool :=
  x <- a ;; if x then b else Ok false.

(** ** Python values *)

Inductive pyval : Type :=
| PNone
| PBool (b : bool)
| PInt (z : Z)
| PFloat (q : Q)
| PStr (s : string)
| PList (l : list pyval)
| PDict (d : list (string * pyval)).

Definition pydict : Type := list (string * pyval).

Fixpoint dict_get (k : string) (d : pydict) : option pyval :=
  match d with
  | [] => None
  | (k', v) :: d' => if String.eqb k k' then Some v else dict_get k d'
  end.

(** [d.get(k)]: [None] when the key is missing. *)
Definition py_get (d : pydict) (k : string) : pyval :=
  match dict_get k d with
  | Some v => v
  | None => PNone
  end.

(** [d[k] = v]: replaces in place, else appends. *)
Fixpoint dict_set (k : string) (v : pyval) (d : pydict) : pydict :=
  match d with
  | [] => [(k, v)]
  | (k', v') :: d' =>
      if String.eqb k k' then (k', v) :: d' else (k', v') :: dict_set k v d'
  end.

Definition dict_has (k : string) (d : pydict) : bool :=
  match dict_get k d with
  | Some _ => true
  | None => false
  end.

Definition dict_setdefault (k : string) (v : pyval) (d : pydict) : pydict :=
  if dict_has k d then d else dict_set k v d.

(** Python truthiness. *)
Definition Qeq_zero (q : Q) : bool := Qeq_bool q 0.

Definition py_truthy (v : pyval) : bool :=
  match v with
  | PNone => false
  | PBool b => b
  | PInt z => negb (Z.eqb z 0)
  | PFloat q => negb (Qeq_zero q)
  | PStr s => negb (String.eqb s "")
  | PList l => match l with [] => false | _ => true end
  | PDict d => match d with [] => false | _ => true end
  end.

(** [a or b] *)
Definition py_or (a b : pyval) : pyval := if py_truthy a then a else b.

Definition is_none (v : pyval) : bool :=
  match v with PNone => true | _ => false end.

(** [isinstance(v, dict)] *)
Definition isinstance_dict (v : pyval) : bool :=
  match v with PDict _ => true | _ => false end.

(** [isinstance(v, (int, float))]; [bool] is a subclass of [int]. *)
Definition isinstance_number (v : pyval) : bool :=
  match v with
  | PBool _ | PInt _ | PFloat _ => true
  | _ => false
  end.

(** [isinstance(v, int)] *)
Definition isinstance_int (v : pyval) : bool :=
  match v with
  | PBool _ | PInt _ => true
  | _ => false
  end.

Definition as_int (v : pyval) : option Z :=
  match v with
  | PBool b => Some (if b then 1 else 0)%Z
  | PInt z => Some z
  | _ => None
  end.


(** ** Floats

    IEEE-754 binary64 with the operations of [SpecFloat]. *)

Module Float64.

Definition prec : Z := 53%Z.
Definition emax : Z := 1024%Z.

Definition float64 : Type := SpecFloat.spec_float.

(** The double nearest to an integer, ties to even; an infinity when the
    integer lies beyond the doubles. *)
Definition of_Z (z : Z) : float64 :=
  SpecFloat.binary_normalize prec emax z 0%Z false.

(** The double nearest to [n / d], ties to even. *)
Definition of_ratio (n : Z) (d : positive) : float64 :=
  match n with
  | Z0 => SpecFloat.S754_zero false
  | Zpos p =>
      let '(q, e, l) :=
        SpecFloat.SFdiv_core_binary prec emax (Zpos p) 0%Z (Zpos d) 0%Z in
      SpecFloat.binary_round_aux prec emax false q e l
  | Zneg p =>
      let '(q, e, l) :=
        SpecFloat.SFdiv_core_binary prec emax (Zpos p) 0%Z (Zpos d) 0%Z in
      SpecFloat.binary_round_aux prec emax true q e l
  end.

Definition of_Q (q : Q) : float64 := of_ratio (Qnum q) (Qden q).

(** [x - y] and [x < y] on doubles. *)
Definition sub (x y : float64) : float64 := SpecFloat.SFsub prec emax x y.
Definition ltb (x y : float64) : bool := SpecFloat.SFltb x y.

Definition is_infinite (x : float64) : bool :=
  match x with SpecFloat.S754_infinity _ => true | _ => false end.

End Float64.

(** The double an arithmetic operator converts a number to; an int beyond
    the doubles raises [OverflowError]. *)
Definition to_float (v : pyval) : result Float64.float64 :=
  match v with
  | PBool b => Ok (Float64.of_Z (if b then 1 else 0)%Z)
  | PInt z =>
      let f := Float64.of_Z z in
      if Float64.is_infinite f then Raise OverflowError else Ok f
  | PFloat q => Ok (Float64.of_Q q)
  | _ => Raise TypeError
  end.

(** [a - b] for a float [a]; [TypeError] when [b] is no number. *)
Definition float_sub (a : Float64.float64) (b : pyval)
  : result Float64.float64 :=
  y <- to_float b ;; Ok (Float64.sub a y).

(** [d > n] for a float [d] and an int [n] that is a double itself. *)
Definition float_gt (d : Float64.float64) (n : Z) : bool :=
  Float64.ltb (Float64.of_Z n) d.

(** [mem.setdefault(k, v)], for its effect on [mem]. *)
Definition py_setdefault (mem : pyval) (k : string) (v : pyval) : result pyval :=
  match mem with
  | PDict d => Ok (PDict (dict_setdefault k v d))
  | _ => Raise AttributeError
  end.

(** ** Strings *)

Module Str.

Definition code (c : ascii) : N := N_of_ascii c.

Definition in_range (lo hi : N) (c : ascii) : bool :=
  (N.leb lo (code c) && N.leb (code c) hi)%bool.

Definition is_digit (c : ascii) : bool := in_range 48 57 c.
Definition is_lower (c : ascii) : bool := in_range 97 122 c.
Definition is_upper (c : ascii) : bool := in_range 65 90 c.
Definition is_alpha (c : ascii) : bool := (is_lower c || is_upper c)%bool.

(** [\w] *)
Definition is_word (c : ascii) : bool :=
  (is_alpha c || is_digit c || N.eqb (code c) 95)%bool.

(** [\s] and [str.isspace]: TAB LF VT FF CR, FS GS RS US, SPACE. *)
Definition is_space (c : ascii) : bool :=
  (in_range 9 13 c || in_range 28 32 c)%bool.

Definition lower_char (c : ascii) : ascii :=
  if is_upper c then ascii_of_N (code c + 32) else c.

Definition upper_char (c : ascii) : ascii :=
  if is_lower c then ascii_of_N (code c - 32) else c.

Fixpoint map_chars (f : ascii -> ascii) (s : string) : string :=
  match s with
  | EmptyString => EmptyString
  | String c s' => String (f c) (map_chars f s')
  end.

(** [s.lower()], [s.upper()] *)
Definition lower (s : string) : string := map_chars lower_char s.
Definition upper (s : string) : string := map_chars upper_char s.

Fixpoint filter_chars (p : ascii -> bool) (s : string) : string :=
  match s with
  | EmptyString => EmptyString
  | String c s' => if p c then String c (filter_chars p s') else filter_chars p s'
  end.

Fixpoint all_chars (p : ascii -> bool) (s : string) : bool :=
  match s with
  | EmptyString => true
  | String c s' => (p c && all_chars p s')%bool
  end.

Definition is_empty (s : string) : bool :=
  match s with EmptyString => true | _ => false end.

(** [s.isdigit()] *)
Definition isdigit (s : string) : bool :=
  (negb (is_empty s) && all_chars is_digit s)%bool.

Fixpoint starts_with (p s : string) : bool :=
  match p, s with
  | EmptyString, _ => true
  | String a p', String b s' => (Ascii.eqb a b && starts_with p' s')%bool
  | String _ _, EmptyString => false
  end.

(** [needle in hay] *)
Fixpoint contains (needle hay : string) : bool :=
  if starts_with needle hay then true
  else match hay with
       | EmptyString => false
       | String _ hay' => contains needle hay'
       end.

Fixpoint lstrip (s : string) : string :=
  match s with
  | String c s' => if is_space c then lstrip s' else s
  | EmptyString => EmptyString
  end.

Fixpoint rev_acc (s acc : string) : string :=
  match s with
  | EmptyString => acc
  | String c s' => rev_acc s' (String c acc)
  end.

Definition rev (s : string) : string := rev_acc s EmptyString.

Definition rstrip (s : string) : string := rev (lstrip (rev s)).

(** [s.strip()] *)
Definition strip (s : string) : string := rstrip (lstrip s).

(** [s.split()]: the maximal runs of non-space characters.  [cur] holds the
    current run, reversed. *)
Fixpoint split_acc (s cur : string) : list string :=
  match s with
  | EmptyString => if is_empty cur then [] else [rev cur]
  | String c s' =>
      if is_space c
      then (if is_empty cur then split_acc s' EmptyString
            else rev cur :: split_acc s' EmptyString)
      else split_acc s' (String c cur)
  end.

Definition split (s : string) : list string := split_acc s EmptyString.

Definition word_count (s : string) : nat := List.length (split s).

Definition is_empty_list {A : Type} (l : list A) : bool :=
  match l with [] => true | _ => false end.

Definition mem (s : string) (l : list string) : bool :=
  existsb (String.eqb s) l.

Definition digit_val (c : ascii) : Z := Z.of_N (code c - 48).

(** Value of a run of decimal digits with single underscores between them,
    [None] when the run is malformed. *)
Fixpoint digits_value (s : string) (acc : Z) (after_digit : bool) : option Z :=
  match s with
  | EmptyString => if after_digit then Some acc else None
  | String c s' =>
      if is_digit c then digits_value s' (10 * acc + digit_val c)%Z true
      else if (N.eqb (code c) 95 && after_digit)%bool
           then digits_value s' acc false
           else None
  end.

(** [sys.get_int_max_str_digits()] *)
Definition MAX_STR_DIGITS : nat := 4300.

Definition count_digits (s : string) : nat :=
  String.length (filter_chars is_digit s).

(** [int(s)] for a string [s]: surrounding white space, an optional sign and
    decimal digits, at most [MAX_STR_DIGITS] of them; [ValueError]
    otherwise. *)
Definition py_int (s : string) : result Z :=
  let body := strip s in
  let '(neg, ds) :=
    match body with
    | String "-"%char r => (true, r)
    | String "+"%char r => (false, r)
    | _ => (false, body)
    end in
  match digits_value ds 0%Z false with
  | Some n =>
      if Nat.ltb MAX_STR_DIGITS (count_digits ds) then Raise ValueError
      else Ok (if neg then (- n)%Z else n)
  | None => Raise ValueError
  end.

Fixpoint frac_value (s : string) (num den : Z) : option (Z * Z) :=
  match s with
  | EmptyString => Some (num, den)
  | String c s' =>
      if is_digit c then frac_value s' (10 * num + digit_val c)%Z (10 * den)%Z
      else None
  end.

Fixpoint split_dot (s : string) (acc : string) : string * option string :=
  match s with
  | EmptyString => (rev acc, None)
  | String c s' =>
      if N.eqb (code c) 46 then (rev acc, Some s')
      else split_dot s' (String c acc)
  end.

(** [float(s)] on the decimal literals [digits] and [digits.digits], which is
    what the size patterns capture; other spellings are reported as
    [ValueError]. *)
Definition py_float (s : string) : result Q :=
  match split_dot (strip s) EmptyString with
  | (ip, None) =>
      if isdigit ip
      then match frac_value ip 0%Z 1%Z with
           | Some (n, _) => Ok (inject_Z n)
           | None => Raise ValueError
           end
      else Raise ValueError
  | (ip, Some fp) =>
      if (isdigit ip && isdigit fp)%bool
      then match frac_value (ip ++ fp) 0%Z 1%Z, frac_value fp 0%Z 1%Z with
           | Some (n, _), Some (_, d) => Ok (Qmake n (Z.to_pos d))
           | _, _ => Raise ValueError
           end
      else Raise ValueError
  end.

End Str.

(** ** Regular expressions

    A backtracking matcher with the priorities of Python's [re]: the first
    alternative first, greedy repetition, leftmost start for [search]. *)

Module Re.

Inductive re : Type :=
| Eps
| Chr (p : ascii -> bool)
| Seq (a b : re)
| Alt (a b : re)
| Star (a : re)
| Grp (n : nat) (a : re)
| Wb.

Record state : Type := mkState {
  pos : nat;
  prev : option ascii;
  rest : string
}.

Definition caps : Type := list (nat * (nat * nat)).
Definition cont : Type := state -> caps -> option (nat * caps).

Definition is_word_opt (c : option ascii) : bool :=
  match c with Some c => Str.is_word c | None => false end.

Definition next_char (s : string) : option ascii :=
  match s with String c _ => Some c | EmptyString => None end.

(** [\b] *)
Definition at_boundary (st : state) : bool :=
  xorb (is_word_opt (prev st)) (is_word_opt (next_char (rest st))).

Fixpoint star_loop (fuel : nat)
  (body : state -> caps -> cont -> option (nat * caps))
  (st : state) (cs : caps) (k : cont) : option (nat * caps) :=
  match fuel with
  | O => k st cs
  | S f =>
      match body st cs
              (fun st' cs' =>
                 if Nat.ltb (pos st) (pos st')
                 then star_loop f body st' cs' k else None) with
      | Some r => Some r
      | None => k st cs
      end
  end.

Fixpoint run (r : re) (st : state) (cs : caps) (k : cont) {struct r}
  : option (nat * caps) :=
  match r with
  | Eps => k st cs
  | Chr p =>
      match rest st with
      | String c s' =>
          if p c then k (mkState (S (pos st)) (Some c) s') cs else None
      | EmptyString => None
      end
  | Seq a b => run a st cs (fun st' cs' => run b st' cs' k)
  | Alt a b =>
      match run a st cs k with
      | Some x => Some x
      | None => run b st cs k
      end
  | Star a => star_loop (S (String.length (rest st))) (run a) st cs k
  | Grp n a => run a st cs (fun st' cs' => k st' ((n, (pos st, pos st')) :: cs'))
  | Wb => if at_boundary st then k st cs else None
  end.

(** A match object: the subject, the span and the group spans. *)
Record rmatch : Type := mkMatch {
  subject : string;
  m_start : nat;
  m_end : nat;
  m_caps : caps
}.

Definition accept : cont := fun st cs => Some (pos st, cs).

Definition at_end : cont :=
  fun st cs => if Str.is_empty (rest st) then Some (pos st, cs) else None.

Fixpoint search_at (r : re) (subj : string) (p : nat) (pv : option ascii)
  (s : string) {struct s} : option rmatch :=
  match run r (mkState p pv s) [] accept with
  | Some (e, cs) => Some (mkMatch subj p e cs)
  | None =>
      match s with
      | EmptyString => None
      | String c s' => search_at r subj (S p) (Some c) s'
      end
  end.

(** [r.search(s)] *)
Definition search (r : re) (s : string) : option rmatch :=
  search_at r s 0 None s.

(** [bool(r.search(s))] *)
Definition found (r : re) (s : string) : bool :=
  match search r s with Some _ => true | None => false end.

(** [re.match(r, s)] *)
Definition match_start (r : re) (s : string) : option rmatch :=
  match run r (mkState 0 None s) [] accept with
  | Some (e, cs) => Some (mkMatch s 0 e cs)
  | None => None
  end.

(** [re.fullmatch(r, s)] *)
Definition fullmatch (r : re) (s : string) : option rmatch :=
  match run r (mkState 0 None s) [] at_end with
  | Some (e, cs) => Some (mkMatch s 0 e cs)
  | None => None
  end.

Definition fullmatches (r : re) (s : string) : bool :=
  match fullmatch r s with Some _ => true | None => false end.

Fixpoint lookup_cap (n : nat) (cs : caps) : option (nat * nat) :=
  match cs with
  | [] => None
  | (n', span) :: cs' => if Nat.eqb n n' then Some span else lookup_cap n cs'
  end.

(** [m.group(0)] *)
Definition group0 (m : rmatch) : string :=
  String.substring (m_start m) (m_end m - m_start m) (subject m).

(** [m.group(n)] for a group that took part in the match. *)
Definition group (m : rmatch) (n : nat) : string :=
  match lookup_cap n (m_caps m) with
  | Some (b, e) => String.substring b (e - b) (subject m)
  | None => EmptyString
  end.

Fixpoint advance (st : state) (n : nat) : state :=
  match n with
  | O => st
  | S n' =>
      match rest st with
      | EmptyString => st
      | String c s' => advance (mkState (S (pos st)) (Some c) s') n'
      end
  end.

(** [r.finditer(s)]: successive non-overlapping matches, left to right. *)
Fixpoint finditer_from (fuel : nat) (r : re) (subj : string) (st : state)
  : list rmatch :=
  match fuel with
  | O => []
  | S f =>
      match search_at r subj (pos st) (prev st) (rest st) with
      | None => []
      | Some m =>
          let st' := advance st (m_end m - pos st) in
          let st'' := if Nat.eqb (m_end m) (m_start m) then advance st' 1 else st' in
          m :: finditer_from f r subj st''
      end
  end.

Definition finditer (r : re) (s : string) : list rmatch :=
  finditer_from (S (String.length s)) r s (mkState 0 None s).

(** [re.sub(r, repl, s)] for a pattern that does not match the empty string. *)
Fixpoint sub_from (r : re) (repl : string) (skip : nat) (p : nat)
  (pv : option ascii) (s : string) {struct s} : string :=
  match s with
  | EmptyString => EmptyString
  | String c s' =>
      match skip with
      | S k => sub_from r repl k (S p) (Some c) s'
      | O =>
          match run r (mkState p pv s) [] accept with
          | Some (e, _) =>
              if Nat.ltb p e
              then repl ++ sub_from r repl (e - p - 1) (S p) (Some c) s'
              else String c (sub_from r repl 0 (S p) (Some c) s')
          | None => String c (sub_from r repl 0 (S p) (Some c) s')
          end
      end
  end.

Definition sub (r : re) (repl : string) (s : string) : string :=
  sub_from r repl 0 0 None s.

(** *** Pattern combinators *)

Definition chr (c : ascii) : re := Chr (Ascii.eqb c).

(** A literal character under [re.IGNORECASE]. *)
Definition chr_ci (c : ascii) : re :=
  Chr (fun x => Ascii.eqb (Str.lower_char x) (Str.lower_char c)).

Fixpoint lit (s : string) : re :=
  match s with
  | EmptyString => Eps
  | String c EmptyString => chr c
  | String c s' => Seq (chr c) (lit s')
  end.

Fixpoint lit_ci (s : string) : re :=
  match s with
  | EmptyString => Eps
  | String c EmptyString => chr_ci c
  | String c s' => Seq (chr_ci c) (lit_ci s')
  end.

Fixpoint alts (l : list re) : re :=
  match l with
  | [] => Chr (fun _ => false)
  | [r] => r
  | r :: l' => Alt r (alts l')
  end.

(** [(w1|w2|...)] under [re.IGNORECASE] *)
Definition words (l : list string) : re := alts (map lit_ci l).

Definition opt (a : re) : re := Alt a Eps.
Definition plus (a : re) : re := Seq a (Star a).

Fixpoint times (n : nat) (a : re) : re :=
  match n with
  | O => Eps
  | S n' => Seq a (times n' a)
  end.

Fixpoint upto (n : nat) (a : re) : re :=
  match n with
  | O => Eps
  | S n' => opt (Seq a (upto n' a))
  end.

(** [a{m,n}] and [a{m,}] *)
Definition rep (m n : nat) (a : re) : re := Seq (times m a) (upto (n - m) a).
Definition atleast (m : nat) (a : re) : re := Seq (times m a) (Star a).

Fixpoint seqs (l : list re) : re :=
  match l with
  | [] => Eps
  | [r] => r
  | r :: l' => Seq r (seqs l')
  end.

Definition digit : re := Chr Str.is_digit.
Definition space : re := Chr Str.is_space.

End Re.

(** ** Patterns and keyword tables of [agent_pipeline.py] *)

Module Patterns.
Import Re.

(** [\b(w1|w2|...)\b] with [re.IGNORECASE] *)
Definition word_group (l : list string) : re := seqs [Wb; Grp 1 (words l); Wb].

Definition RELATED_QUERY_RE : re :=
  word_group ["di kem"; "phu kien"; "linh kien"; "kem theo"; "di cung"; "chup";
              "chup khi"; "than giu"; "cach dien"; "su"; "orifice"; "insulator";
              "body"].

Definition BUNDLE_QUERY_RE : re :=
  word_group ["kem theo"; "di kem"; "phu kien di kem"; "phu kien kem theo"].

Definition TYPE_ANSWER_RE : re := word_group ["tay"; "robot"; "robotic"; "hand"].

Definition PRICE_RE : re :=
  word_group ["gia"; "chiet khau"; "bao gia"; "ton kho"; "kho"; "co san";
              "con hang"; "co hang"; "giao"; "vat"].

Definition LISTING_RE : re :=
  word_group ["liet ke"; "danh sach"; "list"; "cac ma"; "nhung ma"; "ma nao"].

(** [\b(tokin(?:arc)?\s*\d+)\b] *)
Definition CODE_RE : re :=
  seqs [Wb;
        Grp 1 (seqs [lit_ci "tokin"; opt (lit_ci "arc"); Star space; plus digit]);
        Wb].

(** [\b(\d{1,6})\s*(cai|chiec|con|bo|cap|set|pcs|sp)\b] *)
Definition QUANTITY_RE : re :=
  seqs [Wb; Grp 1 (rep 1 6 digit); Star space;
        Grp 2 (words ["cai"; "chiec"; "con"; "bo"; "cap"; "set"; "pcs"; "sp"]);
        Wb].

(** [\b(so luong|sl)\s*(\d{1,6})\b] *)
Definition SO_LUONG_RE : re :=
  seqs [Wb; Grp 1 (words ["so luong"; "sl"]); Star space;
        Grp 2 (rep 1 6 digit); Wb].

(** [[0-9A-Z]] under [re.IGNORECASE] *)
Definition code_char : re := Chr (fun c => (Str.is_digit c || Str.is_alpha c)%bool).

(** [\bU[0-9A-Z]{4,}\b] *)
Definition D_CODE_RE : re := seqs [Wb; chr_ci "U"; atleast 4 code_char; Wb].

(** [\bP[0-9A-Z]{4,}\b] *)
Definition P_CODE_RE : re := seqs [Wb; chr_ci "P"; atleast 4 code_char; Wb].

(** [\b\d{5,6}\b] *)
Definition NUM_CODE_RE : re := seqs [Wb; rep 5 6 digit; Wb].

(** [\b(\d{3})\s*a\b] *)
Definition AMP_ANY_RE : re :=
  seqs [Wb; Grp 1 (times 3 digit); Star space; chr_ci "a"; Wb].

(** [\d(?:\.\d)?] *)
Definition size_literal : re := Seq digit (opt (Seq (chr ".") digit)).

(** [\b(\d(?:\.\d)?)\b] *)
Definition SIZE_RE : re := seqs [Wb; Grp 1 size_literal; Wb].

(** [\b(\d(?:\.\d)?)\s*[x×]\s*(\d{2,3})(?:\s*l)?\b]; the multiplication sign
    lies outside ASCII. *)
Definition TIP_SIZE_LEN_RE : re :=
  seqs [Wb; Grp 1 size_literal; Star space; chr_ci "x"; Star space;
        Grp 2 (rep 2 3 digit); opt (Seq (Star space) (chr_ci "l")); Wb].

Definition FOLLOWUP_CUE_RE : re := word_group ["thi sao"; "the sao"; "sao"].

(** [\bM\d+(?:x\d+)?\b] *)
Definition THREAD_RE : re :=
  seqs [Wb; chr_ci "M"; plus digit; opt (Seq (chr_ci "x") (plus digit)); Wb].

Definition MATERIAL_RE : re := word_group ["nhom"; "aluminum"; "aluminium"; "al"].

(** [r"^con\b"] *)
Definition CON_PREFIX_RE : re := seqs [lit "con"; Wb].

Definition unit_words : re := words ["cai"; "chiec"; "con"; "bo"; "cap"].

(** The three patterns of [is_pure_quantity_message]. *)
Definition PURE_DIGITS_RE : re := rep 1 6 digit.
Definition PURE_MOT_RE : re :=
  Seq (Grp 1 (lit "mot")) (opt (Grp 2 (Seq (plus space) (Grp 3 unit_words)))).
Definition PURE_QTY_UNIT_RE : re :=
  seqs [rep 1 6 digit; Star space; Grp 1 unit_words].

(** [[^a-z0-9\s\-_/._]+] and [\s+] of [normalize_text] *)
Definition kept_char (c : ascii) : bool :=
  (Str.is_lower c || Str.is_digit c || Str.is_space c
   || Ascii.eqb c "-" || Ascii.eqb c "_" || Ascii.eqb c "/" || Ascii.eqb c ".")%bool.

Definition NOISE_RE : re := plus (Chr (fun c => negb (kept_char c))).
Definition SPACES_RE : re := plus space.

Definition PART_SYNONYMS : list (string * list string) :=
  [("TIP_BODY", ["than giu bec"; "tip body"; "holder"]);
   ("INSULATOR", ["cach dien"; "insulator"]);
   ("NOZZLE", ["chup khi"; "nozzle"]);
   ("ORIFICE", ["su phan phoi khi"; "orifice"; "diffuser"])].

Definition BUNDLE_HINT_WORDS : list string :=
  ["dong bo"; "tron bo"; "full bo"; "kem ca bo"; "combo"; "di kem du bo"].

Definition AFFIRM_TERMS : list string :=
  ["muon"; "ok"; "oke"; "okay"; "dong y"; "nhat tri"; "chap nhan"; "co";
   "duoc"; "yes"].

Definition NEGATE_TERMS : list string :=
  ["khong"; "khong can"; "khong muon"; "de sau"; "thoi"; "huy"; "cancel";
   "ko"; "k"].

Definition TECHNICAL_INTENTS : list string :=
  ["PRODUCT_LOOKUP"; "ACCESSORY_LOOKUP"; "ACCESSORY_BUNDLE_LOOKUP"; "LIST";
   "LIST_REQUEST"; "SLOT_FILL_AMP"].

Definition AVAILABILITY_PHRASES : list string :=
  ["co ban khong"; "ban khong"; "con ban khong"; "co ban ko"; "ban ko";
   "co ban k"; "ban k"; "co cung cap khong"; "co cung cap ko";
   "co cung cap k"; "ben em co khong"; "ben em co ko"; "ben em co k";
   "co khong"; "co ko"; "co k"].

Definition BULK_QTY_KEYS : list string :=
  ["min_bulk_qty"; "min_bulk"; "min_qty"; "min_order_qty"; "min order qty";
   "bulk_qty"; "bulk qty"; "so luong toi thieu"; "sl toi thieu"].

End Patterns.

(** ** Slot extraction *)

Module Slots.
Import Re Patterns.

(** [utils.normalize_text].  On ASCII text the replacement of the barred d,
    the NFD decomposition and the removal of combining marks change nothing. *)
Definition normalize_text (text : string) : string :=
  if Str.is_empty text then ""
  else
    let lowered := Str.lower text in
    let stripped := lowered in
    let cleaned := Re.sub NOISE_RE " " stripped in
    Str.strip (Re.sub SPACES_RE " " cleaned).

Definition extract_digits (text : string) : string :=
  Str.filter_chars Str.is_digit text.

Definition or_str (a b : string) : string := if Str.is_empty a then b else a.

Definition extract_skus (message : string) : list string :=
  let matches := map (fun m => group m 1) (finditer CODE_RE message) in
  flat_map
    (fun m =>
       let cleaned := or_str (extract_digits m) m in
       if Str.is_empty cleaned then [] else [Str.strip cleaned])
    matches.

(** Stable insertion by start offset, as [list.sort(key=...)]. *)
Fixpoint insert_by_start (x : nat * string) (l : list (nat * string))
  : list (nat * string) :=
  match l with
  | [] => [x]
  | y :: l' =>
      if Nat.ltb (fst x) (fst y) then x :: l else y :: insert_by_start x l'
  end.

Definition sort_by_start (l : list (nat * string)) : list (nat * string) :=
  fold_left (fun acc x => insert_by_start x acc) l [].

Definition spans (r : re) (text : string) : list (nat * string) :=
  map (fun m => (m_start m, Str.strip (group0 m))) (finditer r text).

Definition extract_codes (message : string) : list string * string :=
  let text := message in
  let matches := (spans D_CODE_RE text ++ spans P_CODE_RE text
                  ++ spans NUM_CODE_RE text)%list in
  match matches with
  | [] => ([], "")
  | _ =>
      let ordered := map snd (sort_by_start matches) in
      (ordered, hd "" ordered)
  end.

Definition extract_quantity (normalized : string) : result (option Z) :=
  match search SO_LUONG_RE normalized with
  | Some m =>
      try_except (v <- Str.py_int (group m 2) ;; Ok (Some v)) ValueError (Ok None)
  | None =>
      match search QUANTITY_RE normalized with
      | Some m =>
          try_except (v <- Str.py_int (group m 1) ;; Ok (Some v))
                     ValueError (Ok None)
      | None => Ok None
      end
  end.

Definition detect_product_group (normalized : string) : option string :=
  let has w := Str.contains w normalized in
  if (has "than giu" || has "tip body")%bool then Some "TIP_BODY"
  else if (has "cach dien" || has "insulator")%bool then Some "INSULATOR"
  else if (has "su" || has "orifice" || has "diffuser")%bool then Some "ORIFICE"
  else if (has "chup" || has "nozzle")%bool then Some "NOZZLE"
  else if (has "bec" || has "contact tip" || has "tip")%bool then Some "TIP"
  else None.

Definition extract_requested_parts (text : string) : list string * bool :=
  let normalized := normalize_text text in
  let requested :=
    flat_map
      (fun rw : string * list string =>
         if existsb (fun w => Str.contains (normalize_text w) normalized) (snd rw)
         then [fst rw] else [])
      PART_SYNONYMS in
  let expand_bundle :=
    existsb (fun w => Str.contains (normalize_text w) normalized)
            BUNDLE_HINT_WORDS in
  (requested, expand_bundle).

Definition opt_str (o : option string) : pyval :=
  match o with Some s => PStr s | None => PNone end.

Definition opt_int (o : option Z) : pyval :=
  match o with Some z => PInt z | None => PNone end.

Definition amp_of (normalized : string) : string :=
  match search AMP_ANY_RE normalized with
  | Some m => group m 1 ++ "A"
  | None => ""
  end.

Definition extract_lookup_constraints (message : string) : result pydict :=
  let norm := normalize_text message in
  let group_ := detect_product_group norm in
  let amp := amp_of norm in
  sl <- match search TIP_SIZE_LEN_RE norm with
        | Some m =>
            size <- try_except (v <- Str.py_float (group m 1) ;; Ok (PFloat v))
                               ValueError (Ok PNone) ;;
            len <- try_except (v <- Str.py_int (group m 2) ;; Ok (PInt v))
                              ValueError (Ok PNone) ;;
            Ok (size, len)
        | None =>
            match search SIZE_RE norm with
            | Some m =>
                size <- try_except (v <- Str.py_float (group m 1) ;; Ok (PFloat v))
                                   ValueError (Ok PNone) ;;
                Ok (size, PNone)
            | None => Ok (PNone, PNone)
            end
        end ;;
  Ok [("product_group", opt_str group_); ("amp", PStr amp);
      ("size", fst sl); ("length", snd sl)].

Fixpoint first_system_token (tokens : list string) : string :=
  match tokens with
  | [] => ""
  | t :: ts => if Str.mem t ["n"; "d"] then Str.upper t else first_system_token ts
  end.

Definition detect_system_tag (text : string) : string :=
  first_system_token (Str.split (normalize_text text)).

Record ParsedSlots : Type := mkParsed {
  p_normalized : string;
  p_skus : list string;
  p_codes : list string;
  p_primary_code : string;
  p_quantity : option Z;
  p_amp : string;
  p_is_robot : option bool;
  p_product_group : option string;
  p_required_parts : list string;
  p_bundle_hint : bool;
  p_expand_bundle : bool;
  p_constraints : pydict
}.

Definition parse_user_input (message : string) : result ParsedSlots :=
  let normalized := normalize_text message in
  let skus := extract_skus message in
  let '(codes, primary_code) := extract_codes message in
  let skus :=
    if (Str.is_empty_list skus && negb (Str.is_empty_list codes))%bool
    then
      let digit_codes := filter Str.isdigit codes in
      if negb (Str.is_empty_list digit_codes) then digit_codes else skus
    else skus in
  quantity <- extract_quantity normalized ;;
  let amp := amp_of normalized in
  let is_robot : option bool := None in
  let is_robot :=
    if (Str.contains "robot" normalized || Str.contains "robotic" normalized)%bool
    then Some true else is_robot in
  let is_robot :=
    if (Str.contains "tay" normalized || Str.contains "hand" normalized)%bool
    then Some false else is_robot in
  let product_group := detect_product_group normalized in
  let '(required_parts, expand_bundle) := extract_requested_parts message in
  let bundle_hint := found BUNDLE_QUERY_RE normalized in
  constraints <- extract_lookup_constraints message ;;
  let thread :=
    match search THREAD_RE message with
    | Some m => Some (Str.upper (group0 m))
    | None => None
    end in
  let material := if found MATERIAL_RE normalized then Some "ALUMINUM" else None in
  let system := detect_system_tag normalized in
  let constraints :=
    match thread with
    | Some t => if Str.is_empty t then constraints
                else dict_set "thread" (PStr t) constraints
    | None => constraints
    end in
  let constraints :=
    match material with
    | Some m => dict_set "material" (PStr m) constraints
    | None => constraints
    end in
  let constraints :=
    if Str.is_empty system then constraints
    else dict_set "system" (PStr system) constraints in
  Ok (mkParsed normalized skus codes primary_code quantity amp is_robot
               product_group required_parts bundle_hint expand_bundle
               constraints).

End Slots.

(** ** Dialogue acts *)

Module Dialogue.
Import Re Patterns Slots.

Inductive dialogue_act : Type :=
| SLOT_FILL_AMP
| SLOT_FILL_TYPE
| SLOT_FILL_QUANTITY
| AFFIRM
| NEGATE
| NEW_INTENT.

Definition is_some {A : Type} (o : option A) : bool :=
  match o with Some _ => true | None => false end.

Definition is_availability_query (message : string) : bool :=
  let normalized := normalize_text message in
  existsb (fun phrase => Str.contains phrase normalized) AVAILABILITY_PHRASES.

Definition is_type_only_message (message : string) : bool :=
  let n := normalize_text message in
  if Nat.ltb 6 (Str.word_count n) then false
  else (found TYPE_ANSWER_RE n
        && negb (found CODE_RE n)
        && negb (found LISTING_RE n)
        && negb (found PRICE_RE n))%bool.

Definition is_amp_only_message (message : string) : result bool :=
  let normalized := normalize_text message in
  if negb (found AMP_ANY_RE normalized) then Ok false
  else
    q <- extract_quantity normalized ;;
    if is_some q then Ok false
    else if is_some (detect_product_group normalized) then Ok false
    else if (found CODE_RE message || found D_CODE_RE message
             || found P_CODE_RE message || found NUM_CODE_RE message)%bool
    then Ok false
    else if (found PRICE_RE normalized || found LISTING_RE normalized
             || found RELATED_QUERY_RE normalized)%bool
    then Ok false
    else if Nat.leb (Str.word_count normalized) 4 then Ok true
    else Ok (found FOLLOWUP_CUE_RE normalized
             && Nat.leb (Str.word_count normalized) 6)%bool.

Definition is_quantity_followup_message (message : string) : result bool :=
  let n := normalize_text message in
  qty <- extract_quantity n ;;
  if negb (is_some qty) then Ok false
  else if (found CODE_RE message || found LISTING_RE n || found PRICE_RE n
           || found RELATED_QUERY_RE n)%bool
  then Ok false
  else if is_some (detect_product_group n) then Ok false
  else Ok (Nat.leb (Str.word_count n) 8).

Definition is_pure_quantity_message (message : string) : bool :=
  let normalized := normalize_text message in
  if Str.is_empty normalized then false
  else if fullmatches PURE_DIGITS_RE normalized then true
  else if fullmatches PURE_MOT_RE normalized then true
  else if fullmatches PURE_QTY_UNIT_RE normalized then true
  else false.

Definition message_has_any_term (normalized : string) (terms : list string) : bool :=
  if (Str.is_empty normalized || Str.is_empty_list terms)%bool then false
  else
    let padded := " " ++ normalized ++ " " in
    existsb
      (fun term =>
         if Str.is_empty term then false
         else Str.contains (" " ++ term ++ " ") padded)
      terms.

(** The common body of [is_affirmation_message] and [is_negative_message]. *)
Definition short_reply_with (terms : list string) (message : string) : result bool :=
  let normalized := normalize_text message in
  if Str.is_empty normalized then Ok false
  else if is_availability_query message then Ok false
  else if (found CODE_RE message || found LISTING_RE normalized
           || found PRICE_RE normalized)%bool
  then Ok false
  else
    q <- extract_quantity normalized ;;
    if (is_some q || found AMP_ANY_RE normalized)%bool then Ok false
    else if (is_some (detect_product_group normalized)
             || found RELATED_QUERY_RE normalized)%bool
    then Ok false
    else if Nat.ltb 4 (Str.word_count normalized) then Ok false
    else Ok (message_has_any_term normalized terms).

Definition is_affirmation_message (message : string) : result bool :=
  short_reply_with AFFIRM_TERMS message.

Definition is_negative_message (message : string) : result bool :=
  short_reply_with NEGATE_TERMS message.

Definition detect_dialogue_act (message : string) : result dialogue_act :=
  amp <- is_amp_only_message message ;;
  if amp then Ok SLOT_FILL_AMP
  else if is_type_only_message message then Ok SLOT_FILL_TYPE
  else
    qty <- orM (Ok (is_pure_quantity_message message))
               (is_quantity_followup_message message) ;;
    if qty then Ok SLOT_FILL_QUANTITY
    else
      yes <- is_affirmation_message message ;;
      if yes then Ok AFFIRM
      else
        no <- is_negative_message message ;;
        if no then Ok NEGATE else Ok NEW_INTENT.

End Dialogue.

(** ** Memory resolver *)

Module Resolver.
Import Re Patterns Slots Dialogue.

(** [ShortMemory] as the resolver reads it.  A missing or empty dict reads as
    the record of empty fields; [pending_action] keeps the difference between
    the empty dict (falsy, [None]) and a dict with the five keys. *)
Record Anchor : Type := mkAnchor {
  a_sku : string;
  a_cat : string;
  a_line_amp : string;
  a_is_robot : option bool;
  a_name : string
}.

Record PendingAction : Type := mkPending {
  pa_action : string;
  pa_required_parts : list string;
  pa_anchor_sku : string;
  pa_product_group : string;
  pa_constraints : pydict
}.

Record Memory : Type := mkMemory {
  last_anchor : Anchor;
  last_intent : string;
  last_results : list string;
  pending_required_parts : list string;
  pending_action : option PendingAction;
  last_user_constraints : pydict
}.

Record Resolved : Type := mkResolved {
  anchor_sku : string;
  anchor_cat : string;
  anchor_name : string;
  anchor_used : bool;
  product_group : string;
  line_amp : pyval;
  is_robot : option bool;
  required_parts : list string;
  bundle_hint : bool;
  expand_bundle : bool;
  constraints : pydict;
  force_intent : string;
  clear_pending_action : bool
}.

Definition nonempty (s : string) : bool := negb (Str.is_empty s).

(** [merge_unique(primary, secondary)] *)
Fixpoint merge_unique_loop (vals seen out : list string) : list string :=
  match vals with
  | [] => out
  | value :: vals' =>
      if Str.is_empty value then merge_unique_loop vals' seen out
      else
        let key := Str.upper value in
        if Str.mem key seen then merge_unique_loop vals' seen out
        else merge_unique_loop vals' (key :: seen) (out ++ [key])%list
  end.

Definition merge_unique (primary secondary : list string) : list string :=
  merge_unique_loop (primary ++ secondary)%list [] [].

(** [for key, value in src.items(): if value is None or value == "": continue;
     dst[key] = value] *)
Definition overlay_constraints (dst src : pydict) : pydict :=
  fold_left
    (fun acc kv =>
       match snd kv with
       | PNone => acc
       | PStr "" => acc
       | v => dict_set (fst kv) v acc
       end)
    src dst.

(** [for key, value in src.items(): if value and key not in dst: dst[key] = value] *)
Definition fill_constraints (dst src : pydict) : pydict :=
  fold_left
    (fun acc kv =>
       if (py_truthy (snd kv) && negb (dict_has (fst kv) acc))%bool
       then dict_set (fst kv) (snd kv) acc else acc)
    src dst.

(** The test that clears a pending action on a NEW_INTENT turn. *)
Definition new_intent_signal (message normalized : string) : result bool :=
  if (found CODE_RE message || found LISTING_RE normalized
      || found PRICE_RE normalized || found RELATED_QUERY_RE normalized
      || is_some (detect_product_group normalized))%bool
  then Ok true
  else
    q <- extract_quantity normalized ;;
    if is_some q then Ok true
    else Ok (found AMP_ANY_RE normalized || is_availability_query message)%bool.

(** Lines 2849-2865 of [resolve_request_with_memory]: the anchor, its
    category and name, and whether it came from memory. *)
Definition select_anchor (skus : list string) (followup : bool)
  (last_anchor : Anchor) (last_results : list string)
  : string * string * string * bool :=
  match skus with
  | sku0 :: _ => (sku0, "", "", false)
  | [] =>
      if (followup && nonempty (a_sku last_anchor))%bool
      then (a_sku last_anchor, a_cat last_anchor, a_name last_anchor, true)
      else if (followup && Nat.eqb (List.length last_results) 1)%bool
      then (hd "" last_results, "", "", true)
      else ("", "", "", false)
  end.

Definition resolve_request_with_memory
  (message : string) (parsed : ParsedSlots) (memory : Memory) : result Resolved :=
  let normalized := or_str (p_normalized parsed) (normalize_text message) in
  let words := Str.split normalized in
  let last_anchor := last_anchor memory in
  let last_results := last_results memory in
  let pending_action := pending_action memory in
  dialogue_act <- detect_dialogue_act message ;;
  let clear_pending_action := false in
  let is_list := found LISTING_RE normalized in
  let followup := found FOLLOWUP_CUE_RE normalized in
  let followup :=
    (followup
     || match p_quantity parsed with Some q => negb (Z.eqb q 0) | None => false end
     || nonempty (p_amp parsed))%bool in
  let followup := (followup || is_some (p_is_robot parsed))%bool in
  let followup := (followup || p_bundle_hint parsed)%bool in
  let followup :=
    if (Nat.leb (List.length words) 4 && nonempty (a_sku last_anchor))%bool
    then true else followup in
  let skus := p_skus parsed in
  let '(anchor_sku, anchor_cat, anchor_name, anchor_used) :=
    select_anchor skus followup last_anchor last_results in
  let anchor_cat :=
    if (Str.is_empty anchor_cat && nonempty (a_cat last_anchor))%bool
    then a_cat last_anchor else anchor_cat in
  let anchor_name :=
    if (Str.is_empty anchor_name && nonempty (a_name last_anchor))%bool
    then a_name last_anchor else anchor_name in
  let product_group :=
    match p_product_group parsed with
    | Some g => if Str.is_empty g then anchor_cat else g
    | None => anchor_cat
    end in
  let line_amp :=
    py_or (PStr (p_amp parsed))
          (py_or (py_get (last_user_constraints memory) "amp") (PStr "")) in
  let is_robot :=
    match p_is_robot parsed with
    | Some b => Some b
    | None => a_is_robot last_anchor
    end in
  let requested_parts := p_required_parts parsed in
  let required_parts := requested_parts in
  let expand_bundle := p_expand_bundle parsed in
  let required_parts :=
    if (Str.is_empty_list required_parts && p_bundle_hint parsed)%bool
    then pending_required_parts memory else required_parts in
  let con_prefix :=
    (is_some (match_start CON_PREFIX_RE normalized)
     && negb (Str.is_empty_list requested_parts))%bool in
  let required_parts := if con_prefix then requested_parts else required_parts in
  let expand_bundle := if con_prefix then false else expand_bundle in
  let product_group :=
    if (con_prefix && Nat.eqb (List.length requested_parts) 1)%bool
    then hd "" requested_parts else product_group in
  let insulator :=
    (Str.contains "cach dien" normalized || Str.contains "insulator" normalized)%bool in
  let product_group := if insulator then "INSULATOR" else product_group in
  let required_parts :=
    if (insulator && negb (Str.mem "INSULATOR" required_parts))%bool
    then merge_unique required_parts ["INSULATOR"] else required_parts in
  let constraints :=
    overlay_constraints (last_user_constraints memory) (p_constraints parsed) in
  let last_intent := last_intent memory in
  let force_intent :=
    if (negb is_list
        && (negb (Str.is_empty_list required_parts) || expand_bundle
            || p_bundle_hint parsed)
        && nonempty anchor_sku)%bool
    then "ACCESSORY_BUNDLE_LOOKUP"
    else if (negb is_list && py_truthy line_amp && nonempty anchor_sku
             && Str.mem last_intent TECHNICAL_INTENTS)%bool
    then last_intent
    else if (negb is_list && is_some is_robot && nonempty anchor_sku
             && Str.mem last_intent TECHNICAL_INTENTS)%bool
    then last_intent
    else "" in
  qty_msg <- orM (Ok (is_pure_quantity_message message))
                 (is_quantity_followup_message message) ;;
  let force_intent := if qty_msg then "" else force_intent in
  let base :=
    mkResolved anchor_sku anchor_cat anchor_name anchor_used product_group
               line_amp is_robot required_parts (p_bundle_hint parsed)
               expand_bundle constraints force_intent clear_pending_action in
  let with_clear (r : Resolved) (c : bool) : Resolved :=
    mkResolved (Resolver.anchor_sku r) (Resolver.anchor_cat r)
               (Resolver.anchor_name r) (Resolver.anchor_used r)
               (Resolver.product_group r) (Resolver.line_amp r)
               (Resolver.is_robot r) (Resolver.required_parts r)
               (Resolver.bundle_hint r) (Resolver.expand_bundle r)
               (Resolver.constraints r) (Resolver.force_intent r) c in
  match pending_action, dialogue_act with
  | Some pa, AFFIRM =>
      let pending_intent := pa_action pa in
      if nonempty pending_intent then
        let anchor_sku' :=
          if nonempty (pa_anchor_sku pa) then pa_anchor_sku pa else anchor_sku in
        let anchor_used' :=
          if nonempty (pa_anchor_sku pa) then true else anchor_used in
        let product_group' :=
          if (nonempty (pa_product_group pa)
              && negb (match p_product_group parsed with
                       | Some g => nonempty g
                       | None => false
                       end))%bool
          then pa_product_group pa else product_group in
        let required_parts' :=
          if negb (Str.is_empty_list (pa_required_parts pa))
          then pa_required_parts pa else required_parts in
        let constraints' := fill_constraints constraints (pa_constraints pa) in
        Ok (mkResolved anchor_sku' anchor_cat anchor_name anchor_used'
                       product_group' line_amp is_robot required_parts'
                       (p_bundle_hint parsed) expand_bundle constraints'
                       pending_intent true)
      else Ok base
  | Some _, SLOT_FILL_AMP
  | Some _, SLOT_FILL_TYPE
  | Some _, SLOT_FILL_QUANTITY => Ok (with_clear base true)
  | Some _, NEGATE => Ok (with_clear base true)
  | Some _, NEW_INTENT =>
      signal <- new_intent_signal message normalized ;;
      Ok (with_clear base signal)
  | None, _ => Ok base
  end.

End Resolver.

(** ** Short memory *)

Module ShortMemory.

Definition SHORT_MEMORY_TTL_SEC : Z := 15 * 60.

Definition default_last_anchor : pyval :=
  PDict [("sku", PStr ""); ("cat", PStr ""); ("line_amp", PStr "");
         ("is_robot", PNone); ("name", PStr "")].

Definition default_pending_request : pyval :=
  PDict [("required_parts", PList []); ("missing_fields", PList []);
         ("done_parts", PList []); ("todo_parts", PList [])].

Definition default_pending_action : pyval :=
  PDict [("action", PStr ""); ("required_parts", PList []);
         ("anchor_sku", PStr ""); ("product_group", PStr "");
         ("constraints", PDict [])].

Definition default_commercial_context : pyval :=
  PDict [("quantity", PNone); ("contact_collected", PBool false);
         ("show_form", PBool false)].

Definition default_short_memory : pyval :=
  PDict [("last_anchor", default_last_anchor);
         ("last_intent", PStr "");
         ("last_topic", PStr "");
         ("last_results", PList []);
         ("pending_request", default_pending_request);
         ("pending_action", default_pending_action);
         ("last_user_constraints", PDict []);
         ("last_commercial_context", default_commercial_context)].

(** [normalize_short_memory(order_state)], with [time.time()] = [now]. *)
Definition normalize_short_memory (order_state : pydict) (now : Q) : result pyval :=
  let mem := py_get order_state "short_memory" in
  let ts := py_get order_state "short_memory_ts" in
  let mem := if negb (isinstance_dict mem) then default_short_memory else mem in
  expired <- orM (Ok (negb (isinstance_number ts)))
                 (d <- float_sub (Float64.of_Q now) ts ;;
                  Ok (float_gt d SHORT_MEMORY_TTL_SEC)) ;;
  let mem := if expired then default_short_memory else mem in
  mem <- py_setdefault mem "last_anchor" default_last_anchor ;;
  mem <- py_setdefault mem "last_results" (PList []) ;;
  mem <- py_setdefault mem "pending_request" default_pending_request ;;
  mem <- py_setdefault mem "pending_action" default_pending_action ;;
  mem <- py_setdefault mem "last_user_constraints" (PDict []) ;;
  mem <- py_setdefault mem "last_commercial_context" default_commercial_context ;;
  Ok mem.

End ShortMemory.

(** ** Intent decision and the hard rules *)

Module Intent.

Record IntentDecision : Type := mkDecision {
  intent : string;
  buy_intent : bool;
  info_only : bool;
  topic : string;
  entities : pydict;
  missing : list string;
  next_action : string;
  commercial_action : pydict
}.

Definition allowed_actions : list string :=
  ["ANSWER_ONLY"; "ASK_FOR_SKU_OR_GROUP"; "ASK_HAND_VS_ROBOT_ONCE";
   "REQUEST_CONTACT_FORM"; "COMMERCIAL_NEUTRAL_REPLY"].

Definition apply_intent_rules (decision : IntentDecision)
  (normalized_message : string) : IntentDecision :=
  let info_only := info_only decision in
  let commercial_action := commercial_action decision in
  let info_only :=
    if Str.mem (intent decision)
         ["LIST"; "LIST_REQUEST"; "PRODUCT_LOOKUP"; "ACCESSORY_LOOKUP";
          "ACCESSORY_BUNDLE_LOOKUP"; "CODE_LOOKUP"; "QUANTITY_FOLLOWUP";
          "SLOT_FILL_AMP"]
    then false else info_only in
  let next_action :=
    if Str.mem (next_action decision) allowed_actions
    then next_action decision else "ANSWER_ONLY" in
  let next_action :=
    if info_only then "ANSWER_ONLY"
    else if Str.mem (intent decision) ["LIST"; "LIST_REQUEST"] then "ANSWER_ONLY"
    else if Str.mem (intent decision) ["ACCESSORY_LOOKUP"; "ACCESSORY_BUNDLE_LOOKUP"]
    then "ANSWER_ONLY"
    else if String.eqb (intent decision) "SLOT_FILL_AMP" then "ANSWER_ONLY"
    else if String.eqb (intent decision) "QUANTITY_FOLLOWUP"
    then (if py_truthy (py_get commercial_action "collect_contact")
          then "REQUEST_CONTACT_FORM" else "ANSWER_ONLY")
    else if String.eqb (intent decision) "PRODUCT_AVAILABILITY" then "ANSWER_ONLY"
    else if (String.eqb (intent decision) "CODE_LOOKUP"
             && negb (buy_intent decision))%bool
    then "ANSWER_ONLY"
    else if (buy_intent decision && Str.mem "sku" (missing decision))%bool
    then "ASK_FOR_SKU_OR_GROUP"
    else if (buy_intent decision && Str.mem "contact" (missing decision)
             && negb (String.eqb (topic decision) "commercial"))%bool
    then "REQUEST_CONTACT_FORM"
    else if String.eqb (topic decision) "commercial" then "COMMERCIAL_NEUTRAL_REPLY"
    else if Str.mem "tay_robot" (missing decision) then "ASK_HAND_VS_ROBOT_ONCE"
    else next_action in
  mkDecision (intent decision) (buy_intent decision) info_only (topic decision)
             (entities decision) (missing decision) next_action [].

(** The intents whose rule comes before the buy-intent rules. *)
Definition listing_like : list string :=
  ["LIST"; "LIST_REQUEST"; "ACCESSORY_LOOKUP"; "ACCESSORY_BUNDLE_LOOKUP";
   "SLOT_FILL_AMP"; "QUANTITY_FOLLOWUP"; "PRODUCT_AVAILABILITY"].

(** [info_only] as the pass computes it. *)
Definition effective_info_only (d : IntentDecision) : bool :=
  if Str.mem (intent d)
       ["LIST"; "LIST_REQUEST"; "PRODUCT_LOOKUP"; "ACCESSORY_LOOKUP";
        "ACCESSORY_BUNDLE_LOOKUP"; "CODE_LOOKUP"; "QUANTITY_FOLLOWUP";
        "SLOT_FILL_AMP"]
  then false else info_only d.

(** Some branch of the if/elif ladder of [apply_intent_rules] is taken. *)
Definition hard_rule_applies (d : IntentDecision) : bool :=
  (effective_info_only d
   || Str.mem (intent d) ["LIST"; "LIST_REQUEST"]
   || Str.mem (intent d) ["ACCESSORY_LOOKUP"; "ACCESSORY_BUNDLE_LOOKUP"]
   || String.eqb (intent d) "SLOT_FILL_AMP"
   || String.eqb (intent d) "QUANTITY_FOLLOWUP"
   || String.eqb (intent d) "PRODUCT_AVAILABILITY"
   || (String.eqb (intent d) "CODE_LOOKUP" && negb (buy_intent d))
   || (buy_intent d && Str.mem "sku" (missing d))
   || (buy_intent d && Str.mem "contact" (missing d)
       && negb (String.eqb (topic d) "commercial"))
   || String.eqb (topic d) "commercial"
   || Str.mem "tay_robot" (missing d))%bool.

(** The decision with the generator's proposal replaced. *)
Definition with_next_action (d : IntentDecision) (a : string) : IntentDecision :=
  mkDecision (intent d) (buy_intent d) (info_only d) (topic d) (entities d)
             (missing d) a (commercial_action d).

End Intent.

(** ** Context guard: the commercial flags *)

Module Guard.
Import Re Patterns Slots Dialogue.

Record ResourceItem : Type := mkItem {
  code : string;
  name : string;
  description : string;
  category : string;
  link : string;
  raw : pydict
}.

(** [int(str(value).strip())] on a catalog cell.  [str] of a bool, of [None],
    of a float and of a container is never an integer literal, and [str] of
    an int of more than [MAX_STR_DIGITS] digits raises [ValueError]. *)
Definition int_of_cell (value : pyval) : result Z :=
  match value with
  | PStr s => Str.py_int (Str.strip s)
  | PInt z =>
      if Z.leb (10 ^ Z.of_nat Str.MAX_STR_DIGITS) (Z.abs z)
      then Raise ValueError else Ok z
  | _ => Raise ValueError
  end.

Definition is_bulk_key (key : string) : bool :=
  let key_norm := normalize_text key in
  (Str.mem key_norm (map normalize_text BULK_QTY_KEYS)
   || (Str.contains "min" key_norm
       && (Str.contains "qty" key_norm || Str.contains "so luong" key_norm)))%bool.

Fixpoint bulk_values_of_raw (cells : pydict) : list Z :=
  match cells with
  | [] => []
  | (key, value) :: cells' =>
      if is_bulk_key key then
        match try_except (v <- int_of_cell value ;; Ok (Some v)) ValueError (Ok None)
        with
        | Ok (Some num) =>
            if Z.ltb 0 num then num :: bulk_values_of_raw cells'
            else bulk_values_of_raw cells'
        | _ => bulk_values_of_raw cells'
        end
      else bulk_values_of_raw cells'
  end.

Fixpoint list_min (x : Z) (l : list Z) : Z :=
  match l with
  | [] => x
  | y :: l' => list_min (Z.min x y) l'
  end.

(** [get_bulk_qty_threshold(items)], with [os.getenv("BULK_QTY_THRESHOLD")]
    = [env]. *)
Definition get_bulk_qty_threshold (env : option string) (items : list ResourceItem)
  : result (option Z) :=
  match env with
  | Some env_value =>
      if (negb (Str.is_empty env_value) && Str.isdigit env_value)%bool
      then v <- Str.py_int env_value ;; Ok (Some v)
      else
        match flat_map (fun item => bulk_values_of_raw (raw item)) items with
        | [] => Ok None
        | v :: vs => Ok (Some (list_min v vs))
        end
  | None =>
      match flat_map (fun item => bulk_values_of_raw (raw item)) items with
      | [] => Ok None
      | v :: vs => Ok (Some (list_min v vs))
      end
  end.

(** The fields of [PipelineContext] that lines 1419-1516 of
    [_step_context_guard] read or write.  [ent_quantity] and
    [ent_commercial_action] are the two entries of [intent_entities] used
    there; [_apply_intent_decision] always stores a dict under
    ["commercial_action"]. *)
Record PipelineContext : Type := mkContext {
  user_message : string;
  order_state : pydict;
  ent_quantity : pyval;
  ent_commercial_action : pydict;
  catalog_items : list ResourceItem;
  items : list ResourceItem;
  intent_label : string;
  intent_topic : string;
  next_action : string;
  buy_intent : bool;
  request_contact : bool;
  missing_quantity : bool;
  missing_sku : bool;
  missing_contact : bool;
  has_asked_type : bool;
  has_answered_type : bool;
  waiting_for_contact : bool;
  reminder_count : Z;
  should_remind_contact : bool;
  should_ask_type : bool;
  should_show_form : bool;
  is_asking_related : bool;
  is_availability_query : bool;
  is_asking_price : bool;
  is_info_query : bool;
  is_info_only : bool;
  is_close_intent : bool;
  is_single_unit : bool;
  has_code_query : bool;
  should_render_products : bool
}.

(** Lines 1419-1516 of [_step_context_guard]: the bulk-order side effect and
    the commercial flags derived after [update_order_state_from_turn]. *)
Definition step_context_guard_commercial (env : option string)
  (context : PipelineContext) : result PipelineContext :=
  let state k := py_get (order_state context) k in
  let commercial_action := ent_commercial_action context in
  let quantity_value := py_or (state "quantity") (ent_quantity context) in
  bulk_threshold <- get_bulk_qty_threshold env (catalog_items context) ;;
  let bulk :=
    match bulk_threshold with
    | Some t =>
        (negb (Z.eqb t 0)
         && isinstance_int quantity_value
         && match as_int quantity_value with
            | Some q => Z.leb t q
            | None => false
            end)%bool
    | None => false
    end in
  let commercial_action :=
    if bulk
    then dict_setdefault "reason" (PStr "bulk_quantity_order")
           (dict_set "collect_contact" (PBool true) commercial_action)
    else commercial_action in
  let request_contact := if bulk then true else request_contact context in
  let has_selected :=
    py_truthy (py_or (state "selected_sku") (state "selected_group")) in
  let has_code_query :=
    (has_code_query context || py_truthy (state "selected_sku"))%bool in
  let quantity_present := negb (is_none (state "quantity")) in
  let contact_missing := negb (py_truthy (state "contact")) in
  let waiting_for_contact :=
    if (py_truthy (state "asked_contact_form") && contact_missing)%bool
    then true else waiting_for_contact context in
  let missing_sku := if has_selected then false else missing_sku context in
  let missing_quantity :=
    if quantity_present then false else missing_quantity context in
  let missing_contact :=
    if negb contact_missing then false else missing_contact context in
  let should_show_form :=
    (has_selected && quantity_present && contact_missing
     && negb (is_single_unit context) && negb (is_info_only context)
     && (buy_intent context || is_close_intent context || request_contact))%bool in
  let should_show_form :=
    if String.eqb (next_action context) "ASK_FOR_SKU_OR_GROUP"
    then false else should_show_form in
  let should_show_form :=
    if (is_asking_price context || is_availability_query context)%bool
    then false else should_show_form in
  qty_msg <- orM (Ok (is_pure_quantity_message (user_message context)))
                 (is_quantity_followup_message (user_message context)) ;;
  let should_show_form :=
    if (qty_msg && has_selected && quantity_present && contact_missing
        && negb (is_single_unit context) && negb (is_info_only context))%bool
    then true else should_show_form in
  let should_remind_contact :=
    (waiting_for_contact
     && (buy_intent context || is_close_intent context)
     && negb (should_ask_type context)
     && Z.ltb (reminder_count context) 1
     && negb (is_info_query context) && negb (is_info_only context))%bool in
  let should_remind_contact :=
    if (is_asking_price context || is_availability_query context)%bool
    then false else should_remind_contact in
  let has_items := negb (Str.is_empty_list (items context)) in
  let code_lookup := String.eqb (intent_label context) "CODE_LOOKUP" in
  let should_render_products :=
    if code_lookup then has_items else should_render_products context in
  let should_ask_type := if code_lookup then false else should_ask_type context in
  let should_ask_type :=
    if (is_asking_price context || is_availability_query context
        || String.eqb (intent_topic context) "commercial")%bool
    then (if has_items then false
          else (negb (has_asked_type context)
                && negb (has_answered_type context))%bool)
    else should_ask_type in
  (* Lines 1478-1513: one block per intent, each assigning is_asking_price,
     is_availability_query, is_close_intent, should_show_form,
     should_remind_contact, should_ask_type, should_render_products and
     is_asking_related. *)
  let flags :=
    (is_asking_price context, is_availability_query context,
     is_close_intent context, should_show_form, should_remind_contact,
     should_ask_type, should_render_products, is_asking_related context) in
  let flags :=
    if String.eqb (intent_label context) "PRODUCT_LOOKUP"
    then (false, false, false, false, false, false, true, false) else flags in
  let flags :=
    if String.eqb (intent_label context) "TYPE_SWITCH"
    then (false, false, false, false, false, false, true, false) else flags in
  let flags :=
    if String.eqb (intent_label context) "ACCESSORY_LOOKUP"
    then (false, false, false, false, false, false, true, true) else flags in
  let flags :=
    if String.eqb (intent_label context) "ACCESSORY_BUNDLE_LOOKUP"
    then (false, false, false, false, false, false, true, true) else flags in
  let '(is_asking_price, is_availability_query, is_close_intent,
        should_show_form, should_remind_contact, should_ask_type,
        should_render_products, is_asking_related) := flags in
  let should_ask_type :=
    if Str.mem (intent_label context) ["LIST"; "LIST_REQUEST"]
    then false else should_ask_type in
  Ok (mkContext
        (user_message context) (order_state context) (ent_quantity context)
        commercial_action (catalog_items context) (items context)
        (intent_label context) (intent_topic context) (next_action context)
        (buy_intent context) request_contact missing_quantity missing_sku
        missing_contact (has_asked_type context) (has_answered_type context)
        waiting_for_contact (reminder_count context) should_remind_contact
        should_ask_type should_show_form is_asking_related
        is_availability_query is_asking_price (is_info_query context)
        (is_info_only context) is_close_intent (is_single_unit context)
        has_code_query should_render_products).

(** Two turns, as they stand when line 1419 is reached. *)

(** "co ban khong 100 cai" in a session whose selected SKU is 004002: the
    quantity fast path gave QUANTITY_FOLLOWUP with buy intent, retrieval
    matched the selected item, and the first half of the guard found an
    availability query. *)
Definition availability_quantity_turn : PipelineContext :=
  {| user_message := "co ban khong 100 cai";
     order_state := [("selected_sku", PStr "004002"); ("selected_group", PNone);
                     ("quantity", PInt 100); ("contact", PNone);
                     ("asked_contact_form", PBool false)];
     ent_quantity := PInt 100;
     ent_commercial_action := [];
     catalog_items := [mkItem "004002" "Bec han 1.2" "" "TIP" "" []];
     items := [mkItem "004002" "Bec han 1.2" "" "TIP" "" []];
     intent_label := "QUANTITY_FOLLOWUP";
     intent_topic := "product";
     next_action := "ANSWER_ONLY";
     buy_intent := true;
     request_contact := false;
     missing_quantity := false;
     missing_sku := false;
     missing_contact := false;
     has_asked_type := false;
     has_answered_type := false;
     waiting_for_contact := false;
     reminder_count := 0;
     should_remind_contact := false;
     should_ask_type := false;
     should_show_form := true;
     is_asking_related := false;
     is_availability_query := true;
     is_asking_price := false;
     is_info_query := false;
     is_info_only := false;
     is_close_intent := true;
     is_single_unit := false;
     has_code_query := false;
     should_render_products := true |}.

(** "bec han" in a session that already holds the quantity 5, with no contact
    request from the intent stage. *)
Definition lookup_turn_with_quantity : PipelineContext :=
  {| user_message := "bec han";
     order_state := [("selected_sku", PNone); ("selected_group", PStr "TIP");
                     ("quantity", PInt 5); ("contact", PNone);
                     ("asked_contact_form", PBool false)];
     ent_quantity := PNone;
     ent_commercial_action := [];
     catalog_items := [mkItem "004002" "Bec han 1.2" "" "TIP" "" []];
     items := [mkItem "004002" "Bec han 1.2" "" "TIP" "" []];
     intent_label := "PRODUCT_LOOKUP";
     intent_topic := "product";
     next_action := "ANSWER_ONLY";
     buy_intent := false;
     request_contact := false;
     missing_quantity := false;
     missing_sku := false;
     missing_contact := false;
     has_asked_type := false;
     has_answered_type := false;
     waiting_for_contact := false;
     reminder_count := 0;
     should_remind_contact := false;
     should_ask_type := false;
     should_show_form := false;
     is_asking_related := true;
     is_availability_query := false;
     is_asking_price := false;
     is_info_query := false;
     is_info_only := false;
     is_close_intent := false;
     is_single_unit := false;
     has_code_query := false;
     should_render_products := false |}.

(** The quantity the bulk test reads: [order_state.get("quantity") or
    intent_entities.get("quantity")]. *)
Definition quantity_value (context : PipelineContext) : pyval :=
  py_or (py_get (order_state context) "quantity") (ent_quantity context).


End Guard.

(** ** Memory updater: the constraint merge *)

Module Updater.
Import Re Patterns Slots.

Definition CONSTRAINT_KEYS : list string :=
  ["amp"; "size"; "length"; "thread"; "material"; "system"].

(** One round of the loop at lines 4681-4685 of
    [update_short_memory_from_context]. *)
Definition merge_key (intent_entities : pydict) (user_message : string)
  (constraints : pydict) (key : string) : pydict :=
  if negb (is_none (py_get intent_entities key)) then
    if (String.eqb key "amp"
        && negb (found AMP_ANY_RE (normalize_text user_message)))%bool
    then constraints
    else dict_set key (py_get intent_entities key) constraints
  else constraints.

(** Whether the loop writes [key]. *)
Definition overlays (intent_entities : pydict) (user_message : string)
  (key : string) : bool :=
  (negb (is_none (py_get intent_entities key))
   && negb (String.eqb key "amp"
            && negb (found AMP_ANY_RE (normalize_text user_message))))%bool.

(** Lines 4680-4686 of [update_short_memory_from_context]: the value stored
    under ["last_user_constraints"]. *)
Definition update_last_user_constraints (last_user_constraints : pydict)
  (intent_entities : pydict) (user_message : string) : pydict :=
  fold_left (merge_key intent_entities user_message) CONSTRAINT_KEYS
            last_user_constraints.

End Updater.

(** ** Helpers of [utils.py] *)

Module Utils.
Import Slots.

(** [s.replace(" ", "")] *)
Definition remove_spaces (s : string) : string :=
  Str.filter_chars (fun c => negb (Ascii.eqb c " ")) s.

Definition normalize_key (text : string) : string :=
  remove_spaces (normalize_text text).

(** [s.find(c)] and [s.rfind(c)] for a one-character needle; [None] is -1. *)
Fixpoint find_char (c : ascii) (s : string) : option nat :=
  match s with
  | EmptyString => None
  | String x s' =>
      if Ascii.eqb x c then Some O
      else match find_char c s' with
           | Some i => Some (S i)
           | None => None
           end
  end.

Fixpoint rfind_char (c : ascii) (s : string) : option nat :=
  match s with
  | EmptyString => None
  | String x s' =>
      match rfind_char c s' with
      | Some i => Some (S i)
      | None => if Ascii.eqb x c then Some O else None
      end
  end.

Definition extract_json_block (text : string) : option string :=
  if Str.is_empty text then None
  else
    match find_char "{" text, rfind_char "}" text with
    | Some start, Some end_ =>
        if Nat.leb end_ start then None
        else Some (String.substring start (end_ + 1 - start)%nat text)
    | _, _ => None
    end.

End Utils.

(** ** Log masking *)

Module Logging.
Import Slots.

Fixpoint drop (n : nat) (s : string) : string :=
  match n, s with
  | O, _ => s
  | S n', String _ s' => drop n' s'
  | S _, EmptyString => EmptyString
  end.

(** [s[-n:]] for [n > 0] *)
Definition last_n (n : nat) (s : string) : string :=
  drop (String.length s - n) s.

(** [mask_contact_value(value)] for a contact slot that holds [None] or a
    string; [re.findall(r"\d", s)] lists the digits of [s] in order. *)
Definition mask_contact_value (value : option string) : string :=
  match value with
  | None => ""
  | Some s =>
      let digits := Str.filter_chars Str.is_digit s in
      if Nat.ltb (String.length digits) 4 then "***"
      else "***" ++ last_n 3 digits
  end.

End Logging.

(** ** Order state *)

Module OrderState.
Import Resolver.

Definition normalize_order_state (state : pydict) : pydict :=
  [("selected_sku", py_get state "selected_sku");
   ("selected_group", py_get state "selected_group");
   ("quantity", py_get state "quantity");
   ("hand_or_robot", py_get state "hand_or_robot");
   ("hand_or_robot_source", py_get state "hand_or_robot_source");
   ("contact", py_get state "contact");
   ("last_intent", py_get state "last_intent");
   ("last_context_codes", py_or (py_get state "last_context_codes") (PList []));
   ("last_group", py_get state "last_group");
   ("last_constraints", py_or (py_get state "last_constraints") (PDict []));
   ("short_memory", py_or (py_get state "short_memory") (PDict []));
   ("short_memory_ts", py_get state "short_memory_ts");
   ("selling_scope_variant", py_get state "selling_scope_variant");
   ("asked_hand_robot", PBool (py_truthy (py_get state "asked_hand_robot")));
   ("asked_contact_form", PBool (py_truthy (py_get state "asked_contact_form")))].

Definition ORDER_STATE_KEYS : list string :=
  ["selected_sku"; "selected_group"; "quantity"; "hand_or_robot";
   "hand_or_robot_source"; "contact"; "last_intent"; "last_context_codes";
   "last_group"; "last_constraints"; "short_memory"; "short_memory_ts";
   "selling_scope_variant"; "asked_hand_robot"; "asked_contact_form"].

(** [apply_resolved_to_order_state(order_state, resolved)], returning the
    mutated dict. *)
Definition apply_resolved_to_order_state (order_state : pydict)
  (resolved : Resolved) : pydict :=
  let order_state :=
    if nonempty (anchor_sku resolved)
    then dict_set "selected_sku" (PStr (anchor_sku resolved)) order_state
    else order_state in
  let order_state :=
    if nonempty (product_group resolved)
    then dict_set "selected_group" (PStr (product_group resolved)) order_state
    else order_state in
  match is_robot resolved with
  | Some true => dict_set "hand_or_robot" (PStr "ROBOT") order_state
  | Some false => dict_set "hand_or_robot" (PStr "HAND") order_state
  | None => order_state
  end.

End OrderState.

(** ** Commercial action of the generator *)

Module Commercial.

Definition parse_commercial_action (data : pydict) : pydict :=
  let action :=
    match py_get data "commercial_action" with
    | PDict d => d
    | _ => []
    end in
  let collect_contact :=
    if dict_has "collect_contact" action
    then py_truthy (py_get action "collect_contact") else false in
  let fields :=
    match py_get action "fields" with
    | PList l => PList l
    | _ => PList []
    end in
  let reason :=
    match py_get action "reason" with
    | PStr s => PStr s
    | _ => PStr ""
    end in
  [("collect_contact", PBool collect_contact); ("fields", fields);
   ("reason", reason)].

End Commercial.

(** ** Short memory: the keys the normaliser guarantees *)

Module ShortMemoryKeys.
Import ShortMemory.

Definition REQUIRED_KEYS : list string :=
  ["last_anchor"; "last_results"; "pending_request"; "pending_action";
   "last_user_constraints"; "last_commercial_context"].

(** The six [setdefault] calls on a dict. *)
Definition with_defaults (d : pydict) : pydict :=
  dict_setdefault "last_commercial_context" default_commercial_context
    (dict_setdefault "last_user_constraints" (PDict [])
       (dict_setdefault "pending_action" default_pending_action
          (dict_setdefault "pending_request" default_pending_request
             (dict_setdefault "last_results" (PList [])
                (dict_setdefault "last_anchor" default_last_anchor d))))).

End ShortMemoryKeys.

(** ** Contact state of the chat history *)

Module Contact.
Import Re Patterns Slots Dialogue.

(** [\b\d{8,12}\b] *)
Definition PHONE_RE : re := seqs [Wb; rep 8 12 digit; Wb].

(** [\d{4,}] *)
Definition LONG_DIGITS_RE : re := atleast 4 digit.

Definition has_form_block (answer : string) : bool :=
  let normalized := normalize_text answer in
  (Str.contains "ten cong ty" normalized
   && Str.contains "nguoi lien he" normalized
   && Str.contains "zalo" normalized)%bool.

Definition is_contact_request_line (line : string) (allow_form : bool) : bool :=
  let normalized := normalize_text line in
  if (Str.contains "ten cong ty" normalized
      || Str.contains "nguoi lien he" normalized)%bool then true
  else if (allow_form && Str.starts_with "zalo" normalized)%bool then true
  else if (Str.contains "cho em xin" normalized
           && (Str.contains "lien he" normalized
               || Str.contains "thong tin" normalized))%bool then true
  else if (Str.contains "so dien thoai" normalized
           && Str.contains "cho em xin" normalized)%bool then true
  else if (Str.contains "sdt" normalized
           && Str.contains "cho em xin" normalized)%bool then true
  else if (Str.contains "zalo" normalized
           && Str.contains "cho em xin" normalized)%bool then true
  else false.

Definition detect_contact_info (message : string) : bool :=
  let normalized := normalize_text message in
  if Str.is_empty normalized then false
  else if found PHONE_RE normalized then true
  else if (Str.contains "zalo" normalized && found LONG_DIGITS_RE normalized)%bool
  then true
  else if (Str.contains "sdt" normalized && found LONG_DIGITS_RE normalized)%bool
  then true
  else false.

Definition extract_contact_value (message : string) : option string :=
  let normalized := normalize_text message in
  match search PHONE_RE normalized with
  | Some m => Some (group0 m)
  | None =>
      if (Str.contains "zalo" normalized && found LONG_DIGITS_RE normalized)%bool
      then option_map group0 (search LONG_DIGITS_RE normalized)
      else if (Str.contains "sdt" normalized
               && found LONG_DIGITS_RE normalized)%bool
      then option_map group0 (search LONG_DIGITS_RE normalized)
      else None
  end.

(** A chat-history entry: [role], [content], and whether [meta] holds
    [asked_form] / [reminded_contact] equal to [True]. *)
Record ChatMessage : Type := mkChat {
  role : string;
  content : string;
  meta_asked_form : bool;
  meta_reminded_contact : bool
}.

(** [(asked_form, reminder_count, contact_received, waiting_for_contact)] *)
Definition contact_state : Type := (bool * nat * bool * bool)%type.

(** One iteration of the loop of [_get_contact_state]. *)
Definition contact_step (st : contact_state) (message : ChatMessage)
  : contact_state :=
  let '(asked_form, reminder_count, contact_received, waiting_for_contact) := st in
  if (String.eqb (role message) "assistant"
      && (meta_asked_form message || has_form_block (content message)))%bool
  then (true, O, false, true)
  else
    let reminder_count :=
      if (String.eqb (role message) "assistant" && asked_form
          && (meta_reminded_contact message
              || is_contact_request_line (content message) false))%bool
      then S reminder_count else reminder_count in
    if (String.eqb (role message) "user" && asked_form
        && detect_contact_info (content message))%bool
    then (asked_form, reminder_count, true, false)
    else (asked_form, reminder_count, contact_received, waiting_for_contact).

Definition get_contact_state (chat_history : list ChatMessage) : contact_state :=
  fold_left contact_step chat_history (false, O, false, false).

(** The three tests of the loop, on one message. *)
Definition asks_form (message : ChatMessage) : bool :=
  (String.eqb (role message) "assistant"
   && (meta_asked_form message || has_form_block (content message)))%bool.

Definition reminds_contact (message : ChatMessage) : bool :=
  (String.eqb (role message) "assistant"
   && (meta_reminded_contact message
       || is_contact_request_line (content message) false))%bool.

Definition gives_contact (message : ChatMessage) : bool :=
  (String.eqb (role message) "user"
   && detect_contact_info (content message))%bool.

End Contact.

(** ** Merging the resolver result into a decision *)

Module Merge.
Import Intent Resolver.

Definition fill_entity (constraints : pydict) (entities : pydict) (key : string)
  : pydict :=
  if (py_truthy (py_get constraints key)
      && negb (py_truthy (py_get entities key)))%bool
  then dict_set key (py_get constraints key) entities
  else entities.

(** [merge_decision_with_resolved(decision, resolved)] for the dict the
    resolver returns, which is never empty. *)
Definition merge_decision_with_resolved (decision : IntentDecision)
  (resolved : Resolved) : IntentDecision :=
  let entities := entities decision in
  let entities :=
    if (nonempty (anchor_sku resolved)
        && negb (py_truthy (py_get entities "skus")))%bool
    then dict_set "skus" (PList [PStr (anchor_sku resolved)]) entities
    else entities in
  let entities :=
    if (nonempty (product_group resolved)
        && negb (py_truthy (py_get entities "product_group")))%bool
    then dict_set "product_group" (PStr (product_group resolved)) entities
    else entities in
  let entities :=
    if (py_truthy (line_amp resolved)
        && negb (py_truthy (py_get entities "amp")))%bool
    then dict_set "amp" (line_amp resolved) entities
    else entities in
  let entities :=
    match is_robot resolved with
    | Some true =>
        dict_set "is_hand" (PBool false) (dict_set "is_robot" (PBool true) entities)
    | Some false =>
        dict_set "is_hand" (PBool true) (dict_set "is_robot" (PBool false) entities)
    | None => entities
    end in
  let entities :=
    if negb (Str.is_empty_list (required_parts resolved))
    then dict_set "required_categories"
                  (PList (map PStr (required_parts resolved))) entities
    else entities in
  let entities :=
    if expand_bundle resolved
    then dict_set "expand_bundle" (PBool true) entities else entities in
  let entities :=
    if (negb (dict_has "bundle_hint" entities)
        && (negb (Str.is_empty_list (required_parts resolved))
            || bundle_hint resolved))%bool
    then dict_set "bundle_hint" (PBool true) entities else entities in
  let entities :=
    fold_left (fill_entity (constraints resolved))
              ["size"; "length"; "thread"; "material"; "system"] entities in
  let missing :=
    if (nonempty (anchor_sku resolved) && Str.mem "sku" (missing decision))%bool
    then filter (fun item => negb (String.eqb item "sku")) (missing decision)
    else missing decision in
  mkDecision (intent decision) (buy_intent decision) (info_only decision)
             (topic decision) entities missing (next_action decision)
             (commercial_action decision).

End Merge.

(** ** Catalog lookups by code *)

Module Catalog.
Import Slots Guard.

Fixpoint find_item_loop (items : list ResourceItem)
  (selected_norm selected_digits : string) : option ResourceItem :=
  match items with
  | [] => None
  | item :: items' =>
      if Str.is_empty (code item)
      then find_item_loop items' selected_norm selected_digits
      else if String.eqb (normalize_text (code item)) selected_norm
      then Some item
      else if (negb (Str.is_empty selected_digits)
               && String.eqb (extract_digits (code item)) selected_digits)%bool
      then Some item
      else find_item_loop items' selected_norm selected_digits
  end.

Definition find_item_by_selected_sku (items : list ResourceItem)
  (selected_sku : string) : option ResourceItem :=
  if (Str.is_empty_list items || Str.is_empty selected_sku)%bool then None
  else find_item_loop items (normalize_text selected_sku)
                      (extract_digits selected_sku).

(** [match_items_by_codes(items, codes)]; the two sets are used for
    membership only. *)
Definition match_items_by_codes (items : list ResourceItem) (codes : list string)
  : list ResourceItem :=
  if (Str.is_empty_list items || Str.is_empty_list codes)%bool then []
  else
    let code_set :=
      map normalize_text (filter (fun c => negb (Str.is_empty c)) codes) in
    let digit_set :=
      map extract_digits
          (filter (fun c => negb (Str.is_empty (extract_digits c))) codes) in
    filter
      (fun item =>
         (Str.mem (normalize_text (code item)) code_set
          || (negb (Str.is_empty (extract_digits (code item)))
              && Str.mem (extract_digits (code item)) digit_set))%bool)
      items.

Definition format_sku_display (code : string) : string :=
  if Str.is_empty code then ""
  else
    let digits := extract_digits code in
    if negb (Str.is_empty digits) then "Tokin " ++ digits else Str.strip code.

(** [format_tokin(code)] for a string; [code or ""] is then [code]. *)
Definition format_tokin (code : string) : string :=
  let digits := extract_digits code in
  if negb (Str.is_empty digits) then "Tokin " ++ digits else Str.strip code.

End Catalog.

(** ** Declarative reading of the patterns *)

Module ReSpec.
Import Re.

(** [derives r st cs st' cs']: the pattern [r] matches the text between the
    states [st] and [st'], turning the captures [cs] into [cs']. *)
Inductive derives : re -> state -> caps -> state -> caps -> Prop :=
| D_eps : forall st cs, derives Eps st cs st cs
| D_chr : forall p st cs c s',
    rest st = String c s' -> p c = true ->
    derives (Chr p) st cs (mkState (S (pos st)) (Some c) s') cs
| D_seq : forall a b st1 cs1 st2 cs2 st3 cs3,
    derives a st1 cs1 st2 cs2 -> derives b st2 cs2 st3 cs3 ->
    derives (Seq a b) st1 cs1 st3 cs3
| D_alt_l : forall a b st cs st' cs',
    derives a st cs st' cs' -> derives (Alt a b) st cs st' cs'
| D_alt_r : forall a b st cs st' cs',
    derives b st cs st' cs' -> derives (Alt a b) st cs st' cs'
| D_star_nil : forall a st cs, derives (Star a) st cs st cs
| D_star_cons : forall a st1 cs1 st2 cs2 st3 cs3,
    derives a st1 cs1 st2 cs2 -> derives (Star a) st2 cs2 st3 cs3 ->
    derives (Star a) st1 cs1 st3 cs3
| D_grp : forall n a st cs st' cs',
    derives a st cs st' cs' ->
    derives (Grp n a) st cs st' ((n, (pos st, pos st')) :: cs')
| D_wb : forall st cs, at_boundary st = true -> derives Wb st cs st cs.

(** A pattern without capturing groups. *)
Fixpoint groupless (r : re) : bool :=
  match r with
  | Eps | Chr _ | Wb => true
  | Seq a b | Alt a b => (groupless a && groupless b)%bool
  | Star a => groupless a
  | Grp _ _ => false
  end.

(** The pattern with its groups made non-capturing. *)
Fixpoint erase (r : re) : re :=
  match r with
  | Eps => Eps
  | Chr p => Chr p
  | Wb => Wb
  | Seq a b => Seq (erase a) (erase b)
  | Alt a b => Alt (erase a) (erase b)
  | Star a => Star (erase a)
  | Grp _ a => erase a
  end.

(** The state [st] lies at offset [pos st] of the subject. *)
Definition at_pos (subj : string) (st : state) : Prop :=
  exists pre, subj = pre ++ rest st /\ String.length pre = pos st.

(** [span p s]: the longest prefix of [s] made of [p] characters, and what
    follows it. *)
Fixpoint span (p : ascii -> bool) (s : string) : string * string :=
  match s with
  | EmptyString => (EmptyString, EmptyString)
  | String c s' =>
      if p c then (String c (fst (span p s')), snd (span p s'))
      else (EmptyString, s)
  end.

(** Each maximal run of [p] characters replaced by [repl]. *)
Fixpoint collapse (p : ascii -> bool) (repl : string) (s : string) : string :=
  match s with
  | EmptyString => EmptyString
  | String c s' =>
      if p c
      then match s' with
           | String c' _ => if p c' then collapse p repl s'
                            else repl ++ collapse p repl s'
           | EmptyString => repl
           end
      else String c (collapse p repl s')
  end.

End ReSpec.

(** ** The value of a quantity-only message *)

Module PureQuantity.
Import Re Patterns Slots Dialogue.

(** [(\d{1,6})\s*(cai|chiec|con|bo|cap)] *)
Definition QTY_UNIT_VALUE_RE : re :=
  seqs [Grp 1 (rep 1 6 digit); Star space; Grp 2 unit_words].

(** [mot(\s+(cai|chiec|con|bo|cap))?] *)
Definition MOT_VALUE_RE : re :=
  Seq (lit "mot") (opt (Grp 1 (Seq (plus space) (Grp 2 unit_words)))).

Definition parse_pure_quantity_value (message : string) : result (option Z) :=
  let normalized := normalize_text message in
  if Str.is_empty normalized then Ok None
  else if fullmatches PURE_DIGITS_RE normalized
  then v <- Str.py_int normalized ;; Ok (Some v)
  else
    match fullmatch QTY_UNIT_VALUE_RE normalized with
    | Some m => v <- Str.py_int (group m 1) ;; Ok (Some v)
    | None =>
        if fullmatches MOT_VALUE_RE normalized then Ok (Some 1%Z) else Ok None
    end.

End PureQuantity.

(** ** Decimal numerals *)

Module NumeralSpec.


End NumeralSpec.

(** ** The alphabet of normalised text *)

Module TextSpec.

(** [[a-z0-9\-_/. ]] *)
Definition normal_char (c : ascii) : bool :=
  (Str.is_lower c || Str.is_digit c || Ascii.eqb c "-" || Ascii.eqb c "_"
   || Ascii.eqb c "/" || Ascii.eqb c "." || Ascii.eqb c " ")%bool.

(** Whether the text starts with white space. *)
Definition hd_space (s : string) : bool :=
  match s with String c _ => Str.is_space c | EmptyString => false end.

End TextSpec.

(** * Theorems *)

Module ShortMemoryFacts.
Import ShortMemory.

(** The setdefault chain leaves the default structure unchanged. *)
Lemma setdefaults_default :
  (mem <- py_setdefault default_short_memory "last_anchor" default_last_anchor ;;
   mem <- py_setdefault mem "last_results" (PList []) ;;
   mem <- py_setdefault mem "pending_request" default_pending_request ;;
   mem <- py_setdefault mem "pending_action" default_pending_action ;;
   mem <- py_setdefault mem "last_user_constraints" (PDict []) ;;
   mem <- py_setdefault mem "last_commercial_context" default_commercial_context ;;
   Ok mem) = Ok default_short_memory.
Proof. reflexivity. Qed.

(** A number converts to a double, unless it is an int beyond the doubles. *)
Lemma to_float_cases (ts : pyval) :
  isinstance_number ts = true ->
  (exists f, to_float ts = Ok f) \/
  (to_float ts = Raise OverflowError /\
   exists z, ts = PInt z /\ Float64.is_infinite (Float64.of_Z z) = true).
Proof.
  destruct ts as [|b|z|q| | |]; cbn [isinstance_number]; try discriminate;
    intros _; unfold to_float.
  - left. eexists. reflexivity.
  - destruct (Float64.is_infinite (Float64.of_Z z)) eqn:E.
    + right. split; [reflexivity|]. exists z. auto.
    + left. eexists. reflexivity.
  - left. eexists. reflexivity.
Qed.

Lemma to_float_ok_number (ts : pyval) (f : Float64.float64) :
  to_float ts = Ok f -> isinstance_number ts = true.
Proof. destruct ts; cbn [to_float]; try discriminate; reflexivity. Qed.

(** What [normalize_short_memory] does once the timestamp is converted. *)
Lemma normalize_short_memory_converted (os : pydict) (now : Q)
  (f : Float64.float64) :
  to_float (py_get os "short_memory_ts") = Ok f ->
  normalize_short_memory os now
  = (let mem := if negb (isinstance_dict (py_get os "short_memory"))
                then default_short_memory else py_get os "short_memory" in
     let mem := if float_gt (Float64.sub (Float64.of_Q now) f)
                            SHORT_MEMORY_TTL_SEC
                then default_short_memory else mem in
     mem <- py_setdefault mem "last_anchor" default_last_anchor ;;
     mem <- py_setdefault mem "last_results" (PList []) ;;
     mem <- py_setdefault mem "pending_request" default_pending_request ;;
     mem <- py_setdefault mem "pending_action" default_pending_action ;;
     mem <- py_setdefault mem "last_user_constraints" (PDict []) ;;
     mem <- py_setdefault mem "last_commercial_context"
                          default_commercial_context ;;
     Ok mem).
Proof.
  intros Hf. unfold normalize_short_memory, float_sub.
  rewrite (to_float_ok_number _ _ Hf), Hf. reflexivity.
Qed.

Lemma normalize_short_memory_overflow (os : pydict) (now : Q) :
  isinstance_number (py_get os "short_memory_ts") = true ->
  to_float (py_get os "short_memory_ts") = Raise OverflowError ->
  normalize_short_memory os now = Raise OverflowError.
Proof.
  intros Hn Hf. unfold normalize_short_memory, float_sub.
  rewrite Hn, Hf. reflexivity.
Qed.

Lemma normalize_short_memory_not_number (os : pydict) (now : Q) :
  isinstance_number (py_get os "short_memory_ts") = false ->
  normalize_short_memory os now = Ok default_short_memory.
Proof.
  intros Hn. unfold normalize_short_memory. rewrite Hn.
  cbn [negb orM bind]. apply setdefaults_default.
Qed.


(** The same claim fails by rounding too: the doubles 900.1 and 0.1 lie more
    than 900 apart, their float difference is 900.0, and the memory is
    kept. *)
Lemma rounded_difference_keeps_memory :
  (inject_Z SHORT_MEMORY_TTL_SEC
   < (7917363329289421 # 8796093022208)
     - (3602879701896397 # 36028797018963968))%Q /\
  normalize_short_memory
    [("short_memory", PDict [("last_results", PList [PStr "004002"])]);
     ("short_memory_ts", PFloat (3602879701896397 # 36028797018963968))]
    (7917363329289421 # 8796093022208)
  <> Ok default_short_memory.
Proof. split; [vm_compute; reflexivity|vm_compute; discriminate]. Qed.




(** A dict memory with a live timestamp is returned as stored: an entry of
    the wrong type is not replaced. *)
Lemma type_invalid_entry_is_kept :
  normalize_short_memory
    [("short_memory", PDict [("last_anchor", PStr "oops")]);
     ("short_memory_ts", PFloat 1990)] 2000
  = Ok (PDict [("last_anchor", PStr "oops"); ("last_results", PList []);
               ("pending_request", default_pending_request);
               ("pending_action", default_pending_action);
               ("last_user_constraints", PDict []);
               ("last_commercial_context", default_commercial_context)]).
Proof. vm_compute. reflexivity. Qed.



End ShortMemoryFacts.

(** ** Association-list dictionaries *)

Module DictFacts.

Lemma dict_get_set (k k' : string) (v : pyval) (d : pydict) :
  dict_get k (dict_set k' v d) = if String.eqb k k' then Some v else dict_get k d.
Proof.
  induction d as [|[k0 v0] d IH]; simpl.
  - destruct (String.eqb k k'); reflexivity.
  - destruct (String.eqb k' k0) eqn:E0; simpl.
    + apply String.eqb_eq in E0. subst k0.
      destruct (String.eqb k k'); reflexivity.
    + rewrite IH. destruct (String.eqb k k') eqn:E1; [|reflexivity].
      apply String.eqb_eq in E1. subst k'. rewrite E0. reflexivity.
Qed.

Lemma dict_get_set_same (k : string) (v : pyval) (d : pydict) :
  dict_get k (dict_set k v d) = Some v.
Proof. rewrite dict_get_set, String.eqb_refl. reflexivity. Qed.

Lemma dict_get_set_other (k k' : string) (v : pyval) (d : pydict) :
  k <> k' -> dict_get k (dict_set k' v d) = dict_get k d.
Proof.
  intros H. rewrite dict_get_set.
  destruct (String.eqb k k') eqn:E; [|reflexivity].
  apply String.eqb_eq in E. contradiction.
Qed.

Lemma dict_get_setdefault_other (k k' : string) (v : pyval) (d : pydict) :
  k <> k' -> dict_get k (dict_setdefault k' v d) = dict_get k d.
Proof.
  intros H. unfold dict_setdefault.
  destruct (dict_has k' d); [reflexivity|]. apply dict_get_set_other, H.
Qed.

Lemma mem_In (s : string) (l : list string) : Str.mem s l = true <-> In s l.
Proof.
  unfold Str.mem. rewrite existsb_exists. split.
  - intros [x [Hin Heq]]. apply String.eqb_eq in Heq. subst. exact Hin.
  - intros Hin. exists s. split; [exact Hin|apply String.eqb_refl].
Qed.

Lemma mem_not_In (s : string) (l : list string) : Str.mem s l = false <-> ~ In s l.
Proof.
  rewrite <- mem_In. destruct (Str.mem s l); split; intros H.
  - discriminate H.
  - exfalso. apply H. reflexivity.
  - intros H'. discriminate H'.
  - reflexivity.
Qed.

End DictFacts.

(** ** The hard intent rules *)

Module IntentFacts.
Import Intent DictFacts.

Lemma allowed_cases (a : string) :
  In (if Str.mem a allowed_actions then a else "ANSWER_ONLY") allowed_actions.
Proof.
  destruct (Str.mem a allowed_actions) eqn:E.
  - apply mem_In, E.
  - simpl. auto.
Qed.

Ltac split_ifs :=
  repeat match goal with
         | |- context [if ?b then _ else _] => destruct b eqn:?
         end.

Lemma next_action_allowed (d : IntentDecision) (n : string) :
  In (next_action (apply_intent_rules d n)) allowed_actions.
Proof.
  unfold apply_intent_rules. cbn [next_action].
  pose proof (allowed_cases (next_action d)) as Hkeep.
  destruct (Str.mem (next_action d) allowed_actions);
    split_ifs; first [exact Hkeep | simpl; tauto].
Qed.

Lemma not_in_listing_like (i : string) :
  ~ In i listing_like ->
  Str.mem i ["LIST"; "LIST_REQUEST"] = false /\
  Str.mem i ["ACCESSORY_LOOKUP"; "ACCESSORY_BUNDLE_LOOKUP"] = false /\
  String.eqb i "SLOT_FILL_AMP" = false /\
  String.eqb i "QUANTITY_FOLLOWUP" = false /\
  String.eqb i "PRODUCT_AVAILABILITY" = false.
Proof.
  intros H. repeat split.
  - apply mem_not_In. intros Hin. apply H. simpl in *. tauto.
  - apply mem_not_In. intros Hin. apply H. simpl in *. tauto.
  - destruct (String.eqb i "SLOT_FILL_AMP") eqn:E; [|reflexivity].
    apply String.eqb_eq in E. exfalso. apply H. subst. simpl. tauto.
  - destruct (String.eqb i "QUANTITY_FOLLOWUP") eqn:E; [|reflexivity].
    apply String.eqb_eq in E. exfalso. apply H. subst. simpl. tauto.
  - destruct (String.eqb i "PRODUCT_AVAILABILITY") eqn:E; [|reflexivity].
    apply String.eqb_eq in E. exfalso. apply H. subst. simpl. tauto.
Qed.

(** C3, as stated, fails: a listing request with buy intent and a missing SKU
    is answered with ANSWER_ONLY, not with ASK_FOR_SKU_OR_GROUP. *)
Lemma buy_intent_missing_sku_not_always_ask :
  ~ (forall (d : IntentDecision) (n : string),
        buy_intent d = true -> In "sku" (missing d) ->
        next_action (apply_intent_rules d n) = "ASK_FOR_SKU_OR_GROUP").
Proof.
  intros H.
  specialize (H (mkDecision "LIST" true false "product" [] ["sku"]
                            "ASK_FOR_SKU_OR_GROUP" [])
                "liet ke bec han toi muon mua").
  cbv in H. specialize (H eq_refl (or_introl eq_refl)). discriminate H.
Qed.

Lemma rule_overrides_proposal (d : IntentDecision) (n a : string) :
  hard_rule_applies d = true ->
  next_action (apply_intent_rules (with_next_action d a) n)
  = next_action (apply_intent_rules d n).
Proof.
  unfold hard_rule_applies, effective_info_only, apply_intent_rules,
    with_next_action.
  cbn [next_action intent buy_intent info_only topic missing commercial_action].
  intros H.
  split_ifs; try reflexivity;
    exfalso; cbn [orb] in H; discriminate H.
Qed.

Lemma no_rule_keeps_proposal (d : IntentDecision) (n : string) :
  hard_rule_applies d = false ->
  next_action (apply_intent_rules d n)
  = if Str.mem (next_action d) allowed_actions
    then next_action d else "ANSWER_ONLY".
Proof.
  unfold hard_rule_applies, effective_info_only, apply_intent_rules.
  cbn [next_action].
  intros H.
  repeat match goal with
         | |- (if ?b then _ else _) = _ =>
             destruct b eqn:?;
             [exfalso; cbn [orb] in H;
              rewrite ?Bool.orb_true_r in H; discriminate H|]
         end.
  reflexivity.
Qed.

(** C3, amended: the next action of every decision that leaves the hard-rule
    pass is one of the five enumerated actions.  When one of the hard rules
    applies the result does not depend on the generator's proposal; when none
    applies the proposal is kept if it is one of the five actions and replaced
    by ANSWER_ONLY otherwise.  A decision with buy intent and a missing SKU
    ends with ASK_FOR_SKU_OR_GROUP, whatever the generator proposed, provided
    the pass leaves it not info-only and its intent is none of LIST,
    LIST_REQUEST, ACCESSORY_LOOKUP, ACCESSORY_BUNDLE_LOOKUP, SLOT_FILL_AMP,
    QUANTITY_FOLLOWUP and PRODUCT_AVAILABILITY. *)
Theorem apply_intent_rules_next_action :
  forall (d : IntentDecision) (n : string),
    In (next_action (apply_intent_rules d n)) allowed_actions /\
    (hard_rule_applies d = true ->
     forall a, next_action (apply_intent_rules (with_next_action d a) n)
               = next_action (apply_intent_rules d n)) /\
    (hard_rule_applies d = false ->
     next_action (apply_intent_rules d n)
     = if Str.mem (next_action d) allowed_actions
       then next_action d else "ANSWER_ONLY") /\
    (buy_intent d = true ->
     In "sku" (missing d) ->
     info_only (apply_intent_rules d n) = false ->
     ~ In (intent d) listing_like ->
     next_action (apply_intent_rules d n) = "ASK_FOR_SKU_OR_GROUP").
Proof.
  intros d n. split; [apply next_action_allowed|].
  split; [intros H a; apply rule_overrides_proposal, H|].
  split; [apply no_rule_keeps_proposal|].
  intros Hbuy Hsku Hinfo Hint.
  destruct (not_in_listing_like _ Hint) as (H1 & H2 & H3 & H4 & H5).
  apply mem_In in Hsku.
  unfold apply_intent_rules in *. cbn [next_action info_only] in *.
  rewrite Hinfo, H1, H2, H3, H4, H5, Hbuy, Hsku. cbn [negb andb].
  rewrite Bool.andb_false_r. reflexivity.
Qed.

Lemma apply_intent_rules_next_action_witness :
  next_action
    (apply_intent_rules
       (mkDecision "OTHER" true false "product" [] ["sku"; "contact"]
                   "REQUEST_CONTACT_FORM" [("collect_contact", PBool true)])
       "toi muon mua")
  = "ASK_FOR_SKU_OR_GROUP".
Proof.
  apply (proj2 (proj2 (proj2 (apply_intent_rules_next_action _ _)))).
  - reflexivity.
  - simpl. tauto.
  - reflexivity.
  - simpl. intros H.
    repeat (destruct H as [H | H]; [discriminate H|]). exact H.
Defined.

End IntentFacts.

(** ** The constraint merge of the memory updater *)

Module UpdaterFacts.
Import Re Patterns Slots Updater DictFacts.

Lemma merge_key_get (ents : pydict) (msg : string) (d : pydict) (key k : string) :
  dict_get k (merge_key ents msg d key)
  = if (String.eqb k key && overlays ents msg key)%bool
    then Some (py_get ents key) else dict_get k d.
Proof.
  unfold merge_key, overlays.
  destruct (is_none (py_get ents key)); cbn [negb andb].
  - rewrite Bool.andb_false_r. reflexivity.
  - destruct (String.eqb key "amp" && negb (found AMP_ANY_RE (normalize_text msg)))%bool;
      cbn [negb].
    + rewrite Bool.andb_false_r. reflexivity.
    + rewrite Bool.andb_true_r. apply dict_get_set.
Qed.

Lemma merge_fold_get (ents : pydict) (msg : string) (keys : list string) :
  forall (d : pydict) (k : string),
    dict_get k (fold_left (merge_key ents msg) keys d)
    = if (Str.mem k keys && overlays ents msg k)%bool
      then Some (py_get ents k) else dict_get k d.
Proof.
  induction keys as [|key keys IH]; intros d k.
  - reflexivity.
  - cbn [fold_left]. rewrite IH, merge_key_get.
    unfold Str.mem. cbn [existsb]. fold (Str.mem k keys).
    destruct (String.eqb k key) eqn:E.
    + apply String.eqb_eq in E. subst key.
      destruct (overlays ents msg k); cbn [andb orb];
        [destruct (Str.mem k keys)|rewrite Bool.andb_false_r]; reflexivity.
    + cbn [andb orb]. reflexivity.
Qed.

(** C9: the constraints written back are the stored ones overlaid with the
    turn's non-null amp, size, length, thread, material and system, the turn
    winning; the amp is overlaid only when the normalized message shows the
    amp pattern, and is otherwise left as stored.  Other keys are untouched. *)
Theorem last_user_constraints_merge :
  forall (stored intent_entities : pydict) (user_message key : string),
    let merged := update_last_user_constraints stored intent_entities user_message in
    let amp_in_text := found AMP_ANY_RE (normalize_text user_message) in
    (In key ["size"; "length"; "thread"; "material"; "system"] ->
     py_get intent_entities key <> PNone ->
     dict_get key merged = Some (py_get intent_entities key)) /\
    (py_get intent_entities "amp" <> PNone -> amp_in_text = true ->
     dict_get "amp" merged = Some (py_get intent_entities "amp")) /\
    (amp_in_text = false -> dict_get "amp" merged = dict_get "amp" stored) /\
    (py_get intent_entities key = PNone ->
     dict_get key merged = dict_get key stored) /\
    (~ In key CONSTRAINT_KEYS -> dict_get key merged = dict_get key stored).
Proof.
  intros stored ents msg key merged amp_in_text.
  subst merged. unfold update_last_user_constraints.
  assert (Hnone : forall v, v <> PNone -> is_none v = false).
  { intros v Hv. destruct v; try reflexivity. contradiction. }
  repeat split.
  - intros Hin Hval. rewrite merge_fold_get.
    assert (Hmem : Str.mem key CONSTRAINT_KEYS = true).
    { apply mem_In. simpl in *. tauto. }
    assert (Hamp : String.eqb key "amp" = false).
    { simpl in Hin.
      repeat (destruct Hin as [<- | Hin]; [reflexivity|]). contradiction. }
    unfold overlays. rewrite Hmem, (Hnone _ Hval), Hamp. reflexivity.
  - intros Hval Htext. rewrite merge_fold_get.
    unfold overlays. fold amp_in_text. rewrite (Hnone _ Hval), Htext. reflexivity.
  - intros Htext. rewrite merge_fold_get.
    unfold overlays. fold amp_in_text. rewrite Htext. cbn [String.eqb].
    rewrite !Bool.andb_false_r. reflexivity.
  - intros Hval. rewrite merge_fold_get.
    unfold overlays. rewrite Hval. cbn [is_none negb andb].
    rewrite Bool.andb_false_r. reflexivity.
  - intros Hout. rewrite merge_fold_get.
    apply mem_not_In in Hout. rewrite Hout. reflexivity.
Qed.

Lemma last_user_constraints_merge_witness :
  dict_get "amp"
    (update_last_user_constraints
       [("amp", PStr "350A"); ("size", PFloat 0.8)]
       [("amp", PStr "500A"); ("size", PFloat 1.2)]
       "bec 1.2")
  = Some (PStr "350A")
  /\ dict_get "size"
       (update_last_user_constraints
          [("amp", PStr "350A"); ("size", PFloat 0.8)]
          [("amp", PStr "500A"); ("size", PFloat 1.2)]
          "bec 1.2")
     = Some (PFloat 1.2).
Proof.
  pose proof (last_user_constraints_merge
                [("amp", PStr "350A"); ("size", PFloat 0.8)]
                [("amp", PStr "500A"); ("size", PFloat 1.2)]
                "bec 1.2" "size") as H.
  cbv zeta in H. destruct H as (Hkey & _ & Hamp & _).
  split.
  - apply Hamp. vm_compute. reflexivity.
  - apply Hkey.
    + simpl. tauto.
    + vm_compute. discriminate.
Defined.

End UpdaterFacts.

(** ** Slot extraction never raises *)

Module SlotFacts.
Import Re Patterns Slots Dialogue.

Lemma returns_value {A : Type} (d : A) (r : result A) :
  returns r -> r = Ok (result_value d r).
Proof. intros [a ->]. reflexivity. Qed.

Lemma py_int_raises_only_ValueError (s : string) :
  returns (Str.py_int s) \/ Str.py_int s = Raise ValueError.
Proof.
  unfold Str.py_int, returns.
  destruct (match Str.strip s with
            | String "-"%char r => (true, r)
            | String "+"%char r => (false, r)
            | _ => (false, Str.strip s)
            end) as [neg ds].
  destruct (Str.digits_value ds 0 false); [|right; reflexivity].
  destruct (Nat.ltb _ _); [right|left; eexists]; reflexivity.
Qed.

Lemma py_float_raises_only_ValueError (s : string) :
  returns (Str.py_float s) \/ Str.py_float s = Raise ValueError.
Proof.
  unfold Str.py_float, returns.
  destruct (Str.split_dot (Str.strip s) "") as [ip [fp|]].
  - destruct (Str.isdigit ip && Str.isdigit fp)%bool; [|right; reflexivity].
    destruct (Str.frac_value (ip ++ fp) 0 1) as [[n d]|]; [|right; reflexivity].
    destruct (Str.frac_value fp 0 1) as [[n' d']|];
      [left; eexists|right]; reflexivity.
  - destruct (Str.isdigit ip); [|right; reflexivity].
    destruct (Str.frac_value ip 0 1) as [[n d]|];
      [left; eexists|right]; reflexivity.
Qed.

(** [try: f(int(g)) except ValueError: fallback] always returns. *)
Lemma guarded_int_returns {A : Type} (g : string) (f : Z -> A) (fallback : A) :
  returns (try_except (v <- Str.py_int g ;; Ok (f v)) ValueError (Ok fallback)).
Proof.
  destruct (py_int_raises_only_ValueError g) as [[z ->] | ->];
    eexists; reflexivity.
Qed.

Lemma guarded_float_returns {A : Type} (g : string) (f : Q -> A) (fallback : A) :
  returns (try_except (v <- Str.py_float g ;; Ok (f v)) ValueError (Ok fallback)).
Proof.
  destruct (py_float_raises_only_ValueError g) as [[z ->] | ->];
    eexists; reflexivity.
Qed.

Lemma extract_quantity_returns (normalized : string) :
  returns (extract_quantity normalized).
Proof.
  unfold extract_quantity.
  destruct (search SO_LUONG_RE normalized); [apply guarded_int_returns|].
  destruct (search QUANTITY_RE normalized); [apply guarded_int_returns|].
  eexists; reflexivity.
Qed.

(** The quantity as a value, for callers. *)
Lemma extract_quantity_value (normalized : string) :
  extract_quantity normalized
  = Ok (result_value None (extract_quantity normalized)).
Proof. apply returns_value, extract_quantity_returns. Qed.

Lemma extract_quantity_absent (normalized : string) :
  search SO_LUONG_RE normalized = None ->
  search QUANTITY_RE normalized = None ->
  extract_quantity normalized = Ok None.
Proof. intros H1 H2. unfold extract_quantity. rewrite H1, H2. reflexivity. Qed.

Lemma extract_lookup_constraints_returns (message : string) :
  exists group_ amp size len,
    extract_lookup_constraints message
    = Ok [("product_group", group_); ("amp", PStr amp);
          ("size", size); ("length", len)].
Proof.
  unfold extract_lookup_constraints.
  destruct (search TIP_SIZE_LEN_RE (normalize_text message)) as [m|].
  - destruct (guarded_float_returns (group m 1) PFloat PNone) as [size ->].
    destruct (guarded_int_returns (group m 2) PInt PNone) as [len ->].
    cbn [bind fst snd]. do 4 eexists. reflexivity.
  - destruct (search SIZE_RE (normalize_text message)) as [m|].
    + destruct (guarded_float_returns (group m 1) PFloat PNone) as [size ->].
      cbn [bind fst snd]. do 4 eexists. reflexivity.
    + cbn [bind fst snd]. do 4 eexists. reflexivity.
Qed.

Lemma parse_user_input_returns (message : string) :
  returns (parse_user_input message).
Proof.
  unfold parse_user_input.
  destruct (extract_codes message) as [codes primary_code].
  rewrite extract_quantity_value. cbn [bind].
  destruct (extract_requested_parts message) as [required_parts expand_bundle].
  destruct (extract_lookup_constraints_returns message)
    as (g & a & sz & ln & ->).
  cbn [bind]. eexists. reflexivity.
Qed.

(** C8: slot extraction is total.  For every input string [parse_user_input],
    [extract_quantity] and [extract_lookup_constraints] return a value
    and raise nothing; a message without any pattern yields the empty slots:
    no codes, no quantity, no amp, no group, no parts, and [None] for size and
    length. *)
Theorem slot_extraction_total :
  forall message : string,
    returns (parse_user_input message) /\
    returns (extract_quantity message) /\
    returns (extract_lookup_constraints message) /\
    (search SO_LUONG_RE message = None ->
     search QUANTITY_RE message = None ->
     extract_quantity message = Ok None) /\
    parse_user_input ""
    = Ok (mkParsed "" [] [] "" None "" None None [] false false
            [("product_group", PNone); ("amp", PStr "");
             ("size", PNone); ("length", PNone)]).
Proof.
  intros message. repeat split.
  - apply parse_user_input_returns.
  - apply extract_quantity_returns.
  - destruct (extract_lookup_constraints_returns message)
      as (g & a & sz & ln & ->). eexists. reflexivity.
  - apply extract_quantity_absent.
Qed.

Lemma slot_extraction_total_witness :
  extract_quantity "bec han 350a" = Ok None.
Proof.
  apply (proj1 (proj2 (proj2 (proj2 (slot_extraction_total "bec han 350a"))))).
  - vm_compute. reflexivity.
  - vm_compute. reflexivity.
Defined.

Lemma is_amp_only_message_returns (message : string) :
  returns (is_amp_only_message message).
Proof.
  unfold is_amp_only_message.
  destruct (negb (found AMP_ANY_RE (normalize_text message)));
    [eexists; reflexivity|].
  rewrite extract_quantity_value. cbn [bind].
  repeat match goal with
         | |- returns (if ?b then _ else _) => destruct b
         end; eexists; reflexivity.
Qed.

Lemma is_quantity_followup_message_returns (message : string) :
  returns (is_quantity_followup_message message).
Proof.
  unfold is_quantity_followup_message.
  rewrite extract_quantity_value. cbn [bind].
  repeat match goal with
         | |- returns (if ?b then _ else _) => destruct b
         end; eexists; reflexivity.
Qed.

Lemma quantity_message_returns (message : string) :
  returns (orM (Ok (is_pure_quantity_message message))
               (is_quantity_followup_message message)).
Proof.
  unfold orM. cbn [bind].
  destruct (is_pure_quantity_message message); [eexists; reflexivity|].
  apply is_quantity_followup_message_returns.
Qed.

Lemma short_reply_with_returns (terms : list string) (message : string) :
  returns (short_reply_with terms message).
Proof.
  unfold short_reply_with.
  repeat match goal with
         | |- returns (if ?b then _ else _) =>
             destruct b; [eexists; reflexivity|]
         end.
  rewrite extract_quantity_value. cbn [bind].
  repeat match goal with
         | |- returns (if ?b then _ else _) => destruct b
         end; eexists; reflexivity.
Qed.

Lemma detect_dialogue_act_returns (message : string) :
  returns (detect_dialogue_act message).
Proof.
  unfold detect_dialogue_act.
  destruct (is_amp_only_message_returns message) as [amp ->]. cbn [bind].
  destruct amp; [eexists; reflexivity|].
  destruct (is_type_only_message message); [eexists; reflexivity|].
  destruct (quantity_message_returns message) as [qty ->]. cbn [bind].
  destruct qty; [eexists; reflexivity|].
  unfold is_affirmation_message, is_negative_message.
  destruct (short_reply_with_returns AFFIRM_TERMS message) as [yes ->].
  cbn [bind]. destruct yes; [eexists; reflexivity|].
  destruct (short_reply_with_returns NEGATE_TERMS message) as [no ->].
  cbn [bind]. destruct no; eexists; reflexivity.
Qed.

(** The sibling shape tests do reject a message that names a product group. *)
Lemma siblings_reject_product_group (message : string) :
  detect_product_group (normalize_text message) <> None ->
  is_amp_only_message message = Ok false /\
  is_quantity_followup_message message = Ok false /\
  is_affirmation_message message = Ok false /\
  is_negative_message message = Ok false.
Proof.
  intros Hgroup.
  destruct (detect_product_group (normalize_text message)) as [g|] eqn:Eg;
    [clear Hgroup|contradiction].
  assert (Hshort : forall terms, short_reply_with terms message = Ok false).
  { intros terms. unfold short_reply_with.
    repeat match goal with
           | |- (if ?b then Ok false else _) = _ =>
               destruct b; [reflexivity|]
           end.
    rewrite extract_quantity_value. cbn [bind].
    destruct (is_some (result_value None (extract_quantity (normalize_text message)))
              || found AMP_ANY_RE (normalize_text message))%bool;
      [reflexivity|].
    rewrite Eg. reflexivity. }
  repeat split.
  - unfold is_amp_only_message.
    destruct (negb (found AMP_ANY_RE (normalize_text message))); [reflexivity|].
    rewrite extract_quantity_value. cbn [bind].
    destruct (is_some (result_value None
                         (extract_quantity (normalize_text message))));
      [reflexivity|].
    rewrite Eg. reflexivity.
  - unfold is_quantity_followup_message.
    rewrite extract_quantity_value, Eg. cbn [bind is_some].
    repeat match goal with
           | |- (if ?b then Ok false else _) = _ =>
               destruct b; [reflexivity|]
           end.
    reflexivity.
  - apply Hshort.
  - apply Hshort.
Qed.

(** C5 does not hold of the code: "bec robot" names the group TIP and is
    classified as the slot-fill act SLOT_FILL_TYPE, because
    [is_type_only_message] does not test for a product group; it also accepts
    "robot 350A", for which its docstring promises False. *)
Theorem type_reply_naming_group_is_slot_fill :
  detect_product_group (normalize_text "bec robot") = Some "TIP" /\
  is_type_only_message "bec robot" = true /\
  detect_dialogue_act "bec robot" = Ok SLOT_FILL_TYPE /\
  is_type_only_message "robot 350A" = true.
Proof. vm_compute. repeat split. Qed.

(** The SKUs of the parsed slots: those of the Tokin-prefixed codes, else the
    all-digit codes of the utterance. *)
Lemma parse_user_input_skus (message : string) (parsed : ParsedSlots) :
  parse_user_input message = Ok parsed ->
  p_skus parsed
  = match extract_skus message, filter Str.isdigit (fst (extract_codes message))
    with
    | [], d :: ds => d :: ds
    | skus, _ => skus
    end.
Proof.
  unfold parse_user_input.
  destruct (extract_codes message) as [codes primary_code].
  rewrite extract_quantity_value. cbn [bind].
  destruct (extract_requested_parts message) as [required_parts expand_bundle].
  destruct (extract_lookup_constraints_returns message)
    as (g & a & sz & ln & ->).
  cbn [bind fst]. intros H. injection H as <-. cbn [p_skus].
  destruct (extract_skus message) as [|s0 ss]; [|reflexivity].
  destruct codes as [|c0 cs]; [reflexivity|].
  cbn [Str.is_empty_list negb andb].
  destruct (filter Str.isdigit (c0 :: cs)); reflexivity.
Qed.

End SlotFacts.

(** ** The memory resolver *)

Module ResolverFacts.
Import Re Patterns Slots Dialogue Resolver DictFacts SlotFacts.

Lemma nonempty_true (s : string) : nonempty s = true <-> s <> "".
Proof.
  unfold nonempty. destruct s; simpl; split; intros H; try reflexivity;
    try discriminate; try congruence.
Qed.

Lemma nonempty_false (s : string) : nonempty s = false <-> s = "".
Proof.
  unfold nonempty. destruct s; simpl; split; intros H; try reflexivity;
    try discriminate.
Qed.




Lemma new_intent_signal_spec (message normalized : string) :
  exists b,
    new_intent_signal message normalized = Ok b /\
    (b = true <->
     found CODE_RE message = true \/
     found LISTING_RE normalized = true \/
     found PRICE_RE normalized = true \/
     found RELATED_QUERY_RE normalized = true \/
     detect_product_group normalized <> None \/
     (exists q, extract_quantity normalized = Ok (Some q)) \/
     found AMP_ANY_RE normalized = true \/
     is_availability_query message = true).
Proof.
  unfold new_intent_signal.
  destruct (found CODE_RE message) eqn:E1;
    [exists true; split; [reflexivity|tauto]|].
  destruct (found LISTING_RE normalized) eqn:E2;
    [exists true; split; [reflexivity|tauto]|].
  destruct (found PRICE_RE normalized) eqn:E3;
    [exists true; split; [reflexivity|tauto]|].
  destruct (found RELATED_QUERY_RE normalized) eqn:E4;
    [exists true; split; [reflexivity|tauto]|].
  destruct (detect_product_group normalized) as [g|] eqn:E5.
  { exists true. split; [reflexivity|]. split; [|reflexivity].
    intros _. do 4 right. left. discriminate. }
  cbn [orb is_some].
  destruct (extract_quantity_returns normalized) as [q Hq]. rewrite Hq.
  cbn [bind]. destruct q as [q|]; cbn [is_some].
  { exists true. split; [reflexivity|]. split; [|reflexivity].
    intros _. do 5 right. left. exists q. reflexivity. }
  destruct (found AMP_ANY_RE normalized) eqn:E7;
    [exists true; split; [reflexivity|tauto]|].
  destruct (is_availability_query message) eqn:E8;
    [exists true; split; [reflexivity|tauto]|].
  exists false. split; [reflexivity|]. split; [discriminate|].
  intros [H|[H|[H|[H|[H|[H|[H|H]]]]]]]; try discriminate H.
  - exfalso. apply H. reflexivity.
  - destruct H as [q H]. discriminate H.
Qed.

(** C2, as stated, fails: the D-style code "U4167L" is the only code of the
    utterance, yet the stored anchor is reused and marked as used. *)
Lemma explicit_code_does_not_always_win :
  ~ (forall (message : string) (parsed : ParsedSlots) (memory : Memory)
            (r : Resolved) (code : string),
        parse_user_input message = Ok parsed ->
        hd_error (fst (extract_codes message)) = Some code ->
        resolve_request_with_memory message parsed memory = Ok r ->
        anchor_used r = false /\ anchor_sku r = code).
Proof.
  intros H.
  pose (memory :=
          mkMemory (mkAnchor "004002" "TIP" "350A" None "Bec han")
                   "PRODUCT_LOOKUP" ["004002"] [] None [("amp", PStr "350A")]).
  destruct (parse_user_input "U4167L") as [parsed|] eqn:Hp;
    [|vm_compute in Hp; discriminate Hp].
  destruct (resolve_request_with_memory "U4167L" parsed memory) as [r|] eqn:Hr;
    [|vm_compute in Hp; injection Hp as <-;
      vm_compute in Hr; discriminate Hr].
  specialize (H "U4167L" parsed memory r "U4167L" Hp eq_refl Hr).
  vm_compute in Hp. injection Hp as <-.
  vm_compute in Hr. injection Hr as <-.
  destruct H as [H _]. discriminate H.
Qed.

(** C2, amended: when the parsed slots carry at least one SKU (the digits of
    a Tokin-prefixed code, else the all-digit codes of the utterance), the
    resolver returns the first of them as anchor with [anchor_used] false,
    whatever anchor is stored, unless the turn affirms a pending action that
    stores an anchor of its own. *)
Theorem explicit_sku_is_anchor :
  forall (message : string) (parsed : ParsedSlots) (memory : Memory)
         (sku0 : string) (others : list string),
    p_skus parsed = sku0 :: others ->
    (forall pa, pending_action memory = Some pa ->
                detect_dialogue_act message = Ok AFFIRM ->
                pa_action pa = "" \/ pa_anchor_sku pa = "") ->
    exists r,
      resolve_request_with_memory message parsed memory = Ok r /\
      anchor_used r = false /\ anchor_sku r = sku0.
Proof.
  intros message parsed memory sku0 others Hskus Hpending.
  unfold resolve_request_with_memory. rewrite Hskus. cbn [select_anchor].
  destruct (detect_dialogue_act_returns message) as [act Hact].
  rewrite Hact in *. cbn [bind].
  destruct (quantity_message_returns message) as [qty ->]. cbn [bind].
  destruct (pending_action memory) as [pa|].
  - destruct act.
    1-3, 5: eexists; split; [reflexivity|split; reflexivity].
    + destruct (nonempty (pa_action pa)) eqn:Ea.
      * destruct (Hpending pa eq_refl eq_refl) as [H|H].
        { apply nonempty_false in H. congruence. }
        apply nonempty_false in H. rewrite H.
        eexists. split; [reflexivity|split; reflexivity].
      * eexists. split; [reflexivity|split; reflexivity].
    + destruct (new_intent_signal_spec message
                  (or_str (p_normalized parsed) (normalize_text message)))
        as [b [-> _]].
      cbn [bind]. eexists. split; [reflexivity|split; reflexivity].
  - destruct act; eexists; (split; [reflexivity|split; reflexivity]).
Qed.

Lemma explicit_sku_is_anchor_witness :
  exists r,
    resolve_request_with_memory "ma 004002 gia bao nhieu"
      (result_value (mkParsed "" [] [] "" None "" None None [] false false [])
                    (parse_user_input "ma 004002 gia bao nhieu"))
      (mkMemory (mkAnchor "009999" "NOZZLE" "" None "Chup khi") "LIST"
                ["009999"] []
                (Some (mkPending "ACCESSORY_BUNDLE_LOOKUP" ["TIP_BODY"]
                                 "009999" "NOZZLE" []))
                [])
    = Ok r /\ anchor_used r = false /\ anchor_sku r = "004002".
Proof.
  apply (explicit_sku_is_anchor _ _ _ "004002" []).
  - vm_compute. reflexivity.
  - intros pa _ Hact. vm_compute in Hact. discriminate Hact.
Defined.


(** On AFFIRM the pending anchor replaces the SKU the turn names: "ok 009999"
    names 009999 and is resolved to the pending anchor 004002. *)
Lemma affirm_replaces_turn_anchor :
  exists parsed r,
    parse_user_input "ok 009999" = Ok parsed /\
    p_skus parsed = ["009999"] /\
    detect_dialogue_act "ok 009999" = Ok AFFIRM /\
    resolve_request_with_memory "ok 009999" parsed
      (mkMemory (mkAnchor "004002" "TIP" "350A" None "Bec han") "LIST"
                ["004002"] []
                (Some (mkPending "ACCESSORY_BUNDLE_LOOKUP" ["TIP_BODY"]
                                 "004002" "TIP" [("amp", PStr "350A")]))
                [])
    = Ok r /\
    anchor_sku r = "004002" /\ anchor_used r = true.
Proof. do 2 eexists. vm_compute. repeat split. Qed.



End ResolverFacts.

(** ** The commercial flags of the context guard *)

Module GuardFacts.
Import Re Patterns Slots Dialogue Guard DictFacts SlotFacts.

Lemma digit_not_space (c : ascii) :
  Str.is_digit c = true -> Str.is_space c = false.
Proof.
  unfold Str.is_digit, Str.is_space, Str.in_range. intros H.
  apply Bool.andb_true_iff in H. destruct H as [H1 H2].
  apply N.leb_le in H1. apply N.leb_le in H2.
  apply Bool.orb_false_iff. split; apply Bool.andb_false_iff.
  - right. apply N.leb_gt. lia.
  - right. apply N.leb_gt. lia.
Qed.

Lemma lstrip_digits (s : string) :
  Str.all_chars Str.is_digit s = true -> Str.lstrip s = s.
Proof.
  destruct s as [|c s]; [reflexivity|]. cbn [Str.all_chars Str.lstrip].
  intros H. apply Bool.andb_true_iff in H. destruct H as [H _].
  rewrite (digit_not_space _ H). reflexivity.
Qed.

Lemma append_empty_r (s : string) : s ++ "" = s.
Proof. induction s as [|c s IH]; simpl; [|rewrite IH]; reflexivity. Qed.

Lemma rev_acc_rev_acc (s : string) :
  forall a b, Str.rev_acc (Str.rev_acc s a) b = Str.rev_acc a (s ++ b).
Proof.
  induction s as [|c s IH]; intros a b; [reflexivity|].
  cbn [Str.rev_acc]. rewrite IH. reflexivity.
Qed.

Lemma rev_rev (s : string) : Str.rev (Str.rev s) = s.
Proof. unfold Str.rev. rewrite rev_acc_rev_acc. apply append_empty_r. Qed.

Lemma all_chars_rev_acc (p : ascii -> bool) (s : string) :
  forall a, Str.all_chars p s = true -> Str.all_chars p a = true ->
            Str.all_chars p (Str.rev_acc s a) = true.
Proof.
  induction s as [|c s IH]; intros a Hs Ha; [exact Ha|].
  cbn [Str.all_chars] in Hs. apply Bool.andb_true_iff in Hs.
  destruct Hs as [Hc Hs]. cbn [Str.rev_acc]. apply IH; [exact Hs|].
  cbn [Str.all_chars]. rewrite Hc, Ha. reflexivity.
Qed.

Lemma strip_digits (s : string) :
  Str.all_chars Str.is_digit s = true -> Str.strip s = s.
Proof.
  intros H. unfold Str.strip, Str.rstrip. rewrite (lstrip_digits _ H).
  rewrite lstrip_digits; [apply rev_rev|].
  unfold Str.rev. apply all_chars_rev_acc; [exact H|reflexivity].
Qed.

Lemma digits_value_digits (s : string) :
  Str.all_chars Str.is_digit s = true ->
  forall acc b, s <> "" \/ b = true ->
                exists n, Str.digits_value s acc b = Some n.
Proof.
  induction s as [|c s IH]; intros H acc b Hne.
  - destruct Hne as [Hne | ->]; [contradiction|]. eexists. reflexivity.
  - cbn [Str.all_chars] in H. apply Bool.andb_true_iff in H.
    destruct H as [Hc Hs]. cbn [Str.digits_value]. rewrite Hc.
    apply IH; [exact Hs|]. right. reflexivity.
Qed.

Lemma count_digits_all (s : string) :
  Str.all_chars Str.is_digit s = true -> Str.count_digits s = String.length s.
Proof.
  unfold Str.count_digits. induction s as [|c s IH]; [reflexivity|].
  cbn [Str.all_chars Str.filter_chars]. intros H.
  apply Bool.andb_true_iff in H. destruct H as [Hc Hs]. rewrite Hc.
  cbn [String.length]. rewrite (IH Hs). reflexivity.
Qed.

(** [int] of a run of digits: its value, or [ValueError] beyond the limit. *)
Lemma py_int_unsigned (s : string) :
  Str.all_chars Str.is_digit s = true -> s <> "" ->
  exists n,
    Str.digits_value s 0 false = Some n /\
    Str.py_int s = if Nat.ltb Str.MAX_STR_DIGITS (String.length s)
                   then Raise ValueError else Ok n.
Proof.
  intros Hall Hne.
  destruct (digits_value_digits s Hall 0%Z false) as [n Hn]; [left; exact Hne|].
  exists n. split; [exact Hn|].
  unfold Str.py_int. rewrite (strip_digits _ Hall).
  assert (Hsign : match s with
                  | String "-"%char r => (true, r)
                  | String "+"%char r => (false, r)
                  | _ => (false, s)
                  end = (false, s)).
  { destruct s as [|c r]; [reflexivity|].
    cbn [Str.all_chars] in Hall. apply Bool.andb_true_iff in Hall.
    destruct Hall as [Hc _].
    destruct c as [[] [] [] [] [] [] [] []]; try discriminate Hc; reflexivity. }
  rewrite Hsign, Hn, (count_digits_all _ Hall). reflexivity.
Qed.







(** C7, as stated, fails: with BULK_QTY_THRESHOLD=0 the threshold 0 is
    configured and the quantity 5 reaches it, yet contact collection is not
    forced. *)
Lemma zero_threshold_forces_nothing :
  exists c,
    get_bulk_qty_threshold (Some "0") (catalog_items lookup_turn_with_quantity)
    = Ok (Some 0%Z) /\
    quantity_value lookup_turn_with_quantity = PInt 5 /\
    step_context_guard_commercial (Some "0") lookup_turn_with_quantity = Ok c /\
    request_contact c = false /\
    py_get (ent_commercial_action c) "collect_contact" = PNone.
Proof. eexists. vm_compute. repeat split. Qed.

Lemma as_int_isinstance (v : pyval) (q : Z) :
  as_int v = Some q -> isinstance_int v = true.
Proof. destruct v; intros H; try discriminate H; reflexivity. Qed.

(** C7, amended: when the bulk threshold (the BULK_QTY_THRESHOLD override,
    else the least positive catalog value) is not zero and the resolved
    quantity is an integer at or above it, the guard sets
    [commercial_action.collect_contact] and [request_contact] to true. *)
Theorem bulk_quantity_forces_contact :
  forall (env : option string) (context : PipelineContext) (t q : Z),
    get_bulk_qty_threshold env (catalog_items context) = Ok (Some t) ->
    t <> 0%Z ->
    as_int (quantity_value context) = Some q ->
    (t <= q)%Z ->
    exists c,
      step_context_guard_commercial env context = Ok c /\
      request_contact c = true /\
      py_get (ent_commercial_action c) "collect_contact" = PBool true.
Proof.
  intros env context t q Ht Hnz Hq Hle.
  unfold step_context_guard_commercial. rewrite Ht. cbn [bind].
  destruct (quantity_message_returns (user_message context)) as [qty_msg ->].
  cbn [bind].
  destruct (String.eqb (intent_label context) "PRODUCT_LOOKUP");
    destruct (String.eqb (intent_label context) "TYPE_SWITCH");
    destruct (String.eqb (intent_label context) "ACCESSORY_LOOKUP");
    destruct (String.eqb (intent_label context) "ACCESSORY_BUNDLE_LOOKUP");
    (eexists; split; [reflexivity|]);
    cbn [request_contact ent_commercial_action];
    fold (quantity_value context); rewrite Hq;
    rewrite (as_int_isinstance _ _ Hq);
    rewrite (proj2 (Z.eqb_neq t 0) Hnz), (proj2 (Z.leb_le t q) Hle);
    cbn [negb andb]; (split; [reflexivity|]);
    unfold py_get; rewrite dict_get_setdefault_other by discriminate;
    rewrite dict_get_set_same; reflexivity.
Qed.

Lemma bulk_quantity_forces_contact_witness :
  exists c,
    step_context_guard_commercial (Some "100") availability_quantity_turn = Ok c /\
    request_contact c = true /\
    py_get (ent_commercial_action c) "collect_contact" = PBool true.
Proof.
  apply (bulk_quantity_forces_contact _ _ 100%Z 100%Z).
  - vm_compute. reflexivity.
  - discriminate.
  - vm_compute. reflexivity.
  - vm_compute. discriminate.
Defined.

End GuardFacts.

(** ** Short memory: further facts *)

Module ShortMemoryMore.
Import ShortMemory ShortMemoryKeys DictFacts ShortMemoryFacts.

Lemma dict_has_set (k k' : string) (v : pyval) (d : pydict) :
  dict_has k (dict_set k' v d) = (String.eqb k k' || dict_has k d)%bool.
Proof.
  unfold dict_has. rewrite dict_get_set.
  destruct (String.eqb k k'); [reflexivity|]. reflexivity.
Qed.

Lemma dict_get_setdefault (k k' : string) (v : pyval) (d : pydict) :
  dict_get k (dict_setdefault k' v d)
  = match dict_get k d with
    | Some x => Some x
    | None => if String.eqb k k' then Some v else None
    end.
Proof.
  unfold dict_setdefault, dict_has.
  destruct (dict_get k' d) as [x'|] eqn:E'.
  - destruct (dict_get k d) as [x|] eqn:E; [reflexivity|].
    destruct (String.eqb k k') eqn:Ek; [|reflexivity].
    apply String.eqb_eq in Ek. subst k'. congruence.
  - rewrite dict_get_set.
    destruct (String.eqb k k') eqn:Ek.
    + apply String.eqb_eq in Ek. subst k'. rewrite E'. reflexivity.
    + destruct (dict_get k d); reflexivity.
Qed.

Lemma with_defaults_keeps (d : pydict) (k : string) (v : pyval) :
  dict_get k d = Some v -> dict_get k (with_defaults d) = Some v.
Proof.
  intros H. unfold with_defaults.
  repeat rewrite dict_get_setdefault. rewrite H. reflexivity.
Qed.

Lemma with_defaults_has (d : pydict) (k : string) :
  In k REQUIRED_KEYS -> dict_get k (with_defaults d) <> None.
Proof.
  intros Hin. unfold with_defaults. repeat rewrite dict_get_setdefault.
  destruct (dict_get k d); [discriminate|].
  simpl in Hin.
  repeat (destruct Hin as [<- | Hin]; [cbn; discriminate|]).
  contradiction.
Qed.

Lemma normalize_short_memory_shape (order_state : pydict) (now : Q) :
  (exists d,
      normalize_short_memory order_state now = Ok (PDict (with_defaults d)) /\
      (d = match default_short_memory with PDict d0 => d0 | _ => [] end \/
       py_get order_state "short_memory" = PDict d)) \/
  (normalize_short_memory order_state now = Raise OverflowError /\
   exists z,
     py_get order_state "short_memory_ts" = PInt z /\
     Float64.is_infinite (Float64.of_Z z) = true).
Proof.
  assert (Hdef : forall r,
             r = Ok default_short_memory ->
             exists d,
               r = Ok (PDict (with_defaults d)) /\
               (d = match default_short_memory with PDict d0 => d0 | _ => [] end
                \/ py_get order_state "short_memory" = PDict d)).
  { intros r ->.
    exists (match default_short_memory with PDict d0 => d0 | _ => [] end).
    split; [reflexivity|]. left. reflexivity. }
  destruct (isinstance_number (py_get order_state "short_memory_ts")) eqn:En.
  - destruct (to_float_cases _ En) as [[f Hf]|[Hf Hz]].
    + left. rewrite (normalize_short_memory_converted _ _ _ Hf).
      destruct (float_gt _ _); [apply Hdef; reflexivity|].
      destruct (py_get order_state "short_memory") as [| | | | | |d] eqn:E;
        cbn [isinstance_dict negb]; try (apply Hdef; reflexivity).
      exists d. split; [reflexivity|]. right. reflexivity.
    + right. split; [|exact Hz].
      apply normalize_short_memory_overflow; assumption.
  - left. apply Hdef. apply normalize_short_memory_not_number, En.
Qed.

(** X1: [normalize_short_memory] returns a dict that carries last_anchor,
    last_results, pending_request, pending_action, last_user_constraints and
    last_commercial_context, whatever the session stores, with one
    exception: when the stored timestamp is an int beyond the doubles it
    raises OverflowError. *)
Theorem normalize_short_memory_has_required_keys :
  forall (order_state : pydict) (now : Q),
    (exists mem,
        normalize_short_memory order_state now = Ok (PDict mem) /\
        forall k, In k REQUIRED_KEYS -> dict_get k mem <> None) \/
    (normalize_short_memory order_state now = Raise OverflowError /\
     exists z,
       py_get order_state "short_memory_ts" = PInt z /\
       Float64.is_infinite (Float64.of_Z z) = true).
Proof.
  intros os now.
  destruct (normalize_short_memory_shape os now) as [[d [H _]]|H].
  - left. exists (with_defaults d). split; [exact H|].
    intros k Hk. apply with_defaults_has, Hk.
  - right. exact H.
Qed.

(** X2: A stored memory whose timestamp converts to a double and whose float
    age [now - ts] is not greater than SHORT_MEMORY_TTL_SEC is kept: every
    entry it holds is returned unchanged.  The bound is inclusive: at a float
    age of exactly 900 s the memory is still alive. *)
Theorem normalize_short_memory_keeps_fresh :
  forall (order_state : pydict) (now : Q) (stored : pydict)
         (f : Float64.float64),
    py_get order_state "short_memory" = PDict stored ->
    to_float (py_get order_state "short_memory_ts") = Ok f ->
    float_gt (Float64.sub (Float64.of_Q now) f) SHORT_MEMORY_TTL_SEC = false ->
    exists mem,
      normalize_short_memory order_state now = Ok (PDict mem) /\
      forall k v, dict_get k stored = Some v -> dict_get k mem = Some v.
Proof.
  intros os now stored f Hmem Hf Hfresh.
  exists (with_defaults stored). split.
  - rewrite (normalize_short_memory_converted _ _ _ Hf), Hmem, Hfresh.
    reflexivity.
  - intros k v. apply with_defaults_keeps.
Qed.

Lemma normalize_short_memory_keeps_fresh_witness :
  exists mem,
    normalize_short_memory
      [("short_memory", PDict [("last_results", PList [PStr "004002"])]);
       ("short_memory_ts", PFloat 1100)] 2000
    = Ok (PDict mem) /\
    forall k v,
      dict_get k [("last_results", PList [PStr "004002"])] = Some v ->
      dict_get k mem = Some v.
Proof.
  apply (normalize_short_memory_keeps_fresh _ 2000 _ (Float64.of_Q 1100)).
  - reflexivity.
  - reflexivity.
  - vm_compute. reflexivity.
Defined.

End ShortMemoryMore.

(** ** Lists of parts *)

Module PartsFacts.
Import Resolver DictFacts.

Lemma is_empty_true (s : string) : Str.is_empty s = true <-> s = "".
Proof. destruct s; simpl; split; intros H; congruence. Qed.

Lemma merge_unique_loop_spec (vals : list string) :
  forall seen out,
    (forall x, Str.mem x seen = true <-> In x out) ->
    NoDup out ->
    NoDup (merge_unique_loop vals seen out) /\
    (forall x, In x (merge_unique_loop vals seen out) <->
               In x out \/ exists v, In v vals /\ v <> "" /\ x = Str.upper v).
Proof.
  induction vals as [|value vals IH]; intros seen out Hseen Hnd.
  - cbn [merge_unique_loop]. split; [exact Hnd|].
    intros x. split; [auto|]. intros [H|[v [[] _]]]. exact H.
  - cbn [merge_unique_loop].
    destruct (Str.is_empty value) eqn:Ee.
    + apply is_empty_true in Ee. subst value.
      destruct (IH seen out Hseen Hnd) as [H1 H2]. split; [exact H1|].
      intros x. rewrite H2. split.
      * intros [H|[v [Hv [Hne Hx]]]]; [left; exact H|].
        right. exists v. split; [right; exact Hv|]. split; assumption.
      * intros [H|[v [[Hv|Hv] [Hne Hx]]]]; [left; exact H| |].
        { subst v. contradiction. }
        right. exists v. split; [exact Hv|]. split; assumption.
    + assert (Hne : value <> "").
      { intros ->. discriminate Ee. }
      destruct (Str.mem (Str.upper value) seen) eqn:Em.
      * apply Hseen in Em.
        destruct (IH seen out Hseen Hnd) as [H1 H2]. split; [exact H1|].
        intros x. rewrite H2. split.
        -- intros [H|[v [Hv [Hv' Hx]]]]; [left; exact H|].
           right. exists v. split; [right; exact Hv|]. split; assumption.
        -- intros [H|[v [[Hv|Hv] [Hv' Hx]]]]; [left; exact H| |].
           { subst v x. left. exact Em. }
           right. exists v. split; [exact Hv|]. split; assumption.
      * assert (Hnotin : ~ In (Str.upper value) out).
        { intros Hin. apply Hseen in Hin. congruence. }
        destruct (IH (Str.upper value :: seen) (out ++ [Str.upper value])%list)
          as [H1 H2].
        { intros x. unfold Str.mem. cbn [existsb]. fold (Str.mem x seen).
          rewrite in_app_iff. split.
          - intros H. apply Bool.orb_true_iff in H. destruct H as [H|H].
            + apply String.eqb_eq in H. subst x. right. left. reflexivity.
            + left. apply Hseen, H.
          - intros [H|[H|[]]].
            + apply Hseen in H. rewrite H. apply Bool.orb_true_r.
            + subst x. rewrite String.eqb_refl. reflexivity. }
        { apply NoDup_app.
          - exact Hnd.
          - constructor; [intros []|constructor].
          - intros x Hx [Hx'|[]]. subst x. contradiction. }
        split; [exact H1|].
        intros x. rewrite H2, in_app_iff. split.
        -- intros [[H|[H|[]]]|[v [Hv [Hv' Hx]]]].
           ++ left. exact H.
           ++ right. exists value. split; [left; reflexivity|].
              split; [exact Hne|symmetry; exact H].
           ++ right. exists v. split; [right; exact Hv|]. split; assumption.
        -- intros [H|[v [[Hv|Hv] [Hv' Hx]]]].
           ++ left. left. exact H.
           ++ subst v x. left. right. left. reflexivity.
           ++ right. exists v. split; [exact Hv|]. split; assumption.
Qed.

(** X3: [merge_unique] returns each non-empty value of its two lists once,
    upper-cased, and nothing else: the result has no duplicates and no entry
    that does not come from an input. *)
Theorem merge_unique_no_duplicates :
  forall primary secondary : list string,
    NoDup (merge_unique primary secondary) /\
    (forall x, In x (merge_unique primary secondary) <->
               exists v, In v (primary ++ secondary) /\ v <> "" /\
                         x = Str.upper v).
Proof.
  intros primary secondary. unfold merge_unique.
  destruct (merge_unique_loop_spec (primary ++ secondary) [] []) as [H1 H2].
  - intros x. cbn. split; [discriminate|intros []].
  - constructor.
  - split; [exact H1|]. intros x. rewrite H2. split.
    + intros [[]|H]. exact H.
    + intros H. right. exact H.
Qed.

End PartsFacts.

(** ** The bulk threshold *)

Module BulkFacts.
Import Slots Guard DictFacts SlotFacts GuardFacts.

Lemma bulk_values_of_raw_spec (cells : pydict) (num : Z) :
  In num (bulk_values_of_raw cells) <->
  exists key value,
    In (key, value) cells /\ is_bulk_key key = true /\
    int_of_cell value = Ok num /\ (0 < num)%Z.
Proof.
  induction cells as [|[key value] cells IH].
  - cbn. split; [intros []|intros (k & v & [] & _)].
  - cbn [bulk_values_of_raw].
    assert (Htail :
      (exists k v, In (k, v) cells /\ is_bulk_key k = true /\
                   int_of_cell v = Ok num /\ (0 < num)%Z) ->
      exists k v, In (k, v) ((key, value) :: cells) /\ is_bulk_key k = true /\
                  int_of_cell v = Ok num /\ (0 < num)%Z).
    { intros (k & v & Hin & H). exists k, v. split; [right; exact Hin|exact H]. }
    destruct (is_bulk_key key) eqn:Ek.
    + destruct (int_of_cell value) as [z|e] eqn:Ez; cbn [bind try_except].
      * destruct (Z.ltb 0 z) eqn:Epos.
        -- cbn [In]. rewrite IH. split.
           ++ intros [<-|H]; [|apply Htail, H].
              exists key, value. split; [left; reflexivity|].
              split; [exact Ek|]. split; [exact Ez|]. apply Z.ltb_lt, Epos.
           ++ intros (k & v & [Hkv|Hin] & Hk & Hv & Hp).
              ** injection Hkv as <- <-. left. congruence.
              ** right. exists k, v. auto.
        -- rewrite IH. split; [apply Htail|].
           intros (k & v & [Hkv|Hin] & Hk & Hv & Hp).
           ** injection Hkv as <- <-. rewrite Ez in Hv. injection Hv as <-.
              apply Z.ltb_lt in Hp. congruence.
           ** exists k, v. auto.
      * assert (Hskip :
          match (if exn_eqb ValueError e then Ok None else Raise e)
                : result (option Z) with
          | Ok (Some n) =>
              if Z.ltb 0 n then n :: bulk_values_of_raw cells
              else bulk_values_of_raw cells
          | _ => bulk_values_of_raw cells
          end = bulk_values_of_raw cells).
        { destruct (exn_eqb ValueError e); reflexivity. }
        rewrite Hskip, IH. split; [apply Htail|].
        intros (k & v & [Hkv|Hin] & Hk & Hv & Hp).
        -- injection Hkv as <- <-. congruence.
        -- exists k, v. auto.
    + rewrite IH. split; [apply Htail|].
      intros (k & v & [Hkv|Hin] & Hk & Hv & Hp).
      * injection Hkv as <- <-. congruence.
      * exists k, v. auto.
Qed.

Lemma list_min_spec (l : list Z) :
  forall x, In (list_min x l) (x :: l) /\
            forall y, In y (x :: l) -> (list_min x l <= y)%Z.
Proof.
  induction l as [|a l IH]; intros x.
  - cbn. split; [left; reflexivity|]. intros y [<-|[]]. lia.
  - cbn [list_min]. destruct (IH (Z.min x a)) as [Hin Hle]. split.
    + destruct Hin as [H|H]; [|right; right; exact H].
      rewrite <- H. destruct (Z.min_spec x a) as [[_ ->]|[_ ->]];
        [left|right; left]; reflexivity.
    + intros y [<-|[<-|Hy]].
      * specialize (Hle (Z.min x a) (or_introl eq_refl)). lia.
      * specialize (Hle (Z.min x a) (or_introl eq_refl)). lia.
      * apply Hle. right. exact Hy.
Qed.

(** X4: Without a numeric BULK_QTY_THRESHOLD the threshold, when there is one, is
    the least positive integer found under a bulk-quantity key of the
    catalog: it is positive, it occurs in some item, and no positive value of
    such a key lies below it. *)
Theorem catalog_threshold_is_least_positive :
  forall (env : option string) (items : list ResourceItem) (t : Z),
    match env with Some e => Str.isdigit e = false | None => True end ->
    get_bulk_qty_threshold env items = Ok (Some t) ->
    (0 < t)%Z /\
    (exists item key value,
        In item items /\ In (key, value) (raw item) /\
        is_bulk_key key = true /\ int_of_cell value = Ok t) /\
    (forall item key value num,
        In item items -> In (key, value) (raw item) ->
        is_bulk_key key = true -> int_of_cell value = Ok num ->
        (0 < num)%Z -> (t <= num)%Z).
Proof.
  intros env items t Henv Hget.
  assert (Hcat :
    match flat_map (fun item => bulk_values_of_raw (raw item)) items with
    | [] => Ok None
    | v :: vs => Ok (Some (list_min v vs))
    end = Ok (Some t)).
  { unfold get_bulk_qty_threshold in Hget. destruct env as [e|]; [|exact Hget].
    rewrite Henv, Bool.andb_false_r in Hget. exact Hget. }
  clear Hget.
  destruct (flat_map (fun item => bulk_values_of_raw (raw item)) items)
    as [|v vs] eqn:Evals; [discriminate Hcat|].
  injection Hcat as <-.
  destruct (list_min_spec vs v) as [Hin Hle].
  assert (Hmem : forall num,
    In num (v :: vs) <->
    exists item key value,
      In item items /\ In (key, value) (raw item) /\
      is_bulk_key key = true /\ int_of_cell value = Ok num /\ (0 < num)%Z).
  { intros num. rewrite <- Evals, in_flat_map. split.
    - intros (item & Hitem & Hnum). apply bulk_values_of_raw_spec in Hnum.
      destruct Hnum as (k & val & H). exists item, k, val. tauto.
    - intros (item & k & val & Hitem & H). exists item. split; [exact Hitem|].
      apply bulk_values_of_raw_spec. exists k, val. exact H. }
  apply Hmem in Hin. destruct Hin as (item & key & value & H1 & H2 & H3 & H4 & H5).
  split; [exact H5|]. split.
  - exists item, key, value. auto.
  - intros item' key' value' num Hi Hc Hk Hv Hp. apply Hle, Hmem.
    exists item', key', value'. auto.
Qed.

Lemma catalog_threshold_is_least_positive_witness :
  (0 < 50)%Z /\
  (exists item key value,
      In item [mkItem "004002" "Bec han" "" "TIP" ""
                 [("Min Qty", PStr " 50 "); ("bulk_qty", PInt 200)]] /\
      In (key, value) (raw item) /\
      is_bulk_key key = true /\ int_of_cell value = Ok 50%Z) /\
  (forall item key value num,
      In item [mkItem "004002" "Bec han" "" "TIP" ""
                 [("Min Qty", PStr " 50 "); ("bulk_qty", PInt 200)]] ->
      In (key, value) (raw item) ->
      is_bulk_key key = true -> int_of_cell value = Ok num ->
      (0 < num)%Z -> (50 <= num)%Z).
Proof.
  apply (catalog_threshold_is_least_positive (Some "auto")).
  - vm_compute. reflexivity.
  - vm_compute. reflexivity.
Defined.





End BulkFacts.

(** ** Helpers of [utils.py] and the log mask *)

Module UtilsFacts.
Import Utils Logging.

Lemma append_assoc (a b c : string) : (a ++ b) ++ c = a ++ (b ++ c).
Proof. induction a as [|x a IH]; cbn; [reflexivity|]. rewrite IH. reflexivity. Qed.

Lemma length_append (a b : string) :
  String.length (a ++ b) = (String.length a + String.length b)%nat.
Proof. induction a as [|x a IH]; cbn; [reflexivity|]. rewrite IH. reflexivity. Qed.

Lemma find_char_none (c : ascii) (s : string) :
  find_char c s = None <-> ~ In c (list_ascii_of_string s).
Proof.
  induction s as [|x s IH]; cbn.
  - split; [intros _ []|reflexivity].
  - destruct (Ascii.eqb x c) eqn:E.
    + apply Ascii.eqb_eq in E. split; [discriminate|]. intros H. exfalso.
      apply H. left. exact E.
    + apply Ascii.eqb_neq in E. destruct (find_char c s).
      * split; [discriminate|]. intros H. exfalso.
        assert (Hn : ~ In c (list_ascii_of_string s)) by tauto.
        apply IH in Hn. discriminate Hn.
      * split; [|reflexivity]. intros _ [H|H]; [contradiction|].
        destruct IH as [IH _]. apply (IH eq_refl), H.
Qed.

Lemma rfind_char_none (c : ascii) (s : string) :
  rfind_char c s = None <-> ~ In c (list_ascii_of_string s).
Proof.
  induction s as [|x s IH]; cbn.
  - split; [intros _ []|reflexivity].
  - destruct (rfind_char c s).
    + split; [discriminate|]. intros H. exfalso.
      assert (Hn : ~ In c (list_ascii_of_string s)) by tauto.
      apply IH in Hn. discriminate Hn.
    + destruct IH as [IH _]. specialize (IH eq_refl).
      destruct (Ascii.eqb x c) eqn:E.
      * apply Ascii.eqb_eq in E. split; [discriminate|]. intros H. exfalso.
        apply H. left. exact E.
      * apply Ascii.eqb_neq in E. split; [|reflexivity].
        intros _ [H|H]; [contradiction|]. apply IH, H.
Qed.

(** [find_char] returns the length of the longest prefix free of [c]. *)
Lemma find_char_some (c : ascii) (s : string) (i : nat) :
  find_char c s = Some i <->
  exists pre rest,
    s = pre ++ String c rest /\ String.length pre = i /\
    ~ In c (list_ascii_of_string pre).
Proof.
  revert i. induction s as [|x s IH]; intros i; cbn.
  - split; [discriminate|]. intros (pre & rest & H & _). destruct pre; discriminate H.
  - destruct (Ascii.eqb x c) eqn:E.
    + apply Ascii.eqb_eq in E. subst x. split.
      * intros H. injection H as <-. exists "", s. cbn. auto.
      * intros (pre & rest & H & Hl & Hn). destruct pre as [|y pre].
        -- cbn in Hl. subst i. reflexivity.
        -- cbn in H. injection H as -> _. exfalso. apply Hn. left. reflexivity.
    + apply Ascii.eqb_neq in E. split.
      * destruct (find_char c s) as [j|]; [|discriminate]. intros H.
        injection H as <-. destruct (proj1 (IH j) eq_refl) as (pre & rest & -> & Hl & Hn).
        exists (String x pre), rest. cbn. split; [reflexivity|].
        split; [congruence|]. intros [H|H]; [contradiction|]. apply Hn, H.
      * intros (pre & rest & H & Hl & Hn). destruct pre as [|y pre].
        -- cbn in H. injection H as -> _. contradiction.
        -- cbn in H. injection H as <- ->. cbn in Hl. subst i.
           assert (Hj : find_char c (pre ++ String c rest) = Some (String.length pre)).
           { apply IH. exists pre, rest. split; [reflexivity|].
             split; [reflexivity|]. intros Hin. apply Hn. right. exact Hin. }
           rewrite Hj. reflexivity.
Qed.

(** [rfind_char] returns the position after which no [c] occurs. *)
Lemma rfind_char_some (c : ascii) (s : string) (i : nat) :
  rfind_char c s = Some i <->
  exists pre post,
    s = pre ++ String c post /\ String.length pre = i /\
    ~ In c (list_ascii_of_string post).
Proof.
  revert i. induction s as [|x s IH]; intros i; cbn.
  - split; [discriminate|]. intros (pre & rest & H & _). destruct pre; discriminate H.
  - destruct (rfind_char c s) as [j|] eqn:Ej.
    + split.
      * intros H. injection H as <-.
        destruct (proj1 (IH j) eq_refl) as (pre & post & -> & Hl & Hn).
        exists (String x pre), post. cbn. split; [reflexivity|].
        split; [congruence|exact Hn].
      * intros (pre & post & H & Hl & Hn). destruct pre as [|y pre].
        -- cbn in H. injection H as _ ->. apply rfind_char_none in Hn. congruence.
        -- cbn in H. injection H as _ ->. cbn in Hl. subst i.
           assert (Hj : Some j = Some (String.length pre)).
           { apply IH. exists pre, post. auto. }
           injection Hj as ->. reflexivity.
    + apply rfind_char_none in Ej. destruct (Ascii.eqb x c) eqn:E.
      * apply Ascii.eqb_eq in E. subst x. split.
        -- intros H. injection H as <-. exists "", s. cbn. auto.
        -- intros (pre & post & H & Hl & Hn). destruct pre as [|y pre].
           ++ cbn in Hl. subst i. reflexivity.
           ++ cbn in H. injection H as _ ->. exfalso. apply Ej.
              clear. induction pre as [|z pre IH]; cbn; [left; reflexivity|].
              right. exact IH.
      * apply Ascii.eqb_neq in E. split; [discriminate|].
        intros (pre & post & H & Hl & Hn). destruct pre as [|y pre].
        -- cbn in H. injection H as -> _. contradiction.
        -- cbn in H. injection H as _ ->. exfalso. apply Ej.
           clear. induction pre as [|z pre IH]; cbn; [left; reflexivity|].
           right. exact IH.
Qed.

Lemma substring_skip (pre s : string) (n : nat) :
  String.substring (String.length pre) n (pre ++ s) = String.substring 0 n s.
Proof. induction pre as [|x pre IH]; cbn; [reflexivity|exact IH]. Qed.

Lemma substring_prefix (a b : string) :
  String.substring 0 (String.length a) (a ++ b) = a.
Proof.
  induction a as [|x a IH]; cbn.
  - destruct b; reflexivity.
  - rewrite IH. reflexivity.
Qed.

(** Two ways of cutting one string: the shorter prefix is a prefix of the
    longer one. *)
Lemma append_split (a : string) :
  forall b c d,
    a ++ b = c ++ d -> (String.length a <= String.length c)%nat ->
    exists m, c = a ++ m /\ b = m ++ d.
Proof.
  induction a as [|x a IH]; intros b c d H Hl.
  - exists c. cbn in *. auto.
  - destruct c as [|y c]; [cbn in Hl; lia|].
    cbn in H. injection H as <- H. cbn in Hl.
    destruct (IH b c d H) as (m & -> & ->); [lia|].
    exists m. cbn. auto.
Qed.

(** X6: [extract_json_block] returns a block exactly when the text has an opening
    brace before a closing one, and the block then runs from the first opening
    brace to the last closing brace, both included. *)
Theorem extract_json_block_spans_outer_braces :
  forall text block : string,
    extract_json_block text = Some block <->
    exists pre body post,
      text = pre ++ "{" ++ body ++ "}" ++ post /\
      block = "{" ++ body ++ "}" /\
      ~ In "{"%char (list_ascii_of_string pre) /\
      ~ In "}"%char (list_ascii_of_string post).
Proof.
  intros text block. unfold extract_json_block. split.
  - destruct (Str.is_empty text); [discriminate|].
    destruct (find_char "{" text) as [start|] eqn:Es; [|discriminate].
    destruct (rfind_char "}" text) as [end_|] eqn:Ee; [|discriminate].
    destruct (Nat.leb end_ start) eqn:El; [discriminate|].
    apply Nat.leb_gt in El. intros H. injection H as <-.
    apply find_char_some in Es. destruct Es as (pre & rest & Ht & Hs & Hpre).
    apply rfind_char_some in Ee. destruct Ee as (upto & post & Ht' & He & Hpost).
    subst start end_.
    assert (Hcut : pre ++ String "{" rest = upto ++ String "}" post) by congruence.
    destruct (append_split _ _ _ _ Hcut) as (m & Hm & Hrest); [lia|].
    destruct m as [|y body].
    { rewrite Hm in El. cbn in El. rewrite length_append in El. cbn in El. lia. }
    cbn in Hrest. injection Hrest as <- ->.
    exists pre, body, post. cbn. split; [exact Ht|]. split; [|split; assumption].
    rewrite Ht, Hm, length_append, substring_skip. cbn [String.length].
    replace (String.length pre + S (String.length body) + 1 - String.length pre)%nat
      with (S (String.length (body ++ "}"))).
    + cbn. f_equal.
      replace (body ++ String "}" post) with ((body ++ "}") ++ post).
      * apply substring_prefix.
      * rewrite append_assoc. reflexivity.
    + rewrite length_append. cbn. lia.
  - intros (pre & body & post & -> & -> & Hpre & Hpost). cbn.
    assert (Hne : Str.is_empty (pre ++ String "{" (body ++ String "}" post)) = false).
    { destruct pre; reflexivity. }
    rewrite Hne.
    assert (Es : find_char "{" (pre ++ String "{" (body ++ String "}" post))
                 = Some (String.length pre)).
    { apply find_char_some. exists pre, (body ++ String "}" post). auto. }
    assert (Ee : rfind_char "}" (pre ++ String "{" (body ++ String "}" post))
                 = Some (String.length (pre ++ String "{" body))).
    { apply rfind_char_some. exists (pre ++ String "{" body), post.
      split; [|split; [reflexivity|exact Hpost]].
      rewrite append_assoc. reflexivity. }
    rewrite Es, Ee, length_append. cbn [String.length].
    destruct (Nat.leb (String.length pre + S (String.length body)) (String.length pre))
      eqn:El.
    { apply Nat.leb_le in El. lia. }
    rewrite substring_skip.
    replace (String.length pre + S (String.length body) + 1 - String.length pre)%nat
      with (S (String.length (body ++ "}"))).
    + cbn. do 2 f_equal.
      replace (body ++ String "}" post) with ((body ++ "}") ++ post).
      * apply substring_prefix.
      * rewrite append_assoc. reflexivity.
    + rewrite length_append. cbn. lia.
Qed.

Lemma drop_split (n : nat) :
  forall s, (n <= String.length s)%nat ->
            exists hidden, s = hidden ++ drop n s /\ String.length hidden = n.
Proof.
  induction n as [|n IH]; intros s Hn.
  - exists "". cbn. auto.
  - destruct s as [|c s]; [cbn in Hn; lia|].
    cbn in Hn. destruct (IH s) as (h & Hs & Hl); [lia|].
    exists (String c h). cbn. split; [congruence|congruence].
Qed.

Lemma filter_chars_all (p : ascii -> bool) (s : string) :
  Str.all_chars p (Str.filter_chars p s) = true.
Proof.
  induction s as [|c s IH]; cbn; [reflexivity|].
  destruct (p c) eqn:E; [|exact IH]. cbn. rewrite E, IH. reflexivity.
Qed.

(** X7: [mask_contact_value] never shows a whole contact: the mask is "***" alone
    when the value has fewer than four digits, and otherwise "***" followed by
    the last three digits, with at least one digit of the value hidden. *)
Theorem mask_contact_value_hides_a_digit :
  forall value : string,
    let digits := Str.filter_chars Str.is_digit value in
    ((String.length digits < 4)%nat /\ mask_contact_value (Some value) = "***") \/
    (exists hidden shown,
        digits = hidden ++ shown /\ hidden <> "" /\
        String.length shown = 3%nat /\
        mask_contact_value (Some value) = "***" ++ shown).
Proof.
  intros value digits. unfold mask_contact_value. fold digits.
  destruct (Nat.ltb (String.length digits) 4) eqn:E.
  - left. apply Nat.ltb_lt in E. auto.
  - right. apply Nat.ltb_ge in E. unfold last_n.
    destruct (drop_split (String.length digits - 3) digits) as (h & Hs & Hl);
      [lia|].
    exists h, (drop (String.length digits - 3) digits).
    split; [exact Hs|]. split.
    + intros ->. cbn in Hl. lia.
    + split; [|reflexivity].
      apply (f_equal String.length) in Hs. rewrite length_append in Hs. lia.
Qed.

End UtilsFacts.

(** ** Order state and the generator's commercial action *)

Module OrderStateFacts.
Import Resolver OrderState Commercial DictFacts.

(** X8: [normalize_order_state] is a normal form: normalising a normalised state
    changes nothing. *)
Theorem normalize_order_state_idempotent :
  forall state : pydict,
    normalize_order_state (normalize_order_state state)
    = normalize_order_state state.
Proof.
  intros state. unfold normalize_order_state at 1.
  unfold py_get at 1 2 3 4 5 6 7 8 9 10 11 12 13 14 15.
  unfold normalize_order_state. cbn [dict_get String.eqb Ascii.eqb Bool.eqb].
  cbn [py_truthy].
  assert (Hor : forall a b, py_or (py_or a b) b = py_or a b).
  { intros a b. unfold py_or. destruct (py_truthy a) eqn:Ea.
    - rewrite Ea. reflexivity.
    - destruct (py_truthy b); reflexivity. }
  rewrite !Hor. reflexivity.
Qed.

Lemma dict_has_set_other (k k' : string) (v : pyval) (d : pydict) :
  dict_has k d = true -> dict_has k (dict_set k' v d) = true.
Proof.
  unfold dict_has. rewrite dict_get_set.
  destruct (String.eqb k k'); [reflexivity|]. auto.
Qed.

(** X9: [apply_resolved_to_order_state] writes nothing but [selected_sku],
    [selected_group] and [hand_or_robot], removes no key, and leaves the state
    as it is when the resolver found no anchor, no group and no torch type. *)
Theorem apply_resolved_touches_three_keys :
  forall (order_state : pydict) (resolved : Resolved),
    (forall k, k <> "selected_sku" -> k <> "selected_group" ->
               k <> "hand_or_robot" ->
               dict_get k (apply_resolved_to_order_state order_state resolved)
               = dict_get k order_state) /\
    (forall k, dict_has k order_state = true ->
               dict_has k (apply_resolved_to_order_state order_state resolved)
               = true) /\
    (anchor_sku resolved = "" -> product_group resolved = "" ->
     is_robot resolved = None ->
     apply_resolved_to_order_state order_state resolved = order_state).
Proof.
  intros os r. unfold apply_resolved_to_order_state. split; [|split].
  - intros k H1 H2 H3.
    apply String.eqb_neq in H1, H2, H3.
    destruct (nonempty (anchor_sku r)), (nonempty (product_group r)),
      (is_robot r) as [[|]|];
      rewrite ?dict_get_set, ?H1, ?H2, ?H3; reflexivity.
  - intros k Hk.
    destruct (nonempty (anchor_sku r)), (nonempty (product_group r)),
      (is_robot r) as [[|]|];
      repeat apply dict_has_set_other; exact Hk.
  - intros -> -> ->. reflexivity.
Qed.

(** X10: [parse_commercial_action] yields the three keys [collect_contact],
    [fields] and [reason] holding a boolean, a list and a string, whatever the
    generator sent; an action already in that form is returned unchanged. *)
Theorem parse_commercial_action_normal_form :
  forall data : pydict,
    (exists (b : bool) (l : list pyval) (s : string),
        parse_commercial_action data
        = [("collect_contact", PBool b); ("fields", PList l);
           ("reason", PStr s)]) /\
    parse_commercial_action
      [("commercial_action", PDict (parse_commercial_action data))]
    = parse_commercial_action data.
Proof.
  intros data.
  assert (Hshape : exists b l s,
    parse_commercial_action data
    = [("collect_contact", PBool b); ("fields", PList l); ("reason", PStr s)]).
  { unfold parse_commercial_action.
    destruct (py_get data "commercial_action") as [| | | | | |action];
      try (do 3 eexists; reflexivity).
    destruct (py_get action "fields"); destruct (py_get action "reason");
      do 3 eexists; reflexivity. }
  split; [exact Hshape|].
  destruct Hshape as (b & l & s & ->). reflexivity.
Qed.

Lemma apply_resolved_touches_three_keys_witness :
  apply_resolved_to_order_state
    [("selected_sku", PStr "004002"); ("quantity", PInt 20)]
    (mkResolved "" "" "" false "" (PStr "") None [] false false [] "" false)
  = [("selected_sku", PStr "004002"); ("quantity", PInt 20)].
Proof.
  apply (proj2 (proj2 (apply_resolved_touches_three_keys _ _))); reflexivity.
Defined.

End OrderStateFacts.

(** ** More on the hard intent rules *)

Module IntentMore.
Import Intent DictFacts IntentFacts.

(** X11: Listing, accessory, amp slot-fill and availability intents always leave
    the hard-rule pass with ANSWER_ONLY, whatever the generator proposed and
    whatever is missing. *)
Theorem listing_intents_answer_only :
  forall (d : IntentDecision) (n : string),
    In (intent d)
       ["LIST"; "LIST_REQUEST"; "ACCESSORY_LOOKUP"; "ACCESSORY_BUNDLE_LOOKUP";
        "SLOT_FILL_AMP"; "PRODUCT_AVAILABILITY"] ->
    next_action (apply_intent_rules d n) = "ANSWER_ONLY".
Proof.
  intros d n Hin. unfold apply_intent_rules. cbn [next_action].
  cbn [In] in Hin.
  destruct Hin as [H|[H|[H|[H|[H|[H|[]]]]]]]; rewrite <- H; cbn;
    destruct (info_only d); reflexivity.
Qed.

Lemma listing_intents_answer_only_witness :
  next_action
    (apply_intent_rules
       (mkDecision "LIST" true false "commercial" [] ["sku"; "contact"]
                   "REQUEST_CONTACT_FORM" [("collect_contact", PBool true)])
       "liet ke bec han")
  = "ANSWER_ONLY".
Proof.
  apply listing_intents_answer_only. cbn. auto.
Defined.

(** X12: A decision that leaves the pass info-only was info-only before it and
    ends with ANSWER_ONLY, whatever its intent, its topic and the missing
    slots. *)
Theorem info_only_result_answers_only :
  forall (d : IntentDecision) (n : string),
    info_only (apply_intent_rules d n) = true ->
    info_only d = true /\
    next_action (apply_intent_rules d n) = "ANSWER_ONLY".
Proof.
  intros d n. unfold apply_intent_rules. cbn [info_only next_action].
  intros H. rewrite H. split; [|reflexivity].
  destruct (Str.mem (intent d) _); [discriminate H|exact H].
Qed.

Lemma info_only_result_answers_only_witness :
  info_only (mkDecision "OTHER" true true "commercial" [] ["sku"]
                        "REQUEST_CONTACT_FORM" [("collect_contact", PBool true)])
  = true /\
  next_action
    (apply_intent_rules
       (mkDecision "OTHER" true true "commercial" [] ["sku"]
                   "REQUEST_CONTACT_FORM" [("collect_contact", PBool true)])
       "cho hoi") = "ANSWER_ONLY".
Proof.
  apply (info_only_result_answers_only _ "cho hoi"). reflexivity.
Defined.

Lemma mem_allowed_idem (a : string) :
  Str.mem (if Str.mem a allowed_actions then a else "ANSWER_ONLY") allowed_actions
  = true.
Proof. apply mem_In, allowed_cases. Qed.

(** X13: The hard-rule pass is stable: a second pass returns the decision of the
    first, except for a quantity follow-up whose commercial action asks for
    the contact, which the first pass answers with REQUEST_CONTACT_FORM and,
    the commercial action being dropped, a second pass with ANSWER_ONLY. *)
Theorem apply_intent_rules_second_pass :
  forall (d : IntentDecision) (n m : string),
    let contact_followup :=
      (String.eqb (intent d) "QUANTITY_FOLLOWUP"
       && py_truthy (py_get (commercial_action d) "collect_contact"))%bool in
    (contact_followup = false ->
     apply_intent_rules (apply_intent_rules d n) m = apply_intent_rules d n) /\
    (contact_followup = true ->
     next_action (apply_intent_rules d n) = "REQUEST_CONTACT_FORM" /\
     next_action (apply_intent_rules (apply_intent_rules d n) m) = "ANSWER_ONLY").
Proof.
  intros d n m contact_followup. subst contact_followup. split.
  - intros H.
    unfold apply_intent_rules.
    cbn [intent buy_intent info_only topic entities missing next_action
         commercial_action].
    change (py_truthy (py_get [] "collect_contact")) with false.
    cbv iota.
    destruct (String.eqb (intent d) "QUANTITY_FOLLOWUP") eqn:Eq.
    + apply String.eqb_eq in Eq. rewrite Eq in *. cbn in H. rewrite H. cbn.
      reflexivity.
    + pose proof (mem_allowed_idem (next_action d)) as Hidem.
      destruct (Str.mem (intent d)
                  ["LIST"; "LIST_REQUEST"; "PRODUCT_LOOKUP"; "ACCESSORY_LOOKUP";
                   "ACCESSORY_BUNDLE_LOOKUP"; "CODE_LOOKUP"; "QUANTITY_FOLLOWUP";
                   "SLOT_FILL_AMP"]);
        destruct (info_only d);
        destruct (Str.mem (intent d) ["LIST"; "LIST_REQUEST"]);
        destruct (Str.mem (intent d) ["ACCESSORY_LOOKUP"; "ACCESSORY_BUNDLE_LOOKUP"]);
        destruct (String.eqb (intent d) "SLOT_FILL_AMP");
        destruct (String.eqb (intent d) "PRODUCT_AVAILABILITY");
        destruct (String.eqb (intent d) "CODE_LOOKUP");
        destruct (buy_intent d);
        destruct (Str.mem "sku" (missing d));
        destruct (Str.mem "contact" (missing d));
        destruct (String.eqb (topic d) "commercial");
        destruct (Str.mem "tay_robot" (missing d));
        cbn [andb negb orb]; try reflexivity;
        rewrite Hidem; reflexivity.
  - intros H. apply Bool.andb_true_iff in H. destruct H as [Hq Hc].
    apply String.eqb_eq in Hq.
    unfold apply_intent_rules.
    cbn [intent buy_intent info_only topic entities missing next_action
         commercial_action].
    rewrite Hq, Hc. cbn. split; reflexivity.
Qed.

Lemma apply_intent_rules_second_pass_witness :
  next_action
    (apply_intent_rules
       (mkDecision "QUANTITY_FOLLOWUP" true false "product" [] []
                   "ANSWER_ONLY" [("collect_contact", PBool true)])
       "lay 500 cai") = "REQUEST_CONTACT_FORM" /\
  next_action
    (apply_intent_rules
       (apply_intent_rules
          (mkDecision "QUANTITY_FOLLOWUP" true false "product" [] []
                      "ANSWER_ONLY" [("collect_contact", PBool true)])
          "lay 500 cai")
       "lay 500 cai") = "ANSWER_ONLY".
Proof.
  apply (proj2 (apply_intent_rules_second_pass _ _ _)). reflexivity.
Defined.

End IntentMore.

(** ** More on the memory resolver *)

Module ResolverMore.
Import Re Patterns Slots Dialogue Resolver DictFacts SlotFacts ResolverFacts.

Lemma select_anchor_spec (skus : list string) (followup : bool)
  (la : Anchor) (lr : list string) (sku cat nm : string) (used : bool) :
  select_anchor skus followup la lr = (sku, cat, nm, used) ->
  (used = false -> sku = hd "" skus) /\
  (used = true ->
   skus = [] /\ ((sku = a_sku la /\ sku <> "") \/ lr = [sku])).
Proof.
  unfold select_anchor. destruct skus as [|sku0 rest].
  - destruct (followup && nonempty (a_sku la))%bool eqn:E1.
    + intros H. injection H as <- <- <- <-. split; [discriminate|].
      intros _. split; [reflexivity|]. left. split; [reflexivity|].
      apply Bool.andb_true_iff in E1. apply nonempty_true, E1.
    + destruct (followup && Nat.eqb (List.length lr) 1)%bool eqn:E2.
      * intros H. injection H as <- <- <- <-. split; [discriminate|].
        intros _. split; [reflexivity|]. right.
        apply Bool.andb_true_iff in E2. destruct E2 as [_ E2].
        destruct lr as [|x [|y lr]]; try discriminate E2. reflexivity.
      * intros H. injection H as <- <- <- <-. split; [reflexivity|discriminate].
  - intros H. injection H as <- <- <- <-. split; [reflexivity|discriminate].
Qed.

(** X14: The anchor of the resolver always has a source.  An anchor not marked as
    used is the first SKU parsed from the turn, or empty when the turn has
    none; an anchor marked as used is the stored anchor, the single stored
    result, or the anchor of the stored pending action. *)
Theorem anchor_comes_from_turn_or_memory :
  forall (message : string) (parsed : ParsedSlots) (memory : Memory),
    exists r,
      resolve_request_with_memory message parsed memory = Ok r /\
      (anchor_used r = false -> anchor_sku r = hd "" (p_skus parsed)) /\
      (anchor_used r = true ->
       (p_skus parsed = [] /\
        anchor_sku r = a_sku (last_anchor memory) /\ anchor_sku r <> "") \/
       (p_skus parsed = [] /\ last_results memory = [anchor_sku r]) \/
       (exists pa, pending_action memory = Some pa /\
                   anchor_sku r = pa_anchor_sku pa /\ anchor_sku r <> "")).
Proof.
  intros message parsed memory.
  unfold resolve_request_with_memory.
  destruct (detect_dialogue_act_returns message) as [act ->]. cbn [bind].
  destruct (quantity_message_returns message) as [qty ->]. cbn [bind].
  match goal with
  | |- context [select_anchor ?a ?b ?c ?d] =>
      destruct (select_anchor a b c d) as [[[sku cat] nm] used] eqn:Esel
  end.
  apply select_anchor_spec in Esel. destruct Esel as [Hturn Hmem].
  assert (Hbase :
    (used = false -> sku = hd "" (p_skus parsed)) /\
    (used = true ->
     (p_skus parsed = [] /\ sku = a_sku (last_anchor memory) /\ sku <> "") \/
     (p_skus parsed = [] /\ last_results memory = [sku]) \/
     (exists pa, pending_action memory = Some pa /\
                 sku = pa_anchor_sku pa /\ sku <> ""))).
  { split; [exact Hturn|]. intros Hu. destruct (Hmem Hu) as [Hs [H|H]].
    - left. tauto.
    - right. left. tauto. }
  destruct (pending_action memory) as [pa|] eqn:Epa.
  - destruct act.
    1-3, 5: eexists; split; [reflexivity|exact Hbase].
    + destruct (nonempty (pa_action pa)).
      * eexists. split; [reflexivity|].
        cbn [anchor_used anchor_sku].
        destruct (nonempty (pa_anchor_sku pa)) eqn:Ea; [|exact Hbase].
        split; [discriminate|]. intros _. right. right. exists pa.
        split; [reflexivity|]. split; [reflexivity|].
        apply nonempty_true, Ea.
      * eexists. split; [reflexivity|exact Hbase].
    + destruct (new_intent_signal_spec message
                  (or_str (p_normalized parsed) (normalize_text message)))
        as [b [-> _]].
      cbn [bind]. eexists. split; [reflexivity|exact Hbase].
  - assert (Hbase' :
      (used = false -> sku = hd "" (p_skus parsed)) /\
      (used = true ->
       (p_skus parsed = [] /\ sku = a_sku (last_anchor memory) /\ sku <> "") \/
       (p_skus parsed = [] /\ last_results memory = [sku]) \/
       (exists pa : PendingAction, None = Some pa /\
                   sku = pa_anchor_sku pa /\ sku <> ""))).
    { split; [exact Hturn|]. intros Hu. destruct (Hmem Hu) as [Hs [H|H]].
      - left. tauto.
      - right. left. tauto. }
    destruct act; eexists; (split; [reflexivity|exact Hbase']).
Qed.

(** X15: A turn that is a pure quantity or a quantity follow-up never forces an
    intent: its dialogue act is a slot fill, so neither the carry-over of the
    last technical intent nor a pending action applies. *)
Theorem quantity_turn_forces_no_intent :
  forall (message : string) (parsed : ParsedSlots) (memory : Memory),
    is_pure_quantity_message message = true \/
    is_quantity_followup_message message = Ok true ->
    exists act r,
      detect_dialogue_act message = Ok act /\
      (act = SLOT_FILL_AMP \/ act = SLOT_FILL_TYPE \/ act = SLOT_FILL_QUANTITY) /\
      resolve_request_with_memory message parsed memory = Ok r /\
      force_intent r = "".
Proof.
  intros message parsed memory Hq.
  assert (Hqty : orM (Ok (is_pure_quantity_message message))
                     (is_quantity_followup_message message) = Ok true).
  { unfold orM. cbn [bind]. destruct Hq as [-> | Hf]; [reflexivity|].
    rewrite Hf. destruct (is_pure_quantity_message message); reflexivity. }
  assert (Hact : exists act,
    detect_dialogue_act message = Ok act /\
    (act = SLOT_FILL_AMP \/ act = SLOT_FILL_TYPE \/ act = SLOT_FILL_QUANTITY)).
  { unfold detect_dialogue_act.
    destruct (is_amp_only_message_returns message) as [amp ->]. cbn [bind].
    destruct amp; [eauto|].
    destruct (is_type_only_message message); [eauto|].
    rewrite Hqty. cbn [bind]. eauto. }
  destruct Hact as (act & Hact & Hcases). exists act.
  unfold resolve_request_with_memory. rewrite Hact, Hqty. cbn [bind].
  match goal with
  | |- context [select_anchor ?a ?b ?c ?d] =>
      destruct (select_anchor a b c d) as [[[sku cat] nm] used]
  end.
  destruct (pending_action memory) as [pa|];
    destruct Hcases as [-> | [-> | ->]];
    eexists; (split; [reflexivity|]); (split; [auto|]);
    (split; [reflexivity|reflexivity]).
Qed.

Lemma quantity_turn_forces_no_intent_witness :
  exists act r,
    detect_dialogue_act "20 cai" = Ok act /\
    (act = SLOT_FILL_AMP \/ act = SLOT_FILL_TYPE \/ act = SLOT_FILL_QUANTITY) /\
    resolve_request_with_memory "20 cai"
      (result_value (mkParsed "" [] [] "" None "" None None [] false false [])
                    (parse_user_input "20 cai"))
      (mkMemory (mkAnchor "004002" "TIP" "350A" (Some true) "Bec han")
                "PRODUCT_LOOKUP" ["004002"] []
                (Some (mkPending "ACCESSORY_BUNDLE_LOOKUP" ["TIP_BODY"]
                                 "004002" "TIP" []))
                [("amp", PStr "350A")])
    = Ok r /\
    force_intent r = "".
Proof.
  apply quantity_turn_forces_no_intent. left. vm_compute. reflexivity.
Defined.

Lemma overlay_constraints_get (src : pydict) :
  forall (dst : pydict) (k : string),
    dict_get k (overlay_constraints dst src)
    = match dict_get k (overlay_constraints [] src) with
      | Some v => Some v
      | None => dict_get k dst
      end.
Proof.
  unfold overlay_constraints.
  induction src as [|[k' v'] src IH]; intros dst k.
  - reflexivity.
  - cbn [fold_left fst snd].
    assert (Hstep : forall d,
      dict_get k (fold_left
                    (fun acc kv =>
                       match snd kv with
                       | PNone => acc
                       | PStr "" => acc
                       | v => dict_set (fst kv) v acc
                       end) src (dict_set k' v' d))
      = match dict_get k (fold_left
                    (fun acc kv =>
                       match snd kv with
                       | PNone => acc
                       | PStr "" => acc
                       | v => dict_set (fst kv) v acc
                       end) src []) with
        | Some v => Some v
        | None => if String.eqb k k' then Some v' else dict_get k d
        end).
    { intros d. rewrite IH, dict_get_set. reflexivity. }
    destruct v' as [| | | |s| |]; cbv iota; try (rewrite (Hstep dst), (Hstep []);
      match goal with
      | |- context [dict_get k (fold_left ?f src [])] =>
          destruct (dict_get k (fold_left f src []))
      end; [reflexivity|];
      destruct (String.eqb k k'); reflexivity).
    + apply IH.
    + destruct s as [|c s]; [apply IH|].
      rewrite (Hstep dst), (Hstep []).
      match goal with
      | |- context [dict_get k (fold_left ?f src [])] =>
          destruct (dict_get k (fold_left f src []))
      end; [reflexivity|].
      destruct (String.eqb k k'); reflexivity.
Qed.

Lemma overlay_constraints_values (src : pydict) :
  forall (dst : pydict) (k : string) (v : pyval),
    dict_get k (overlay_constraints dst src) = Some v ->
    dict_get k dst = Some v \/ (v <> PNone /\ v <> PStr "" /\ In (k, v) src).
Proof.
  unfold overlay_constraints.
  induction src as [|[k' v'] src IH]; intros dst k v H.
  - left. exact H.
  - cbn [fold_left fst snd] in H.
    assert (Hset :
      dict_get k (fold_left
                    (fun acc kv =>
                       match snd kv with
                       | PNone => acc
                       | PStr "" => acc
                       | v => dict_set (fst kv) v acc
                       end) src (dict_set k' v' dst)) = Some v ->
      v' <> PNone -> v' <> PStr "" ->
      dict_get k dst = Some v \/
      (v <> PNone /\ v <> PStr "" /\ In (k, v) ((k', v') :: src))).
    { intros Hg Hn He. apply IH in Hg. destruct Hg as [Hg|(H1 & H2 & H3)].
      - rewrite dict_get_set in Hg. destruct (String.eqb k k') eqn:Ek.
        + apply String.eqb_eq in Ek. subst k'. injection Hg as <-.
          right. split; [exact Hn|]. split; [exact He|]. left. reflexivity.
        + left. exact Hg.
      - right. split; [exact H1|]. split; [exact H2|]. right. exact H3. }
    assert (Hskip :
      dict_get k (fold_left
                    (fun acc kv =>
                       match snd kv with
                       | PNone => acc
                       | PStr "" => acc
                       | v => dict_set (fst kv) v acc
                       end) src dst) = Some v ->
      dict_get k dst = Some v \/
      (v <> PNone /\ v <> PStr "" /\ In (k, v) ((k', v') :: src))).
    { intros Hg. apply IH in Hg. destruct Hg as [Hg|(H1 & H2 & H3)].
      - left. exact Hg.
      - right. split; [exact H1|]. split; [exact H2|]. right. exact H3. }
    destruct v' as [| | | |s| |]; try (apply Hset; [exact H|discriminate|discriminate]).
    + apply Hskip, H.
    + destruct s as [|c s]; [apply Hskip, H|].
      apply Hset; [exact H|discriminate|discriminate].
Qed.

Lemma overlay_constraints_cons (k : string) (v : pyval) (src dst : pydict) :
  overlay_constraints dst ((k, v) :: src)
  = overlay_constraints
      (match v with
       | PNone => dst
       | PStr "" => dst
       | _ => dict_set k v dst
       end) src.
Proof.
  unfold overlay_constraints. cbn [fold_left fst snd].
  destruct v as [| | | |s| |]; try reflexivity.
  destruct s; reflexivity.
Qed.

Lemma overlay_constraints_absent (src : pydict) (dst : pydict) (k : string) :
  ~ In k (map fst src) ->
  dict_get k (overlay_constraints dst src) = dict_get k dst.
Proof.
  intros Hk. rewrite overlay_constraints_get.
  destruct (dict_get k (overlay_constraints [] src)) as [v|] eqn:E;
    [|reflexivity].
  apply overlay_constraints_values in E.
  destruct E as [E|(_ & _ & E)]; [discriminate E|].
  exfalso. apply Hk. apply (in_map fst) in E. exact E.
Qed.

(** A key the turn sets to a value other than [None] and [""] holds that
    value after the overlay. *)
Lemma overlay_constraints_sets (src : pydict) :
  forall (dst : pydict) (k : string) (v : pyval),
    NoDup (map fst src) -> In (k, v) src ->
    v <> PNone -> v <> PStr "" ->
    dict_get k (overlay_constraints dst src) = Some v.
Proof.
  induction src as [|[k' v'] src IH]; intros dst k v Hnd Hin Hn He.
  - destruct Hin.
  - rewrite overlay_constraints_cons.
    cbn [map fst] in Hnd. inversion Hnd as [|? ? Hnotin Hnd']. subst.
    destruct Hin as [Heq|Hin].
    + injection Heq as -> ->.
      rewrite (overlay_constraints_absent _ _ _ Hnotin).
      destruct v as [| | | |s| |];
        try apply dict_get_set_same; [contradiction Hn; reflexivity|].
      destruct s; [contradiction He; reflexivity|apply dict_get_set_same].
    + apply IH; assumption.
Qed.

(** X16: The constraints the resolver returns, on a turn that affirms no pending
    action, are the stored ones overlaid with those of the turn: a key the
    turn leaves unset, [None] or empty keeps its stored value, a key the turn
    sets to another value holds the value of the turn, and every value
    returned is a stored one or such a value of the turn. *)
Theorem resolver_constraints_overlay :
  forall (message : string) (parsed : ParsedSlots) (memory : Memory)
         (r : Resolved),
    resolve_request_with_memory message parsed memory = Ok r ->
    (detect_dialogue_act message <> Ok AFFIRM \/ pending_action memory = None) ->
    (forall k,
        dict_get k (overlay_constraints [] (p_constraints parsed)) = None ->
        dict_get k (constraints r) = dict_get k (last_user_constraints memory)) /\
    (forall k v,
        dict_get k (constraints r) = Some v ->
        dict_get k (last_user_constraints memory) = Some v \/
        (v <> PNone /\ v <> PStr "" /\ In (k, v) (p_constraints parsed))) /\
    (NoDup (map fst (p_constraints parsed)) ->
     forall k v,
       In (k, v) (p_constraints parsed) ->
       v <> PNone -> v <> PStr "" ->
       dict_get k (constraints r) = Some v).
Proof.
  intros message parsed memory r Hr Hno.
  assert (Hc : constraints r
               = overlay_constraints (last_user_constraints memory)
                                     (p_constraints parsed)).
  { revert Hr. unfold resolve_request_with_memory.
    destruct (detect_dialogue_act_returns message) as [act Hact].
    rewrite Hact in *. cbn [bind].
    destruct (quantity_message_returns message) as [qty ->]. cbn [bind].
    match goal with
    | |- context [select_anchor ?a ?b ?c ?d] =>
        destruct (select_anchor a b c d) as [[[sku cat] nm] used]
    end.
    destruct (pending_action memory) as [pa|].
    - destruct act.
      1-3, 5: intros H; injection H as <-; reflexivity.
      + destruct Hno as [Hno|Hno]; [exfalso; apply Hno; reflexivity|discriminate Hno].
      + destruct (new_intent_signal_spec message
                    (or_str (p_normalized parsed) (normalize_text message)))
          as [b [-> _]].
        cbn [bind]. intros H. injection H as <-. reflexivity.
    - destruct act; intros H; injection H as <-; reflexivity. }
  rewrite Hc. split; [|split].
  - intros k Hk. rewrite overlay_constraints_get, Hk. reflexivity.
  - intros k v. apply overlay_constraints_values.
  - intros Hnd k v. apply overlay_constraints_sets, Hnd.
Qed.

Lemma resolver_constraints_overlay_witness :
  dict_get "system"
    (constraints
       (result_value
          (mkResolved "" "" "" false "" PNone None [] false false [] "" false)
          (resolve_request_with_memory "loai 500a"
             (result_value
                (mkParsed "" [] [] "" None "" None None [] false false [])
                (parse_user_input "loai 500a"))
             (mkMemory (mkAnchor "004002" "TIP" "350A" None "Bec han")
                       "PRODUCT_LOOKUP" ["004002"] [] None
                       [("amp", PStr "350A"); ("system", PStr "N")]))))
  = dict_get "system" [("amp", PStr "350A"); ("system", PStr "N")].
Proof.
  apply (proj1 (resolver_constraints_overlay "loai 500a"
                  (result_value
                     (mkParsed "" [] [] "" None "" None None [] false false [])
                     (parse_user_input "loai 500a"))
                  (mkMemory (mkAnchor "004002" "TIP" "350A" None "Bec han")
                            "PRODUCT_LOOKUP" ["004002"] [] None
                            [("amp", PStr "350A"); ("system", PStr "N")])
                  _ ltac:(vm_compute; reflexivity) (or_intror eq_refl))).
  vm_compute. reflexivity.
Defined.

End ResolverMore.

(** ** Contact state *)

Module ContactFacts.
Import Re Patterns Slots Dialogue Contact.

Lemma contact_step_when_asking (st : contact_state) (m : ChatMessage) :
  asks_form m = true -> contact_step st m = (true, O, false, true).
Proof.
  unfold asks_form, contact_step. destruct st as [[[a n] r] w].
  intros ->. reflexivity.
Qed.

Lemma contact_step_otherwise (st : contact_state) (m : ChatMessage) :
  asks_form m = false ->
  contact_step st m =
  let '(a, n, r, w) := st in
  (a,
   if (a && reminds_contact m)%bool then S n else n,
   if (a && gives_contact m)%bool then true else r,
   if (a && gives_contact m)%bool then false else w).
Proof.
  unfold asks_form, reminds_contact, gives_contact, contact_step.
  destruct st as [[[a n] r] w]. intros ->.
  destruct (String.eqb (role m) "assistant") eqn:Er.
  - apply String.eqb_eq in Er. rewrite Er. cbn.
    destruct a; cbn; [|reflexivity].
    destruct (meta_reminded_contact m || is_contact_request_line (content m) false)%bool;
      reflexivity.
  - cbn. destruct (String.eqb (role m) "user"), a; cbn; try reflexivity.
    destruct (detect_contact_info (content m)); reflexivity.
Qed.

Lemma contact_fold_unasked (h : list ChatMessage) :
  (forall m, In m h -> asks_form m = false) ->
  fold_left contact_step h (false, O, false, false) = (false, O, false, false).
Proof.
  induction h as [|m h IH]; intros H; [reflexivity|].
  cbn [fold_left]. rewrite contact_step_otherwise by (apply H; left; reflexivity).
  cbn. apply IH. intros x Hx. apply H. right. exact Hx.
Qed.

Lemma contact_fold_asked (h : list ChatMessage) :
  forall (n : nat) (r : bool),
    (forall m, In m h -> asks_form m = false) ->
    fold_left contact_step h (true, n, r, negb r)
    = (true, (n + List.length (filter reminds_contact h))%nat,
       (r || existsb gives_contact h)%bool,
       negb (r || existsb gives_contact h)).
Proof.
  induction h as [|m h IH]; intros n r H.
  - cbn. rewrite Nat.add_0_r, Bool.orb_false_r. reflexivity.
  - cbn [fold_left]. rewrite contact_step_otherwise by (apply H; left; reflexivity).
    cbn [andb filter existsb].
    assert (Hh : forall x, In x h -> asks_form x = false).
    { intros x Hx. apply H. right. exact Hx. }
    destruct (reminds_contact m), (gives_contact m), r; cbn [negb orb];
      first [rewrite (IH _ true Hh) | rewrite (IH _ false Hh)];
      cbn [negb orb List.length]; rewrite ?Nat.add_succ_r; reflexivity.
Qed.

Lemma contact_fold_app (h1 h2 : list ChatMessage) (st : contact_state) :
  fold_left contact_step (h1 ++ h2) st
  = fold_left contact_step h2 (fold_left contact_step h1 st).
Proof. apply fold_left_app. Qed.

(** X17: The contact state read from a chat history is consistent: before any
    form was asked there is no reminder, no contact and no waiting; once a
    form was asked the assistant waits for the contact exactly as long as
    none was received. *)
Theorem contact_state_consistent :
  forall chat_history : list ChatMessage,
    exists asked_form reminder_count contact_received waiting_for_contact,
      get_contact_state chat_history
      = (asked_form, reminder_count, contact_received, waiting_for_contact) /\
      (asked_form = false ->
       reminder_count = O /\ contact_received = false /\
       waiting_for_contact = false) /\
      (asked_form = true -> waiting_for_contact = negb contact_received).
Proof.
  intros h. unfold get_contact_state.
  assert (Hinv : forall st,
    (let '(a, n, r, w) := st in
     (a = false -> n = O /\ r = false /\ w = false) /\
     (a = true -> w = negb r)) ->
    let '(a, n, r, w) := fold_left contact_step h st in
    (a = false -> n = O /\ r = false /\ w = false) /\
    (a = true -> w = negb r)).
  { induction h as [|m h IH]; intros st Hst; [exact Hst|].
    cbn [fold_left]. apply IH.
    destruct (asks_form m) eqn:Ea.
    - rewrite (contact_step_when_asking _ _ Ea). split; [discriminate|reflexivity].
    - rewrite (contact_step_otherwise _ _ Ea).
      destruct st as [[[a n] r] w]. destruct Hst as [H0 H1].
      destruct a; cbn [andb].
      + split; [discriminate|]. intros _.
        destruct (gives_contact m); [reflexivity|]. apply H1. reflexivity.
      + split; [|discriminate]. intros _. apply H0. reflexivity. }
  specialize (Hinv (false, O, false, false)).
  destruct (fold_left contact_step h (false, O, false, false)) as [[[a n] r] w].
  exists a, n, r, w. split; [reflexivity|]. apply Hinv.
  split; [auto|discriminate].
Qed.

(** X18: What the contact state is after the last form: once the last
    assistant message asking the form is passed, the reminders are the
    assistant's contact requests since then, and the contact is received
    exactly when a later user message carries contact information. *)
Theorem contact_state_after_last_form :
  forall (before after : list ChatMessage) (ask : ChatMessage),
    asks_form ask = true ->
    (forall m, In m after -> asks_form m = false) ->
    get_contact_state (before ++ ask :: after)
    = (true, List.length (filter reminds_contact after),
       existsb gives_contact after, negb (existsb gives_contact after)).
Proof.
  intros before after ask Hask Hafter. unfold get_contact_state.
  rewrite contact_fold_app. cbn [fold_left].
  rewrite (contact_step_when_asking _ _ Hask).
  change (true, O, false, true) with (true, O, false, negb false).
  rewrite (contact_fold_asked after O false Hafter). reflexivity.
Qed.

Lemma contact_state_after_last_form_witness :
  get_contact_state
    ([mkChat "user" "cho toi bao gia 500 bec han" false false]
       ++ mkChat "assistant" "Ten cong ty, Nguoi lien he, So dien thoai (Zalo)"
                 false false
       :: [mkChat "assistant" "Anh/Chi cho em xin thong tin lien he a" false false;
           mkChat "user" "zalo 0909123456" false false])
  = (true, 1%nat, true, false).
Proof.
  apply (contact_state_after_last_form
           [mkChat "user" "cho toi bao gia 500 bec han" false false]
           [mkChat "assistant" "Anh/Chi cho em xin thong tin lien he a" false false;
            mkChat "user" "zalo 0909123456" false false]).
  - vm_compute. reflexivity.
  - intros m [<-|[<-|[]]]; vm_compute; reflexivity.
Defined.

(** X19: A history in which the assistant never asked the form gives the initial
    contact state, whatever the user wrote. *)
Theorem contact_state_without_form :
  forall chat_history : list ChatMessage,
    (forall m, In m chat_history -> asks_form m = false) ->
    get_contact_state chat_history = (false, O, false, false).
Proof. intros h H. apply contact_fold_unasked, H. Qed.

Lemma contact_state_without_form_witness :
  get_contact_state
    [mkChat "user" "sdt cua toi 0909123456" false false;
     mkChat "assistant" "Da em cam on anh" false false]
  = (false, O, false, false).
Proof.
  apply contact_state_without_form.
  intros m [<-|[<-|[]]]; vm_compute; reflexivity.
Defined.

(** X20: The contact detector and the contact extractor agree: a contact value is
    extracted from a message exactly when contact information is detected in
    it. *)
Theorem contact_detected_iff_extracted :
  forall message : string,
    detect_contact_info message = is_some (extract_contact_value message).
Proof.
  intros message. unfold detect_contact_info, extract_contact_value.
  destruct (normalize_text message) as [|c n] eqn:En.
  - vm_compute. reflexivity.
  - cbn [Str.is_empty]. unfold found.
    destruct (search PHONE_RE (String c n)); [reflexivity|].
    destruct (search LONG_DIGITS_RE (String c n));
      destruct (Str.contains "zalo" (String c n));
      destruct (Str.contains "sdt" (String c n)); reflexivity.
Qed.

End ContactFacts.

(** ** Merging the resolver result into a decision *)

Module MergeFacts.
Import Intent Resolver Merge DictFacts ResolverFacts.

Lemma get_if_set_other (c : bool) (k k' : string) (v' : pyval) (e : pydict) :
  k <> k' -> dict_get k (if c then dict_set k' v' e else e) = dict_get k e.
Proof. intros H. destruct c; [apply dict_get_set_other, H|reflexivity]. Qed.

Lemma get_robot_other (o : option bool) (k : string) (e : pydict) :
  k <> "is_robot" -> k <> "is_hand" ->
  dict_get k
    match o with
    | Some true =>
        dict_set "is_hand" (PBool false) (dict_set "is_robot" (PBool true) e)
    | Some false =>
        dict_set "is_hand" (PBool true) (dict_set "is_robot" (PBool false) e)
    | None => e
    end
  = dict_get k e.
Proof.
  intros H1 H2. destruct o as [[|]|]; [| |reflexivity];
    rewrite !dict_get_set_other by assumption; reflexivity.
Qed.

Lemma py_get_of (k : string) (e : pydict) (v : pyval) :
  dict_get k e = Some v -> py_get e k = v.
Proof. unfold py_get. intros ->. reflexivity. Qed.

(** A guarded write never replaces a truthy value. *)
Lemma get_guarded_set (c : bool) (k k' : string) (v v' : pyval) (e : pydict) :
  dict_get k e = Some v -> py_truthy v = true ->
  dict_get k (if (c && negb (py_truthy (py_get e k')))%bool
              then dict_set k' v' e else e) = Some v.
Proof.
  intros Hg Ht. destruct (String.eqb k k') eqn:Ek.
  - apply String.eqb_eq in Ek. subst k'.
    rewrite (py_get_of _ _ _ Hg), Ht, Bool.andb_false_r. exact Hg.
  - apply String.eqb_neq in Ek. rewrite get_if_set_other by exact Ek. exact Hg.
Qed.

Lemma get_fill_entities (cs : pydict) (keys : list string) :
  forall (e : pydict) (k : string) (v : pyval),
    dict_get k e = Some v -> py_truthy v = true ->
    dict_get k (fold_left (fill_entity cs) keys e) = Some v.
Proof.
  induction keys as [|key keys IH]; intros e k v Hg Ht; [exact Hg|].
  cbn [fold_left]. apply IH; [|exact Ht].
  unfold fill_entity. apply get_guarded_set; assumption.
Qed.

Lemma get_fill_entities_other (cs : pydict) (keys : list string) :
  forall (e : pydict) (k : string),
    ~ In k keys ->
    dict_get k (fold_left (fill_entity cs) keys e) = dict_get k e.
Proof.
  induction keys as [|key keys IH]; intros e k Hk; [reflexivity|].
  cbn [fold_left]. rewrite IH by (intros H; apply Hk; right; exact H).
  unfold fill_entity. apply get_if_set_other.
  intros ->. apply Hk. left. reflexivity.
Qed.

(** The keys [merge_decision_with_resolved] writes whatever the entities hold. *)
Lemma merge_keeps_truthy (d : IntentDecision) (r : Resolved) (k : string)
  (v : pyval) :
  ~ In k ["is_robot"; "is_hand"; "required_categories"; "expand_bundle";
          "bundle_hint"] ->
  dict_get k (entities d) = Some v -> py_truthy v = true ->
  dict_get k (entities (merge_decision_with_resolved d r)) = Some v.
Proof.
  intros Hk Hg Ht. unfold merge_decision_with_resolved. cbn [entities].
  cbn [In] in Hk.
  apply get_fill_entities; [|exact Ht].
  rewrite get_if_set_other by (intros ->; tauto).
  rewrite get_if_set_other by (intros ->; tauto).
  rewrite get_if_set_other by (intros ->; tauto).
  rewrite get_robot_other by (intros ->; tauto).
  apply get_guarded_set; [|exact Ht].
  apply get_guarded_set; [|exact Ht].
  apply get_guarded_set; [exact Hg|exact Ht].
Qed.

(** X21: [merge_decision_with_resolved] only fills gaps in what the generator
    decided: an entity that holds a truthy value keeps it (the torch type, the
    required categories and the bundle flags apart, which the resolver
    overrides), and an entity the function never writes is left as it is.
    With a resolved anchor the result has SKUs and no longer misses the SKU;
    nothing else is removed from the missing list. *)
Theorem merge_fills_gaps_only :
  forall (d : IntentDecision) (r : Resolved),
    let d' := merge_decision_with_resolved d r in
    (forall k v,
        ~ In k ["is_robot"; "is_hand"; "required_categories"; "expand_bundle";
                "bundle_hint"] ->
        dict_get k (entities d) = Some v -> py_truthy v = true ->
        dict_get k (entities d') = Some v) /\
    (forall k,
        ~ In k ["skus"; "product_group"; "amp"; "is_robot"; "is_hand";
                "required_categories"; "expand_bundle"; "bundle_hint";
                "size"; "length"; "thread"; "material"; "system"] ->
        dict_get k (entities d') = dict_get k (entities d)) /\
    (anchor_sku r <> "" ->
     py_truthy (py_get (entities d') "skus") = true /\
     ~ In "sku" (missing d')) /\
    (forall x, x <> "sku" -> (In x (missing d') <-> In x (missing d))) /\
    intent d' = intent d /\ next_action d' = next_action d.
Proof.
  intros d r d'. subst d'. split; [|split; [|split; [|split]]].
  - intros k v. apply merge_keeps_truthy.
  - intros k Hk. unfold merge_decision_with_resolved. cbn [entities].
    cbn [In] in Hk.
    rewrite get_fill_entities_other by (cbn [In]; tauto).
    rewrite get_if_set_other by (intros ->; tauto).
    rewrite get_if_set_other by (intros ->; tauto).
    rewrite get_if_set_other by (intros ->; tauto).
    rewrite get_robot_other by (intros ->; tauto).
    rewrite get_if_set_other by (intros ->; tauto).
    rewrite get_if_set_other by (intros ->; tauto).
    rewrite get_if_set_other by (intros ->; tauto).
    reflexivity.
  - intros Ha. apply nonempty_true in Ha. split.
    + assert (Hsk : exists v, dict_get "skus"
                 (if (nonempty (anchor_sku r)
                      && negb (py_truthy (py_get (entities d) "skus")))%bool
                  then dict_set "skus" (PList [PStr (anchor_sku r)]) (entities d)
                  else entities d) = Some v /\ py_truthy v = true).
      { rewrite Ha. cbn [andb].
        destruct (py_truthy (py_get (entities d) "skus")) eqn:Et; cbn [negb].
        - unfold py_get in Et. destruct (dict_get "skus" (entities d)) as [v|];
            [|discriminate Et]. exists v. auto.
        - exists (PList [PStr (anchor_sku r)]). rewrite dict_get_set_same. auto. }
      destruct Hsk as (v & Hg & Ht).
      unfold merge_decision_with_resolved. cbn [entities].
      erewrite py_get_of; [exact Ht|].
      apply get_fill_entities; [|exact Ht].
      rewrite get_if_set_other by discriminate.
      rewrite get_if_set_other by discriminate.
      rewrite get_if_set_other by discriminate.
      rewrite get_robot_other by discriminate.
      apply get_guarded_set; [|exact Ht].
      apply get_guarded_set; [exact Hg|exact Ht].
    + unfold merge_decision_with_resolved. cbn [missing]. rewrite Ha. cbn [andb].
      destruct (Str.mem "sku" (missing d)) eqn:Em.
      * intros Hin. apply filter_In in Hin. destruct Hin as [_ Hin].
        discriminate Hin.
      * apply mem_not_In, Em.
  - intros x Hx. unfold merge_decision_with_resolved. cbn [missing].
    destruct (nonempty (anchor_sku r) && Str.mem "sku" (missing d))%bool;
      [|tauto].
    rewrite filter_In. apply String.eqb_neq in Hx. rewrite Hx. cbn. tauto.
  - split; reflexivity.
Qed.

Lemma merge_fills_gaps_only_witness :
  py_truthy
    (py_get
       (entities
          (merge_decision_with_resolved
             (mkDecision "PRODUCT_LOOKUP" true false "product"
                         [("amp", PStr "500A")] ["sku"; "contact"]
                         "ASK_FOR_SKU_OR_GROUP" [])
             (mkResolved "004002" "TIP" "Bec han" true "TIP" (PStr "350A") None
                         [] false false [("system", PStr "N")] "" false)))
       "skus") = true /\
  ~ In "sku"
      (missing
         (merge_decision_with_resolved
            (mkDecision "PRODUCT_LOOKUP" true false "product"
                        [("amp", PStr "500A")] ["sku"; "contact"]
                        "ASK_FOR_SKU_OR_GROUP" [])
            (mkResolved "004002" "TIP" "Bec han" true "TIP" (PStr "350A") None
                        [] false false [("system", PStr "N")] "" false))).
Proof.
  apply (proj1 (proj2 (proj2 (merge_fills_gaps_only _ _)))). discriminate.
Defined.

End MergeFacts.

(** ** Catalog lookups by code *)

Module CatalogFacts.
Import Slots Guard Catalog DictFacts GuardFacts.

Lemma find_item_loop_spec (n ds : string) (items : list ResourceItem) :
  match find_item_loop items n ds with
  | Some item =>
      exists before after,
        items = (before ++ item :: after)%list /\
        code item <> "" /\
        (normalize_text (code item) = n \/
         (ds <> "" /\ extract_digits (code item) = ds)) /\
        (forall x, In x before ->
                   ~ (code x <> "" /\
                      (normalize_text (code x) = n \/
                       (ds <> "" /\ extract_digits (code x) = ds))))
  | None =>
      forall x, In x items ->
                ~ (code x <> "" /\
                   (normalize_text (code x) = n \/
                    (ds <> "" /\ extract_digits (code x) = ds)))
  end.
Proof.
  induction items as [|item items IH]; cbn [find_item_loop].
  - intros x [].
  - assert (Hskip :
      ~ (code item <> "" /\
         (normalize_text (code item) = n \/
          (ds <> "" /\ extract_digits (code item) = ds))) ->
      match find_item_loop items n ds with
      | Some it =>
          exists before after,
            (item :: items) = (before ++ it :: after)%list /\
            code it <> "" /\
            (normalize_text (code it) = n \/
             (ds <> "" /\ extract_digits (code it) = ds)) /\
            (forall x, In x before ->
                       ~ (code x <> "" /\
                          (normalize_text (code x) = n \/
                           (ds <> "" /\ extract_digits (code x) = ds))))
      | None =>
          forall x, In x (item :: items) ->
                    ~ (code x <> "" /\
                       (normalize_text (code x) = n \/
                        (ds <> "" /\ extract_digits (code x) = ds)))
      end).
    { intros Hno. destruct (find_item_loop items n ds) as [it|].
      - destruct IH as (before & after & -> & H1 & H2 & H3).
        exists (item :: before), after. split; [reflexivity|].
        split; [exact H1|]. split; [exact H2|].
        intros x [<-|Hx]; [exact Hno|apply H3, Hx].
      - intros x [<-|Hx]; [exact Hno|apply IH, Hx]. }
    destruct (Str.is_empty (code item)) eqn:Ee.
    { apply Hskip. intros [Hc _]. destruct (code item); [auto|discriminate Ee]. }
    assert (Hc : code item <> "").
    { intros H. rewrite H in Ee. discriminate Ee. }
    destruct (String.eqb (normalize_text (code item)) n) eqn:En.
    { apply String.eqb_eq in En. exists [], items. cbn. auto. }
    apply String.eqb_neq in En.
    destruct (Str.is_empty ds) eqn:Ed; cbn [negb andb].
    { apply Hskip. intros [_ [H|[H _]]]; [contradiction|].
      destruct ds; [auto|discriminate Ed]. }
    assert (Hd : ds <> "").
    { intros H. rewrite H in Ed. discriminate Ed. }
    destruct (String.eqb (extract_digits (code item)) ds) eqn:Ex.
    { apply String.eqb_eq in Ex. exists [], items.
      split; [reflexivity|]. split; [exact Hc|].
      split; [right; split; assumption|]. intros x []. }
    apply String.eqb_neq in Ex.
    apply Hskip. intros [_ [H|[_ H]]]; contradiction.
Qed.

(** X22: [find_item_by_selected_sku] returns the first item with a code whose
    normalised code equals the normalised SKU or whose digits are the digits
    of the SKU; it returns nothing exactly when the SKU is empty or no item
    matches in that way. *)
Theorem find_item_is_first_match :
  forall (items : list ResourceItem) (selected_sku : string),
    match find_item_by_selected_sku items selected_sku with
    | Some item =>
        selected_sku <> "" /\
        exists before after,
          items = (before ++ item :: after)%list /\
          code item <> "" /\
          (normalize_text (code item) = normalize_text selected_sku \/
           (extract_digits selected_sku <> "" /\
            extract_digits (code item) = extract_digits selected_sku)) /\
          (forall x, In x before ->
                     ~ (code x <> "" /\
                        (normalize_text (code x) = normalize_text selected_sku \/
                         (extract_digits selected_sku <> "" /\
                          extract_digits (code x) = extract_digits selected_sku))))
    | None =>
        selected_sku = "" \/
        forall x, In x items ->
                  ~ (code x <> "" /\
                     (normalize_text (code x) = normalize_text selected_sku \/
                      (extract_digits selected_sku <> "" /\
                       extract_digits (code x) = extract_digits selected_sku)))
    end.
Proof.
  intros items sku. unfold find_item_by_selected_sku.
  destruct items as [|i0 items]; cbn [Str.is_empty_list orb].
  - right. intros x [].
  - destruct sku as [|c sku]; cbn [Str.is_empty].
    + left. reflexivity.
    + pose proof (find_item_loop_spec (normalize_text (String c sku))
                    (extract_digits (String c sku)) (i0 :: items)) as H.
      destruct (find_item_loop (i0 :: items) _ _) as [item|].
      * split; [discriminate|exact H].
      * right. exact H.
Qed.

Lemma mem_single (x y : string) : Str.mem x [y] = String.eqb x y.
Proof. unfold Str.mem. cbn. apply Bool.orb_false_r. Qed.

(** X23: The item found for a selected SKU is the first item with a code among
    those [match_items_by_codes] matches for that SKU alone. *)
Theorem find_item_agrees_with_match_items :
  forall (items : list ResourceItem) (selected_sku : string),
    find_item_by_selected_sku items selected_sku
    = hd_error (filter (fun item => negb (Str.is_empty (code item)))
                       (match_items_by_codes items [selected_sku])).
Proof.
  intros items sku. unfold find_item_by_selected_sku, match_items_by_codes.
  destruct (Str.is_empty_list items) eqn:El; cbn [orb Str.is_empty_list];
    [reflexivity|]. clear El.
  destruct sku as [|c sku].
  - cbv [extract_digits].
    cbn [Str.is_empty filter negb map Str.filter_chars Str.mem existsb orb].
    induction items as [|x l IH]; [reflexivity|].
    cbn [filter]. rewrite Bool.andb_false_r. exact IH.
  - cbn [Str.is_empty filter negb map].
    induction items as [|x l IH]; [reflexivity|].
    cbn [find_item_loop filter].
    destruct (Str.is_empty (code x)) eqn:Ee.
    + destruct (_ || _)%bool; cbn [filter]; rewrite ?Ee; cbn [negb]; exact IH.
    + rewrite mem_single.
      destruct (String.eqb (normalize_text (code x))
                           (normalize_text (String c sku))) eqn:En.
      * cbn [orb filter]. rewrite Ee. reflexivity.
      * cbn [orb].
        destruct (Str.is_empty (extract_digits (String c sku))) eqn:Ed;
          cbn [negb andb map].
        -- cbn [Str.mem existsb]. rewrite Bool.andb_false_r. exact IH.
        -- rewrite mem_single.
           destruct (String.eqb (extract_digits (code x))
                                (extract_digits (String c sku))) eqn:Ex.
           ++ apply String.eqb_eq in Ex. rewrite Ex, Ed. cbn [negb andb filter].
              rewrite Ee. reflexivity.
           ++ rewrite Bool.andb_false_r. exact IH.
Qed.

Lemma space_not_digit (c : ascii) :
  Str.is_space c = true -> Str.is_digit c = false.
Proof.
  intros H. destruct (Str.is_digit c) eqn:E; [|reflexivity].
  apply digit_not_space in E. congruence.
Qed.

Lemma filter_digits_lstrip (s : string) :
  Str.filter_chars Str.is_digit (Str.lstrip s) = Str.filter_chars Str.is_digit s.
Proof.
  induction s as [|c s IH]; [reflexivity|].
  cbn [Str.lstrip]. destruct (Str.is_space c) eqn:E; [|reflexivity].
  cbn [Str.filter_chars]. rewrite (space_not_digit _ E). exact IH.
Qed.

Lemma filter_rev_acc (p : ascii -> bool) (s : string) :
  forall a, Str.filter_chars p (Str.rev_acc s a)
            = Str.rev_acc (Str.filter_chars p s) (Str.filter_chars p a).
Proof.
  induction s as [|c s IH]; intros a; [reflexivity|].
  cbn [Str.rev_acc Str.filter_chars]. rewrite IH. cbn [Str.filter_chars].
  destruct (p c); reflexivity.
Qed.

Lemma filter_digits_strip (s : string) :
  Str.filter_chars Str.is_digit (Str.strip s) = Str.filter_chars Str.is_digit s.
Proof.
  unfold Str.strip, Str.rstrip, Str.rev.
  rewrite filter_rev_acc, filter_digits_lstrip, filter_rev_acc,
    filter_digits_lstrip.
  cbn [Str.filter_chars]. rewrite rev_acc_rev_acc. cbn [Str.rev_acc].
  apply append_empty_r.
Qed.

Lemma filter_filter (p : ascii -> bool) (s : string) :
  Str.filter_chars p (Str.filter_chars p s) = Str.filter_chars p s.
Proof.
  induction s as [|c s IH]; [reflexivity|].
  cbn [Str.filter_chars]. destruct (p c) eqn:E; [|exact IH].
  cbn [Str.filter_chars]. rewrite E, IH. reflexivity.
Qed.

(** X24: The two display formats of a code are the same function, and formatting
    keeps the digits of the code: formatting a formatted code changes
    nothing when the code has a digit. *)
Theorem format_tokin_keeps_digits :
  forall code : string,
    format_sku_display code = format_tokin code /\
    extract_digits (format_tokin code) = extract_digits code /\
    (extract_digits code <> "" ->
     format_tokin (format_tokin code) = format_tokin code).
Proof.
  intros code.
  assert (Hd : extract_digits (format_tokin code) = extract_digits code).
  { unfold format_tokin.
    destruct (Str.is_empty (extract_digits code)); cbn [negb].
    - apply filter_digits_strip.
    - unfold extract_digits. cbn. apply filter_filter. }
  split; [|split; [exact Hd|]].
  - unfold format_sku_display, format_tokin. destruct code; reflexivity.
  - intros Hne. unfold format_tokin at 1. rewrite Hd.
    unfold format_tokin.
    destruct (extract_digits code); [contradiction|reflexivity].
Qed.

Lemma format_tokin_keeps_digits_witness :
  format_tokin (format_tokin " tokin-004002 ") = format_tokin " tokin-004002 ".
Proof.
  apply (proj2 (proj2 (format_tokin_keeps_digits _))).
  vm_compute. discriminate.
Defined.

End CatalogFacts.

(** ** Soundness of the matcher *)

Module ReFacts.
Import Re ReSpec UtilsFacts GuardFacts.

Lemma star_loop_sound (a : re) (body : state -> caps -> cont -> option (nat * caps)) :
  (forall st cs k res,
      body st cs k = Some res ->
      exists st' cs', derives a st cs st' cs' /\ k st' cs' = Some res) ->
  forall fuel st cs k res,
    star_loop fuel body st cs k = Some res ->
    exists st' cs', derives (Star a) st cs st' cs' /\ k st' cs' = Some res.
Proof.
  intros Hbody. induction fuel as [|f IH]; intros st cs k res H.
  - cbn in H. exists st, cs. split; [constructor|exact H].
  - cbn [star_loop] in H.
    destruct (body st cs
                (fun st' cs' =>
                   if Nat.ltb (pos st) (pos st')
                   then star_loop f body st' cs' k else None)) as [r|] eqn:Eb.
    + injection H as ->. apply Hbody in Eb.
      destruct Eb as (st1 & cs1 & Hd & Hk).
      destruct (Nat.ltb (pos st) (pos st1)); [|discriminate Hk].
      apply IH in Hk. destruct Hk as (st2 & cs2 & Hd2 & Hk2).
      exists st2, cs2. split; [|exact Hk2]. eapply D_star_cons; eassumption.
    + exists st, cs. split; [constructor|exact H].
Qed.

(** Whatever [run] accepts, it accepts along a derivation. *)
Lemma run_sound (r : re) :
  forall st cs k res,
    run r st cs k = Some res ->
    exists st' cs', derives r st cs st' cs' /\ k st' cs' = Some res.
Proof.
  induction r as [|p|a IHa b IHb|a IHa b IHb|a IHa|n a IHa|];
    intros st cs k res H; cbn [run] in H.
  - exists st, cs. split; [constructor|exact H].
  - destruct (rest st) as [|c s'] eqn:Er; [discriminate H|].
    destruct (p c) eqn:Ep; [|discriminate H].
    eexists _, cs. split; [|exact H]. apply D_chr; assumption.
  - apply IHa in H. destruct H as (st1 & cs1 & Hd1 & H).
    apply IHb in H. destruct H as (st2 & cs2 & Hd2 & H).
    exists st2, cs2. split; [|exact H]. eapply D_seq; eassumption.
  - destruct (run a st cs k) as [x|] eqn:Ea.
    + injection H as ->. apply IHa in Ea.
      destruct Ea as (st1 & cs1 & Hd & Hk).
      exists st1, cs1. split; [|exact Hk]. apply D_alt_l, Hd.
    + apply IHb in H. destruct H as (st1 & cs1 & Hd & Hk).
      exists st1, cs1. split; [|exact Hk]. apply D_alt_r, Hd.
  - eapply star_loop_sound; [exact IHa|exact H].
  - apply IHa in H. destruct H as (st1 & cs1 & Hd & Hk).
    eexists st1, _. split; [|exact Hk]. apply D_grp, Hd.
  - destruct (at_boundary st) eqn:Eb; [|discriminate H].
    exists st, cs. split; [|exact H]. apply D_wb, Eb.
Qed.

(** A derivation consumes a piece of the text. *)
Lemma derives_consumed r st cs st' cs' :
  derives r st cs st' cs' ->
  exists mid, rest st = mid ++ rest st' /\
              pos st' = (pos st + String.length mid)%nat.
Proof.
  induction 1.
  - exists "". cbn. split; [reflexivity|lia].
  - exists (String c ""). cbn. split; [assumption|lia].
  - destruct IHderives1 as (m1 & H1 & P1). destruct IHderives2 as (m2 & H2 & P2).
    exists (m1 ++ m2). rewrite append_assoc, <- H2, <- H1, length_append.
    split; [reflexivity|lia].
  - assumption.
  - assumption.
  - exists "". cbn. split; [reflexivity|lia].
  - destruct IHderives1 as (m1 & H1 & P1). destruct IHderives2 as (m2 & H2 & P2).
    exists (m1 ++ m2). rewrite append_assoc, <- H2, <- H1, length_append.
    split; [reflexivity|lia].
  - assumption.
  - exists "". cbn. split; [reflexivity|lia].
Qed.

Lemma derives_at_pos subj r st cs st' cs' :
  derives r st cs st' cs' -> at_pos subj st -> at_pos subj st'.
Proof.
  intros Hd (pre & Hs & Hl). apply derives_consumed in Hd.
  destruct Hd as (mid & Hr & Hp). exists (pre ++ mid).
  rewrite append_assoc, <- Hr, length_append. split; [exact Hs|lia].
Qed.

Lemma groupless_caps r st cs st' cs' :
  derives r st cs st' cs' -> groupless r = true -> cs' = cs.
Proof.
  induction 1; cbn [groupless]; intros Hg;
    try apply Bool.andb_true_iff in Hg; try reflexivity; try discriminate.
  - destruct Hg as [Ha Hb]. rewrite IHderives2, IHderives1 by assumption.
    reflexivity.
  - apply IHderives, Hg.
  - apply IHderives, Hg.
  - rewrite IHderives2, IHderives1 by assumption. reflexivity.
Qed.

(** The text of a stretch of the subject. *)
Lemma group_text subj st st' mid :
  at_pos subj st -> rest st = mid ++ rest st' ->
  pos st' = (pos st + String.length mid)%nat ->
  String.substring (pos st) (pos st' - pos st) subj = mid.
Proof.
  intros (pre & Hs & Hl) Hr Hp. subst subj. rewrite <- Hl, substring_skip, Hr.
  replace (pos st' - String.length pre)%nat with (String.length mid) by lia.
  apply substring_prefix.
Qed.

(** *** Repetitions of a character class *)

Lemma all_chars_app p a b :
  Str.all_chars p (a ++ b) = (Str.all_chars p a && Str.all_chars p b)%bool.
Proof.
  induction a as [|c a IH]; cbn; [reflexivity|]. rewrite IH.
  apply Bool.andb_assoc.
Qed.

Lemma derives_chr p st cs st' cs' :
  derives (Chr p) st cs st' cs' ->
  exists c, rest st = String c (rest st') /\ p c = true /\
            pos st' = S (pos st) /\ cs' = cs.
Proof.
  intros H. inversion H; subst. exists c. cbn. auto.
Qed.

Lemma derives_times p n :
  forall st cs st' cs',
    derives (times n (Chr p)) st cs st' cs' ->
    exists mid, rest st = mid ++ rest st' /\ String.length mid = n /\
                Str.all_chars p mid = true /\
                pos st' = (pos st + n)%nat /\ cs' = cs.
Proof.
  induction n as [|n IH]; intros st cs st' cs' H; cbn [times] in H.
  - inversion H; subst. exists "". cbn. repeat split; try reflexivity. lia.
  - inversion H; subst.
    match goal with
    | Ha : derives (Chr p) _ _ _ _, Hb : derives (times n _) _ _ _ _ |- _ =>
        apply derives_chr in Ha; destruct Ha as (c & Hr & Hc & Hp & ->);
        apply IH in Hb; destruct Hb as (mid & Hr' & Hl & Hall & Hp' & ->)
    end.
    exists (String c mid). cbn. rewrite Hr, Hr', Hl, Hc, Hall.
    repeat split; try reflexivity. lia.
Qed.

Lemma derives_upto p n :
  forall st cs st' cs',
    derives (upto n (Chr p)) st cs st' cs' ->
    exists mid, rest st = mid ++ rest st' /\ (String.length mid <= n)%nat /\
                Str.all_chars p mid = true /\
                pos st' = (pos st + String.length mid)%nat /\ cs' = cs.
Proof.
  induction n as [|n IH]; intros st cs st' cs' H; cbn [upto opt] in H.
  - inversion H; subst. exists "". cbn. repeat split; try reflexivity; lia.
  - inversion H; subst.
    + match goal with
      | Hs : derives (Seq _ _) _ _ _ _ |- _ => inversion Hs; subst
      end.
      match goal with
      | Ha : derives (Chr p) _ _ _ _, Hb : derives (upto n _) _ _ _ _ |- _ =>
          apply derives_chr in Ha; destruct Ha as (c & Hr & Hc & Hp & ->);
          apply IH in Hb; destruct Hb as (mid & Hr' & Hl & Hall & Hp' & ->)
      end.
      exists (String c mid). cbn. rewrite Hr, Hr', Hc, Hall.
      repeat split; try reflexivity; lia.
    + match goal with
      | He : derives Eps _ _ _ _ |- _ => inversion He; subst
      end.
      exists "". cbn. repeat split; try reflexivity; lia.
Qed.

Lemma derives_rep p m n :
  forall st cs st' cs',
    derives (rep m n (Chr p)) st cs st' cs' ->
    exists mid, rest st = mid ++ rest st' /\
                (m <= String.length mid <= m + (n - m))%nat /\
                Str.all_chars p mid = true /\
                pos st' = (pos st + String.length mid)%nat /\ cs' = cs.
Proof.
  intros st cs st' cs' H. unfold rep in H. inversion H; subst.
  match goal with
  | Ha : derives (times m _) _ _ _ _, Hb : derives (upto _ _) _ _ _ _ |- _ =>
      apply derives_times in Ha; destruct Ha as (m1 & Hr1 & Hl1 & Ha1 & Hp1 & ->);
      apply derives_upto in Hb; destruct Hb as (m2 & Hr2 & Hl2 & Ha2 & Hp2 & ->)
  end.
  exists (m1 ++ m2). rewrite append_assoc, <- Hr2, <- Hr1, length_append,
    all_chars_app, Ha1, Ha2.
  repeat split; try reflexivity; lia.
Qed.

(** *** Search *)

Lemma search_at_sound r subj :
  forall s p pv m,
    search_at r subj p pv s = Some m ->
    (exists pre, subj = pre ++ s /\ String.length pre = p) ->
    exists st0,
      at_pos subj st0 /\
      run r st0 [] accept = Some (m_end m, m_caps m) /\
      subject m = subj /\ m_start m = pos st0.
Proof.
  induction s as [|c s IH]; intros p pv m H Hpos; cbn [search_at] in H.
  - destruct (run r (mkState p pv "") [] accept) as [[e cs]|] eqn:Er;
      [|discriminate H].
    injection H as <-. exists (mkState p pv ""). cbn.
    split; [exact Hpos|]. auto.
  - destruct (run r (mkState p pv (String c s)) [] accept) as [[e cs]|] eqn:Er.
    + injection H as <-. exists (mkState p pv (String c s)). cbn.
      split; [exact Hpos|]. auto.
    + apply IH in H; [exact H|].
      destruct Hpos as (pre & Hs & Hl). exists (pre ++ String c "").
      rewrite append_assoc, length_append. cbn. split; [exact Hs|lia].
Qed.

(** A match found by [search] is a derivation from a position of the
    subject. *)
Lemma search_derives r s m :
  search r s = Some m ->
  exists st0 st1,
    at_pos s st0 /\ derives r st0 [] st1 (m_caps m) /\
    subject m = s /\ m_start m = pos st0 /\ m_end m = pos st1.
Proof.
  unfold search. intros H. apply search_at_sound in H.
  - destruct H as (st0 & Hat & Hrun & Hs & Hst).
    apply run_sound in Hrun. destruct Hrun as (st1 & cs1 & Hd & Hacc).
    unfold accept in Hacc. injection Hacc as He Hc. subst cs1.
    exists st0, st1. auto.
  - exists "". cbn. auto.
Qed.

(** *** Values of digit strings *)

Lemma digit_val_range (c : ascii) :
  Str.is_digit c = true -> (0 <= Str.digit_val c <= 9)%Z.
Proof.
  unfold Str.is_digit, Str.in_range, Str.digit_val. intros H.
  apply Bool.andb_true_iff in H. destruct H as [H1 H2].
  apply N.leb_le in H1. apply N.leb_le in H2. lia.
Qed.

Lemma digits_value_bound (s : string) :
  forall acc b,
    Str.all_chars Str.is_digit s = true ->
    (b = true \/ s <> "") ->
    exists n,
      Str.digits_value s acc b = Some n /\
      (acc * 10 ^ Z.of_nat (String.length s) <= n
       < (acc + 1) * 10 ^ Z.of_nat (String.length s))%Z.
Proof.
  induction s as [|c s IH]; intros acc b Hall Hb.
  - destruct Hb as [-> | Hb]; [|contradiction]. exists acc. cbn. split; [reflexivity|lia].
  - cbn [Str.all_chars] in Hall. apply Bool.andb_true_iff in Hall.
    destruct Hall as [Hc Hall]. cbn [Str.digits_value]. rewrite Hc.
    destruct (IH (10 * acc + Str.digit_val c)%Z true Hall (or_introl eq_refl))
      as (n & Hn & Hbound).
    exists n. split; [exact Hn|].
    pose proof (digit_val_range _ Hc) as Hd.
    cbn [String.length]. rewrite Nat2Z.inj_succ, Z.pow_succ_r by lia.
    assert (Hpow : (0 < 10 ^ Z.of_nat (String.length s))%Z)
      by (apply Z.pow_pos_nonneg; lia).
    nia.
Qed.

Lemma py_int_of_digits (s : string) :
  Str.all_chars Str.is_digit s = true -> s <> "" ->
  (String.length s <= Str.MAX_STR_DIGITS)%nat ->
  exists n, Str.py_int s = Ok n /\
            (0 <= n < 10 ^ Z.of_nat (String.length s))%Z.
Proof.
  intros Hall Hne Hl.
  destruct (digits_value_bound s 0 false Hall (or_intror Hne)) as (n & Hn & Hb).
  exists n. split; [|lia].
  destruct (GuardFacts.py_int_unsigned s Hall Hne) as (n' & Hn' & ->).
  rewrite (proj2 (Nat.ltb_ge _ _) Hl). congruence.
Qed.

Lemma six_digits_allowed (n : nat) :
  (n <= 6)%nat -> (n <= Str.MAX_STR_DIGITS)%nat.
Proof.
  intros H. apply (Nat.le_trans _ 6 _ H). apply Nat.leb_le. vm_compute.
  reflexivity.
Qed.

End ReFacts.

(** ** Ranges of the extracted slots *)

Module SlotRanges.
Import Re Patterns Slots Dialogue ReSpec ReFacts UtilsFacts GuardFacts SlotFacts.

Ltac inv H := inversion H; subst; clear H.

(** The text a group [(c{lo,hi})] captured. *)
Lemma grp_rep_text subj k lo hi p st cs st' cs' :
  derives (Grp k (rep lo hi (Chr p))) st cs st' cs' -> at_pos subj st ->
  cs' = (k, (pos st, pos st')) :: cs /\
  (lo <= String.length (String.substring (pos st) (pos st' - pos st) subj)
   <= lo + (hi - lo))%nat /\
  Str.all_chars p (String.substring (pos st) (pos st' - pos st) subj) = true.
Proof.
  intros H Hat. inv H.
  match goal with
  | Hd : derives (rep _ _ _) _ _ _ _ |- _ =>
      apply derives_rep in Hd; destruct Hd as (mid & Hrest & Hl & Hall & Hp & ->)
  end.
  rewrite (group_text subj st st' mid Hat Hrest Hp). auto.
Qed.

Lemma grp_times_text subj k n p st cs st' cs' :
  derives (Grp k (times n (Chr p))) st cs st' cs' -> at_pos subj st ->
  cs' = (k, (pos st, pos st')) :: cs /\
  String.length (String.substring (pos st) (pos st' - pos st) subj) = n /\
  Str.all_chars p (String.substring (pos st) (pos st' - pos st) subj) = true.
Proof.
  intros H Hat. inv H.
  match goal with
  | Hd : derives (times _ _) _ _ _ _ |- _ =>
      apply derives_times in Hd; destruct Hd as (mid & Hrest & Hl & Hall & Hp & ->)
  end.
  assert (Hp' : pos st' = (pos st + String.length mid)%nat) by lia.
  rewrite (group_text subj st st' mid Hat Hrest Hp'). auto.
Qed.

(** [int] of one to six digits. *)
Lemma guarded_int_of_digits (g : string) :
  (1 <= String.length g <= 6)%nat -> Str.all_chars Str.is_digit g = true ->
  exists n,
    try_except (v <- Str.py_int g ;; Ok (Some v)) ValueError (Ok None)
    = Ok (Some n) /\ (0 <= n <= 999999)%Z.
Proof.
  intros Hl Hall.
  destruct (py_int_of_digits g Hall) as (n & Hn & Hb).
  { intros ->. cbn in Hl. lia. }
  { apply six_digits_allowed. lia. }
  exists n. rewrite Hn. split; [reflexivity|].
  assert (Hpow : (10 ^ Z.of_nat (String.length g) <= 10 ^ 6)%Z)
    by (apply Z.pow_le_mono_r; lia).
  change (10 ^ 6)%Z with 1000000%Z in Hpow. lia.
Qed.

Lemma so_luong_group m normalized :
  search SO_LUONG_RE normalized = Some m ->
  (1 <= String.length (group m 2) <= 6)%nat /\
  Str.all_chars Str.is_digit (group m 2) = true.
Proof.
  intros H. apply search_derives in H.
  destruct H as (st0 & st1 & Hat & Hd & <- & _ & _).
  unfold SO_LUONG_RE in Hd. cbn [seqs] in Hd.
  inv Hd.
  match goal with Hw : derives Wb _ _ _ _ |- _ => inv Hw end.
  match goal with Hq : derives (Seq _ _) _ _ _ _ |- _ => inv Hq end.
  match goal with Hg : derives (Grp 1 _) _ _ _ _ |- _ =>
    pose proof (derives_at_pos _ _ _ _ _ _ Hg Hat) as Hat1; clear Hg end.
  match goal with Hq : derives (Seq _ _) _ _ _ _ |- _ => inv Hq end.
  match goal with Hg : derives (Star _) _ _ _ _ |- _ =>
    pose proof (derives_at_pos _ _ _ _ _ _ Hg Hat1) as Hat2; clear Hg end.
  match goal with Hq : derives (Seq _ _) _ _ _ _ |- _ => inv Hq end.
  match goal with Hw : derives Wb _ _ _ _ |- _ => inv Hw end.
  match goal with Hg : derives (Grp 2 _) _ _ _ _ |- _ =>
    destruct (grp_rep_text (subject m) 2 1 6 Str.is_digit _ _ _ _ Hg Hat2)
      as (Hc & Hl & Hall) end.
  unfold group. rewrite Hc. cbn [lookup_cap Nat.eqb].
  split; [lia|exact Hall].
Qed.

Lemma quantity_group m normalized :
  search QUANTITY_RE normalized = Some m ->
  (1 <= String.length (group m 1) <= 6)%nat /\
  Str.all_chars Str.is_digit (group m 1) = true.
Proof.
  intros H. apply search_derives in H.
  destruct H as (st0 & st1 & Hat & Hd & <- & _ & _).
  unfold QUANTITY_RE in Hd. cbn [seqs] in Hd.
  inv Hd.
  match goal with Hw : derives Wb _ _ _ _ |- _ => inv Hw end.
  match goal with Hq : derives (Seq _ _) _ _ _ _ |- _ => inv Hq end.
  match goal with Hg : derives (Grp 1 _) _ _ _ _ |- _ =>
    destruct (grp_rep_text (subject m) 1 1 6 Str.is_digit _ _ _ _ Hg Hat)
      as (Hc & Hl & Hall);
    clear Hg end.
  match goal with Hq : derives (Seq _ _) _ _ _ _ |- _ => inv Hq end.
  match goal with Hg : derives (Star _) _ _ _ _ |- _ =>
    apply groupless_caps in Hg; [|reflexivity] end.
  match goal with Hq : derives (Seq _ _) _ _ _ _ |- _ => inv Hq end.
  match goal with Hw : derives Wb _ _ _ _ |- _ => inv Hw end.
  match goal with Hg : derives (Grp 2 _) _ _ _ _ |- _ => inv Hg end.
  match goal with Hg : derives (words _) _ _ _ _ |- _ =>
    apply groupless_caps in Hg; [|reflexivity] end.
  subst. unfold group.
  match goal with
  | Hm : m_caps m = _ |- _ => rewrite Hm
  | Hm : _ = m_caps m |- _ => rewrite <- Hm
  end.
  cbn [lookup_cap Nat.eqb].
  split; [lia|exact Hall].
Qed.

Lemma extract_quantity_spec :
  forall normalized : string,
    exists r,
      extract_quantity normalized = Ok r /\
      (forall q, r = Some q -> (0 <= q <= 999999)%Z) /\
      (r = None <->
       search SO_LUONG_RE normalized = None /\
       search QUANTITY_RE normalized = None).
Proof.
  intros normalized. unfold extract_quantity.
  destruct (search SO_LUONG_RE normalized) as [m|] eqn:E1.
  - destruct (so_luong_group _ _ E1) as [Hl Hall].
    destruct (guarded_int_of_digits _ Hl Hall) as (n & -> & Hn).
    exists (Some n). split; [reflexivity|]. split.
    + intros q H. injection H as <-. exact Hn.
    + split; [discriminate|]. intros [H _]. discriminate H.
  - destruct (search QUANTITY_RE normalized) as [m|] eqn:E2.
    + destruct (quantity_group _ _ E2) as [Hl Hall].
      destruct (guarded_int_of_digits _ Hl Hall) as (n & -> & Hn).
      exists (Some n). split; [reflexivity|]. split.
      * intros q H. injection H as <-. exact Hn.
      * split; [discriminate|]. intros [_ H]. discriminate H.
    + exists None. split; [reflexivity|]. split; [discriminate|]. tauto.
Qed.

(** X25: [extract_quantity] returns a quantity exactly when one of its two
    patterns matches, and the quantity then lies between 0 and 999999: the
    conversion of the captured digits never fails. *)
Theorem extract_quantity_in_range :
  forall normalized : string,
    exists r,
      extract_quantity normalized = Ok r /\
      (forall q, r = Some q -> (0 <= q <= 999999)%Z) /\
      (r = None <->
       search SO_LUONG_RE normalized = None /\
       search QUANTITY_RE normalized = None).
Proof. exact extract_quantity_spec. Qed.

Lemma amp_group m normalized :
  search AMP_ANY_RE normalized = Some m ->
  String.length (group m 1) = 3%nat /\
  Str.all_chars Str.is_digit (group m 1) = true.
Proof.
  intros H. apply search_derives in H.
  destruct H as (st0 & st1 & Hat & Hd & <- & _ & _).
  unfold AMP_ANY_RE in Hd. cbn [seqs] in Hd.
  inv Hd.
  match goal with Hw : derives Wb _ _ _ _ |- _ => inv Hw end.
  match goal with Hq : derives (Seq _ _) _ _ _ _ |- _ => inv Hq end.
  match goal with Hg : derives (Grp 1 _) _ _ _ _ |- _ =>
    destruct (grp_times_text (subject m) 1 3 Str.is_digit _ _ _ _ Hg Hat)
      as (Hc & Hl & Hall);
    clear Hg end.
  match goal with Hq : derives (Seq _ _) _ _ _ _ |- _ => inv Hq end.
  match goal with Hg : derives (Star _) _ _ _ _ |- _ =>
    apply groupless_caps in Hg; [|reflexivity] end.
  match goal with Hq : derives (Seq _ _) _ _ _ _ |- _ => inv Hq end.
  match goal with Hw : derives Wb _ _ _ _ |- _ => inv Hw end.
  match goal with Hg : derives (chr_ci _) _ _ _ _ |- _ =>
    apply groupless_caps in Hg; [|reflexivity] end.
  subst. unfold group.
  match goal with
  | Hm : m_caps m = _ |- _ => rewrite Hm
  | Hm : _ = m_caps m |- _ => rewrite <- Hm
  end.
  cbn [lookup_cap Nat.eqb].
  split; [exact Hl|exact Hall].
Qed.

(** X26: The slots [parse_user_input] fills are well formed: the normalised
    text is that of [normalize_text], a quantity lies between 0 and 999999, an
    amp is empty or three digits followed by "A", the product group is one of
    the five group names, and the amp constraint repeats the amp slot. *)
Theorem parsed_slots_well_formed :
  forall message : string,
    exists parsed,
      parse_user_input message = Ok parsed /\
      p_normalized parsed = normalize_text message /\
      (forall q, p_quantity parsed = Some q -> (0 <= q <= 999999)%Z) /\
      (p_amp parsed = "" \/
       exists ds, String.length ds = 3%nat /\
                  Str.all_chars Str.is_digit ds = true /\
                  p_amp parsed = ds ++ "A") /\
      (forall g, p_product_group parsed = Some g ->
                 In g ["TIP_BODY"; "INSULATOR"; "ORIFICE"; "NOZZLE"; "TIP"]) /\
      dict_get "amp" (p_constraints parsed) = Some (PStr (p_amp parsed)).
Proof.
  intros message. unfold parse_user_input.
  destruct (extract_codes message) as [codes primary_code].
  destruct (extract_quantity_spec (normalize_text message))
    as (q & Hq & Hrange & _).
  rewrite Hq. cbn [bind].
  destruct (extract_requested_parts message) as [required_parts expand_bundle].
  assert (Hc : exists group_ size len,
    extract_lookup_constraints message
    = Ok [("product_group", group_); ("amp", PStr (amp_of (normalize_text message)));
          ("size", size); ("length", len)]).
  { unfold extract_lookup_constraints.
    destruct (search TIP_SIZE_LEN_RE (normalize_text message)) as [m|].
    - destruct (guarded_float_returns (group m 1) PFloat PNone) as [size ->].
      destruct (guarded_int_returns (group m 2) PInt PNone) as [len ->].
      cbn [bind fst snd]. do 3 eexists. reflexivity.
    - destruct (search SIZE_RE (normalize_text message)) as [m|].
      + destruct (guarded_float_returns (group m 1) PFloat PNone) as [size ->].
        cbn [bind fst snd]. do 3 eexists. reflexivity.
      + cbn [bind fst snd]. do 3 eexists. reflexivity. }
  destruct Hc as (g & sz & ln & ->). cbn [bind].
  eexists. split; [reflexivity|].
  cbn [p_normalized p_quantity p_amp p_product_group p_constraints].
  split; [reflexivity|]. split; [exact Hrange|]. split; [|split].
  - unfold amp_of.
    destruct (search AMP_ANY_RE (normalize_text message)) as [m|] eqn:Ea.
    + right. destruct (amp_group _ _ Ea) as [Hl Hall].
      exists (group m 1). auto.
    + left. reflexivity.
  - intros grp. unfold detect_product_group.
    repeat match goal with
           | |- context [if ?b then _ else _] => destruct b
           end;
      intros H; try discriminate H; injection H as <-; cbn; tauto.
  - repeat match goal with
           | |- context [match ?x with Some _ => _ | None => _ end] => destruct x
           | |- context [if ?b then _ else _] => destruct b
           end;
      rewrite ?DictFacts.dict_get_set; reflexivity.
Qed.

End SlotRanges.

(** ** Quantity-only messages *)

Module PureQuantityFacts.
Import Re Patterns Slots Dialogue ReSpec PureQuantity ReFacts UtilsFacts
       GuardFacts SlotFacts SlotRanges.

Lemma star_loop_erase (a : re) :
  (forall st cs cs' k k',
      (forall st1 c1 c1', is_some (k st1 c1) = is_some (k' st1 c1')) ->
      is_some (run a st cs k) = is_some (run (erase a) st cs' k')) ->
  forall fuel st cs cs' k k',
    (forall st1 c1 c1', is_some (k st1 c1) = is_some (k' st1 c1')) ->
    is_some (star_loop fuel (run a) st cs k)
    = is_some (star_loop fuel (run (erase a)) st cs' k').
Proof.
  intros Ha. induction fuel as [|f IH]; intros st cs cs' k k' Hk.
  - cbn. apply Hk.
  - cbn [star_loop].
    specialize (Ha st cs cs'
      (fun st' c => if Nat.ltb (pos st) (pos st')
                    then star_loop f (run a) st' c k else None)
      (fun st' c => if Nat.ltb (pos st) (pos st')
                    then star_loop f (run (erase a)) st' c k' else None)).
    cbv beta in Ha.
    assert (Hrel : forall st1 c1 c1',
      is_some (if Nat.ltb (pos st) (pos st1)
               then star_loop f (run a) st1 c1 k else None)
      = is_some (if Nat.ltb (pos st) (pos st1)
                 then star_loop f (run (erase a)) st1 c1' k' else None)).
    { intros st1 c1 c1'. destruct (Nat.ltb (pos st) (pos st1)); [|reflexivity].
      apply IH, Hk. }
    specialize (Ha Hrel). specialize (Hk st cs cs').
    destruct (run a st cs _), (run (erase a) st cs' _);
      cbn [is_some] in *; try discriminate Ha; try reflexivity; exact Hk.
Qed.

(** Whether a pattern matches does not depend on its groups. *)
Lemma run_erase (r : re) :
  forall st cs cs' k k',
    (forall st1 c1 c1', is_some (k st1 c1) = is_some (k' st1 c1')) ->
    is_some (run r st cs k) = is_some (run (erase r) st cs' k').
Proof.
  induction r as [|p|a IHa b IHb|a IHa b IHb|a IHa|n a IHa|];
    intros st cs cs' k k' Hk; cbn [run erase].
  - apply Hk.
  - destruct (rest st) as [|c s']; [reflexivity|].
    destruct (p c); [apply Hk|reflexivity].
  - apply IHa. intros st1 c1 c1'. apply IHb, Hk.
  - specialize (IHa st cs cs' k k' Hk). specialize (IHb st cs cs' k k' Hk).
    destruct (run a st cs k), (run (erase a) st cs' k');
      cbn [is_some] in *; try discriminate IHa; try reflexivity; exact IHb.
  - apply star_loop_erase; [exact IHa|exact Hk].
  - apply IHa. intros st1 c1 c1'. apply Hk.
  - destruct (at_boundary st); [apply Hk|reflexivity].
Qed.

Lemma fullmatches_erase (r : re) (s : string) :
  fullmatches r s = fullmatches (erase r) s.
Proof.
  unfold fullmatches, fullmatch.
  pose proof (run_erase r (mkState 0 None s) [] [] at_end at_end) as H.
  assert (Hk : forall st1 (c1 c1' : caps),
             is_some (at_end st1 c1) = is_some (at_end st1 c1')).
  { intros st1 c1 c1'. unfold at_end. destruct (Str.is_empty (rest st1)); reflexivity. }
  specialize (H Hk).
  destruct (run r _ _ at_end) as [[e cs]|], (run (erase r) _ _ at_end) as [[e' cs']|];
    cbn [is_some] in H; try discriminate H; reflexivity.
Qed.

Lemma fullmatch_derives r s m :
  fullmatch r s = Some m ->
  exists st1,
    derives r (mkState 0 None s) [] st1 (m_caps m) /\
    rest st1 = "" /\ subject m = s.
Proof.
  unfold fullmatch. intros H.
  destruct (run r (mkState 0 None s) [] at_end) as [[e cs]|] eqn:Er;
    [|discriminate H].
  injection H as <-. apply run_sound in Er.
  destruct Er as (st1 & cs1 & Hd & Hend). unfold at_end in Hend.
  destruct (rest st1) eqn:Erest; [|discriminate Hend].
  injection Hend as _ ->. exists st1. cbn. auto.
Qed.

Lemma at_pos_start (s : string) : at_pos s (mkState 0 None s).
Proof. exists "". cbn. auto. Qed.

Lemma pure_digits_text (s : string) :
  fullmatches PURE_DIGITS_RE s = true ->
  (1 <= String.length s <= 6)%nat /\ Str.all_chars Str.is_digit s = true.
Proof.
  unfold fullmatches. destruct (fullmatch PURE_DIGITS_RE s) as [m|] eqn:E;
    [|discriminate]. intros _.
  apply fullmatch_derives in E. destruct E as (st1 & Hd & Hrest & _).
  apply (derives_rep Str.is_digit 1 6) in Hd.
  destruct Hd as (mid & Hr & Hl & Hall & _ & _). cbn [rest] in Hr.
  rewrite Hrest, append_empty_r in Hr. subst mid. split; [lia|exact Hall].
Qed.

Lemma qty_unit_group m s :
  fullmatch QTY_UNIT_VALUE_RE s = Some m ->
  (1 <= String.length (group m 1) <= 6)%nat /\
  Str.all_chars Str.is_digit (group m 1) = true.
Proof.
  intros H. apply fullmatch_derives in H.
  destruct H as (st1 & Hd & _ & <-).
  pose proof (at_pos_start (subject m)) as Hat.
  unfold QTY_UNIT_VALUE_RE in Hd. cbn [seqs] in Hd.
  inversion Hd; subst; clear Hd.
  match goal with Hg : derives (Grp 1 _) _ _ _ _ |- _ =>
    destruct (grp_rep_text (subject m) 1 1 6 Str.is_digit _ _ _ _ Hg Hat)
      as (Hc & Hl & Hall);
    clear Hg end.
  match goal with Hq : derives (Seq _ _) _ _ _ _ |- _ =>
    inversion Hq; subst; clear Hq end.
  match goal with Hg : derives (Star _) _ _ _ _ |- _ =>
    apply groupless_caps in Hg; [|reflexivity] end.
  match goal with Hg : derives (Grp 2 _) _ _ _ _ |- _ =>
    inversion Hg; subst; clear Hg end.
  match goal with Hg : derives unit_words _ _ _ _ |- _ =>
    apply groupless_caps in Hg; [|reflexivity] end.
  subst. unfold group.
  match goal with
  | Hm : m_caps m = _ |- _ => rewrite Hm
  | Hm : _ = m_caps m |- _ => rewrite <- Hm
  end.
  cbn [lookup_cap Nat.eqb pos] in *.
  split; [lia|exact Hall].
Qed.

Lemma int_of_quantity_digits (g : string) :
  (1 <= String.length g <= 6)%nat -> Str.all_chars Str.is_digit g = true ->
  exists n, Str.py_int g = Ok n /\ (0 <= n <= 999999)%Z.
Proof.
  intros Hl Hall.
  destruct (py_int_of_digits g Hall) as (n & Hn & Hb).
  { intros ->. cbn in Hl. lia. }
  { apply six_digits_allowed. lia. }
  exists n. split; [exact Hn|].
  assert (Hpow : (10 ^ Z.of_nat (String.length g) <= 10 ^ 6)%Z)
    by (apply Z.pow_le_mono_r; lia).
  change (10 ^ 6)%Z with 1000000%Z in Hpow. lia.
Qed.

(** X27: [parse_pure_quantity_value] raises nothing and reads a value from exactly
    the messages [is_pure_quantity_message] accepts; that value lies between
    0 and 999999. *)
Theorem pure_quantity_value_iff_pure_quantity :
  forall message : string,
    exists r,
      parse_pure_quantity_value message = Ok r /\
      is_some r = is_pure_quantity_message message /\
      (forall q, r = Some q -> (0 <= q <= 999999)%Z).
Proof.
  intros message. unfold parse_pure_quantity_value, is_pure_quantity_message.
  destruct (Str.is_empty (normalize_text message)).
  { exists None. split; [reflexivity|]. split; [reflexivity|discriminate]. }
  destruct (fullmatches PURE_DIGITS_RE (normalize_text message)) eqn:Ed.
  { destruct (pure_digits_text _ Ed) as [Hl Hall].
    destruct (int_of_quantity_digits _ Hl Hall) as (n & -> & Hn).
    exists (Some n). cbn [bind]. split; [reflexivity|]. split; [reflexivity|].
    intros q H. injection H as <-. exact Hn. }
  assert (Hmot : fullmatches MOT_VALUE_RE (normalize_text message)
                 = fullmatches PURE_MOT_RE (normalize_text message)).
  { rewrite (fullmatches_erase MOT_VALUE_RE), (fullmatches_erase PURE_MOT_RE).
    reflexivity. }
  assert (Hunit : fullmatches QTY_UNIT_VALUE_RE (normalize_text message)
                  = fullmatches PURE_QTY_UNIT_RE (normalize_text message)).
  { rewrite (fullmatches_erase QTY_UNIT_VALUE_RE),
      (fullmatches_erase PURE_QTY_UNIT_RE).
    reflexivity. }
  rewrite Hmot. unfold fullmatches in Hunit at 1.
  destruct (fullmatch QTY_UNIT_VALUE_RE (normalize_text message)) as [m|] eqn:Eu.
  - destruct (qty_unit_group _ _ Eu) as [Hl Hall].
    destruct (int_of_quantity_digits _ Hl Hall) as (n & -> & Hn).
    exists (Some n). cbn [bind]. split; [reflexivity|]. split.
    + rewrite <- Hunit.
      destruct (fullmatches PURE_MOT_RE (normalize_text message)); reflexivity.
    + intros q H. injection H as <-. exact Hn.
  - rewrite <- Hunit.
    destruct (fullmatches PURE_MOT_RE (normalize_text message)).
    + exists (Some 1%Z). split; [reflexivity|]. split; [reflexivity|].
      intros q H. injection H as <-. lia.
    + exists None. split; [reflexivity|]. split; [reflexivity|discriminate].
Qed.

End PureQuantityFacts.

(** ** Normalised text *)

Module TextFacts.
Import Re Patterns Slots ReSpec TextSpec Utils Logging UtilsFacts GuardFacts ReFacts
       CatalogFacts.

(** *** [re.sub] of a repeated character class *)

Lemma star_class_run (q : ascii -> bool) :
  forall s fuel p pv cs,
    (String.length s < fuel)%nat ->
    star_loop fuel (run (Chr q)) (mkState p pv s) cs accept
    = Some ((p + String.length (fst (span q s)))%nat, cs).
Proof.
  induction s as [|c s IH]; intros fuel p pv cs Hf;
    (destruct fuel as [|f]; [cbn in Hf; lia|]).
  - cbn. rewrite Nat.add_0_r. reflexivity.
  - cbn [star_loop run rest pos span].
    destruct (q c) eqn:Eq.
    + assert (Hlt : Nat.ltb p (S p) = true) by (apply Nat.ltb_lt; lia).
      rewrite Hlt. rewrite IH by (cbn in Hf; lia).
      cbn [fst String.length]. f_equal. f_equal. lia.
    + cbn. rewrite Nat.add_0_r. reflexivity.
Qed.

Lemma run_plus_class (q : ascii -> bool) (p : nat) (pv : option ascii) (s : string) :
  run (plus (Chr q)) (mkState p pv s) [] accept
  = match s with
    | String c s' =>
        if q c then Some ((S p + String.length (fst (span q s')))%nat, [])
        else None
    | EmptyString => None
    end.
Proof.
  unfold plus. cbn [run rest pos]. destruct s as [|c s']; [reflexivity|].
  destruct (q c); [|reflexivity].
  cbn [rest]. apply star_class_run. lia.
Qed.

Lemma sub_from_skip (r : re) (repl : string) :
  forall n s p pv,
    (n <= String.length s)%nat ->
    exists pv',
      sub_from r repl n p pv s = sub_from r repl 0 (p + n) pv' (drop n s).
Proof.
  induction n as [|n IH]; intros s p pv Hn.
  - exists pv. rewrite Nat.add_0_r. reflexivity.
  - destruct s as [|c s]; [cbn in Hn; lia|].
    cbn [sub_from drop]. destruct (IH s (S p) (Some c)) as [pv' ->].
    { cbn in Hn. lia. }
    exists pv'. f_equal. lia.
Qed.

Lemma span_length (q : ascii -> bool) (s : string) :
  (String.length (fst (span q s)) + String.length (snd (span q s))
   = String.length s)%nat.
Proof.
  induction s as [|c s IH]; [reflexivity|].
  cbn [span]. destruct (q c); cbn [fst snd String.length]; lia.
Qed.

Lemma drop_span (q : ascii -> bool) (s : string) :
  drop (String.length (fst (span q s))) s = snd (span q s).
Proof.
  induction s as [|c s IH]; [reflexivity|].
  cbn [span]. destruct (q c); cbn [fst snd String.length drop]; [exact IH|reflexivity].
Qed.

Lemma collapse_cons_run (q : ascii -> bool) (repl : string) (c c' : ascii)
  (s : string) :
  q c = true ->
  collapse q repl (String c (String c' s))
  = if q c' then collapse q repl (String c' s)
    else repl ++ collapse q repl (String c' s).
Proof. intros H. cbn [collapse]. rewrite H. reflexivity. Qed.

Lemma collapse_cons_last (q : ascii -> bool) (repl : string) (c : ascii) :
  q c = true -> collapse q repl (String c "") = repl.
Proof. intros H. cbn [collapse]. rewrite H. reflexivity. Qed.

Lemma collapse_cons_other (q : ascii -> bool) (repl : string) (c : ascii)
  (s : string) :
  q c = false -> collapse q repl (String c s) = String c (collapse q repl s).
Proof. intros H. cbn [collapse]. rewrite H. reflexivity. Qed.

Lemma collapse_run (q : ascii -> bool) (repl : string) :
  forall s c,
    q c = true ->
    collapse q repl (String c s) = repl ++ collapse q repl (snd (span q s)).
Proof.
  induction s as [|c' s IH]; intros c Hc.
  - rewrite (collapse_cons_last _ _ _ Hc). symmetry. apply append_empty_r.
  - rewrite (collapse_cons_run _ _ _ _ _ Hc). cbn [span].
    destruct (q c') eqn:Ec'; cbn [snd].
    + apply IH, Ec'.
    + reflexivity.
Qed.

Lemma sub_plus_class_bounded (q : ascii -> bool) (repl : string) :
  forall n s,
    (String.length s <= n)%nat ->
    forall p pv, sub_from (plus (Chr q)) repl 0 p pv s = collapse q repl s.
Proof.
  induction n as [|n IH]; intros s Hn p pv.
  - destruct s; [reflexivity|cbn in Hn; lia].
  - destruct s as [|c s]; [reflexivity|].
    cbn [sub_from]. rewrite run_plus_class.
    destruct (q c) eqn:Ec.
    + assert (Hlt : Nat.ltb p (S p + String.length (fst (span q s))) = true)
        by (apply Nat.ltb_lt; lia).
      rewrite Hlt.
      replace (S p + String.length (fst (span q s)) - p - 1)%nat
        with (String.length (fst (span q s))) by lia.
      pose proof (span_length q s) as Hsp.
      destruct (sub_from_skip (plus (Chr q)) repl
                  (String.length (fst (span q s))) s (S p) (Some c))
        as [pv' ->]; [lia|].
      rewrite drop_span, IH by (cbn in Hn; lia).
      symmetry. apply collapse_run, Ec.
    + rewrite IH by (cbn in Hn; lia). cbn [collapse]. rewrite Ec. reflexivity.
Qed.

(** [re.sub] of [c+] replaces each maximal run of [c] characters. *)
Lemma sub_plus_class (q : ascii -> bool) (repl s : string) :
  sub (plus (Chr q)) repl s = collapse q repl s.
Proof. unfold sub. apply (sub_plus_class_bounded q repl (String.length s)). lia. Qed.

Lemma normalize_text_unfold (text : string) :
  normalize_text text
  = if Str.is_empty text then ""
    else Str.strip
           (collapse Str.is_space " "
              (collapse (fun c => negb (kept_char c)) " " (Str.lower text))).
Proof.
  unfold normalize_text. destruct (Str.is_empty text); [reflexivity|].
  unfold NOISE_RE, SPACES_RE, space. rewrite !sub_plus_class. reflexivity.
Qed.

(** *** Reversal and stripping *)

Lemma rev_acc_app (s : string) :
  forall a, Str.rev_acc s a = Str.rev s ++ a.
Proof.
  unfold Str.rev. induction s as [|c s IH]; intros a; [reflexivity|].
  cbn [Str.rev_acc]. rewrite (IH (String c a)), (IH (String c "")).
  rewrite append_assoc. reflexivity.
Qed.

Lemma rev_cons (c : ascii) (s : string) :
  Str.rev (String c s) = Str.rev s ++ String c "".
Proof. unfold Str.rev at 1. cbn [Str.rev_acc]. apply rev_acc_app. Qed.

Lemma rev_app (a b : string) : Str.rev (a ++ b) = Str.rev b ++ Str.rev a.
Proof.
  induction a as [|c a IH]; cbn [append].
  - symmetry. apply append_empty_r.
  - rewrite !rev_cons, IH, append_assoc. reflexivity.
Qed.

Lemma all_chars_rev (p : ascii -> bool) (s : string) :
  Str.all_chars p (Str.rev s) = Str.all_chars p s.
Proof.
  induction s as [|c s IH]; [reflexivity|].
  rewrite rev_cons, all_chars_app, IH. cbn. rewrite Bool.andb_true_r.
  apply Bool.andb_comm.
Qed.

Lemma is_empty_rev (s : string) : Str.is_empty (Str.rev s) = Str.is_empty s.
Proof.
  destruct s as [|c s]; [reflexivity|]. rewrite rev_cons.
  destruct (Str.rev s); reflexivity.
Qed.

Lemma lstrip_app (a b : string) :
  Str.lstrip (a ++ b)
  = if Str.all_chars Str.is_space a then Str.lstrip b else Str.lstrip a ++ b.
Proof.
  induction a as [|c a IH]; [reflexivity|].
  cbn [append Str.lstrip Str.all_chars].
  destruct (Str.is_space c); [exact IH|reflexivity].
Qed.

Lemma lstrip_spaces (s : string) :
  Str.all_chars Str.is_space s = true -> Str.lstrip s = "".
Proof.
  induction s as [|c s IH]; [reflexivity|].
  cbn [Str.all_chars Str.lstrip]. intros H. apply Bool.andb_true_iff in H.
  destruct H as [-> H]. apply IH, H.
Qed.

Lemma lstrip_nonempty (s : string) :
  Str.all_chars Str.is_space s = false -> Str.is_empty (Str.lstrip s) = false.
Proof.
  induction s as [|c s IH]; [discriminate|].
  cbn [Str.all_chars Str.lstrip]. destruct (Str.is_space c); [exact IH|reflexivity].
Qed.

(** [rstrip] by recursion on the string. *)
Lemma rstrip_cons (c : ascii) (s : string) :
  Str.rstrip (String c s)
  = if (Str.is_empty (Str.rstrip s) && Str.is_space c)%bool then ""
    else String c (Str.rstrip s).
Proof.
  unfold Str.rstrip. rewrite rev_cons, lstrip_app.
  destruct (Str.all_chars Str.is_space (Str.rev s)) eqn:Ea.
  - rewrite (lstrip_spaces _ Ea). cbn [Str.lstrip].
    destruct (Str.is_space c); reflexivity.
  - rewrite rev_app. cbn.
    rewrite is_empty_rev, (lstrip_nonempty _ Ea). reflexivity.
Qed.

Lemma rstrip_empty : Str.rstrip "" = "".
Proof. reflexivity. Qed.

Lemma all_chars_lstrip (p : ascii -> bool) (s : string) :
  Str.all_chars p s = true -> Str.all_chars p (Str.lstrip s) = true.
Proof.
  induction s as [|c s IH]; [reflexivity|].
  cbn [Str.lstrip]. destruct (Str.is_space c); [|auto].
  cbn [Str.all_chars]. intros H. apply Bool.andb_true_iff in H. apply IH, H.
Qed.

Lemma all_chars_rstrip (p : ascii -> bool) (s : string) :
  Str.all_chars p s = true -> Str.all_chars p (Str.rstrip s) = true.
Proof.
  induction s as [|c s IH]; [reflexivity|].
  rewrite rstrip_cons. cbn [Str.all_chars]. intros H.
  apply Bool.andb_true_iff in H. destruct H as [Hc Hs].
  destruct (Str.is_empty (Str.rstrip s) && Str.is_space c)%bool; [reflexivity|].
  cbn [Str.all_chars]. rewrite Hc, (IH Hs). reflexivity.
Qed.

Lemma lstrip_hd (s : string) : hd_space (Str.lstrip s) = false.
Proof.
  induction s as [|c s IH]; [reflexivity|].
  cbn [Str.lstrip]. destruct (Str.is_space c) eqn:E; [exact IH|].
  cbn. exact E.
Qed.

Lemma lstrip_id (s : string) : hd_space s = false -> Str.lstrip s = s.
Proof. destruct s as [|c s]; [reflexivity|]. cbn. intros ->. reflexivity. Qed.

Lemma rstrip_hd (s : string) : hd_space s = false -> hd_space (Str.rstrip s) = false.
Proof.
  destruct s as [|c s]; [reflexivity|]. cbn [hd_space]. intros Hc.
  rewrite rstrip_cons, Hc, Bool.andb_false_r. exact Hc.
Qed.

Lemma rstrip_idem (s : string) : Str.rstrip (Str.rstrip s) = Str.rstrip s.
Proof.
  unfold Str.rstrip. rewrite rev_rev.
  rewrite (lstrip_id (Str.lstrip (Str.rev s))) by apply lstrip_hd. reflexivity.
Qed.

Lemma strip_idem (s : string) : Str.strip (Str.strip s) = Str.strip s.
Proof.
  unfold Str.strip.
  rewrite (lstrip_id (Str.rstrip (Str.lstrip s)))
    by (apply rstrip_hd, lstrip_hd).
  apply rstrip_idem.
Qed.

Lemma all_chars_strip (p : ascii -> bool) (s : string) :
  Str.all_chars p s = true -> Str.all_chars p (Str.strip s) = true.
Proof. intros H. apply all_chars_rstrip, all_chars_lstrip, H. Qed.

(** *** Doubled spaces *)

Lemma contains_cons (n : string) (c : ascii) (s : string) :
  Str.contains n (String c s)
  = (Str.starts_with n (String c s) || Str.contains n s)%bool.
Proof. cbn [Str.contains]. destruct (Str.starts_with n (String c s)); reflexivity. Qed.

Lemma starts_two_spaces (c : ascii) (s : string) :
  Str.starts_with "  " (String c s) = (Ascii.eqb " " c && Str.starts_with " " s)%bool.
Proof. reflexivity. Qed.

Lemma starts_space_hd (s : string) :
  hd_space s = false -> Str.starts_with " " s = false.
Proof.
  destruct s as [|c s]; [reflexivity|]. cbn [hd_space Str.starts_with].
  intros H. destruct (Ascii.eqb " " c) eqn:E; [|reflexivity].
  apply Ascii.eqb_eq in E. subst c. discriminate H.
Qed.

Lemma no_double_lstrip (s : string) :
  Str.contains "  " s = false -> Str.contains "  " (Str.lstrip s) = false.
Proof.
  induction s as [|c s IH]; [auto|].
  cbn [Str.lstrip]. destruct (Str.is_space c); [|auto].
  rewrite contains_cons. intros H. apply Bool.orb_false_iff in H. apply IH, H.
Qed.

Lemma rstrip_starts_space (s : string) :
  Str.starts_with " " (Str.rstrip s) = true -> Str.starts_with " " s = true.
Proof.
  destruct s as [|c s]; [auto|]. rewrite rstrip_cons.
  destruct (Str.is_empty (Str.rstrip s) && Str.is_space c)%bool; [discriminate|].
  auto.
Qed.

Lemma no_double_rstrip (s : string) :
  Str.contains "  " s = false -> Str.contains "  " (Str.rstrip s) = false.
Proof.
  induction s as [|c s IH]; [auto|].
  rewrite contains_cons, starts_two_spaces. intros H.
  apply Bool.orb_false_iff in H. destruct H as [Hst Hc].
  rewrite rstrip_cons.
  destruct (Str.is_empty (Str.rstrip s) && Str.is_space c)%bool; [reflexivity|].
  rewrite contains_cons, starts_two_spaces, (IH Hc), Bool.orb_false_r.
  destruct (Ascii.eqb " " c); [|reflexivity]. cbn [andb] in *.
  destruct (Str.starts_with " " (Str.rstrip s)) eqn:E; [|reflexivity].
  apply rstrip_starts_space in E. congruence.
Qed.

Lemma no_double_strip (s : string) :
  Str.contains "  " s = false -> Str.contains "  " (Str.strip s) = false.
Proof. intros H. apply no_double_rstrip, no_double_lstrip, H. Qed.

(** *** Collapsing runs *)

Lemma collapse_chars (q p0 p : ascii -> bool) (repl : string) :
  (forall c, p0 c = true -> q c = false -> p c = true) ->
  Str.all_chars p repl = true ->
  forall s, Str.all_chars p0 s = true ->
            Str.all_chars p (collapse q repl s) = true.
Proof.
  intros Hp Hrepl. induction s as [|c s IH]; [reflexivity|].
  cbn [Str.all_chars]. intros H. apply Bool.andb_true_iff in H.
  destruct H as [Hc Hs]. specialize (IH Hs). cbn [collapse].
  destruct (q c) eqn:Eq.
  - destruct s as [|c' s']; [exact Hrepl|].
    destruct (q c'); [exact IH|]. rewrite all_chars_app, Hrepl, IH. reflexivity.
  - cbn [Str.all_chars]. rewrite (Hp c Hc Eq), IH. reflexivity.
Qed.

Lemma collapse_none (q : ascii -> bool) (repl : string) :
  forall s, Str.all_chars (fun c => negb (q c)) s = true ->
            collapse q repl s = s.
Proof.
  induction s as [|c s IH]; [reflexivity|].
  cbn [Str.all_chars collapse]. intros H. apply Bool.andb_true_iff in H.
  destruct H as [Hc Hs]. apply Bool.negb_true_iff in Hc. rewrite Hc, (IH Hs).
  reflexivity.
Qed.

Lemma collapse_space_hd (s : string) :
  hd_space s = false -> hd_space (collapse Str.is_space " " s) = false.
Proof.
  destruct s as [|c s]; [reflexivity|]. cbn [hd_space collapse].
  intros H. rewrite H. exact H.
Qed.

Lemma space_neq (c : ascii) : Str.is_space c = false -> Ascii.eqb " " c = false.
Proof.
  intros H. destruct (Ascii.eqb " " c) eqn:E; [|reflexivity].
  apply Ascii.eqb_eq in E. subst c. discriminate H.
Qed.

Lemma collapse_no_double (s : string) :
  Str.contains "  " (collapse Str.is_space " " s) = false.
Proof.
  induction s as [|c s IH]; [reflexivity|].
  cbn [collapse]. destruct (Str.is_space c) eqn:Ec.
  - destruct s as [|c' s']; [reflexivity|].
    destruct (Str.is_space c') eqn:Ec'; [exact IH|].
    change (" " ++ collapse Str.is_space " " (String c' s'))
      with (String " " (collapse Str.is_space " " (String c' s'))).
    rewrite contains_cons, starts_two_spaces, IH, Bool.orb_false_r.
    rewrite starts_space_hd; [reflexivity|].
    apply collapse_space_hd. exact Ec'.
  - rewrite contains_cons, starts_two_spaces, IH, (space_neq _ Ec). reflexivity.
Qed.

(** *** The alphabet *)

Lemma kept_not_space_normal (c : ascii) :
  kept_char c = true -> Str.is_space c = false -> normal_char c = true.
Proof.
  unfold kept_char, normal_char. intros H Hs. rewrite Hs in H.
  rewrite Bool.orb_false_r in H.
  repeat (apply Bool.orb_true_iff in H; destruct H as [H|H]);
    rewrite H; rewrite ?Bool.orb_true_r; reflexivity.
Qed.

Lemma normal_kept (c : ascii) : normal_char c = true -> kept_char c = true.
Proof.
  unfold kept_char, normal_char. intros H.
  repeat (apply Bool.orb_true_iff in H; destruct H as [H|H]);
    try (rewrite H; rewrite ?Bool.orb_true_r; reflexivity).
  apply Ascii.eqb_eq in H. subst c. reflexivity.
Qed.

Lemma normal_space (c : ascii) :
  normal_char c = true -> Str.is_space c = true -> c = " "%char.
Proof.
  destruct c as [[] [] [] [] [] [] [] []]; cbv; intros H1 H2;
    try discriminate H1; try discriminate H2; reflexivity.
Qed.

Lemma normal_lower (c : ascii) : normal_char c = true -> Str.lower_char c = c.
Proof.
  destruct c as [[] [] [] [] [] [] [] []]; cbv; intros H;
    try discriminate H; reflexivity.
Qed.

Lemma lower_normal (s : string) :
  Str.all_chars normal_char s = true -> Str.lower s = s.
Proof.
  unfold Str.lower. induction s as [|c s IH]; [reflexivity|].
  cbn [Str.all_chars Str.map_chars]. intros H. apply Bool.andb_true_iff in H.
  destruct H as [Hc Hs]. rewrite (normal_lower _ Hc), (IH Hs). reflexivity.
Qed.

Lemma all_chars_impl (p q : ascii -> bool) (s : string) :
  (forall c, p c = true -> q c = true) ->
  Str.all_chars p s = true -> Str.all_chars q s = true.
Proof.
  intros Hpq. induction s as [|c s IH]; [reflexivity|].
  cbn [Str.all_chars]. intros H. apply Bool.andb_true_iff in H.
  destruct H as [Hc Hs]. rewrite (Hpq _ Hc), (IH Hs). reflexivity.
Qed.

Lemma all_chars_true (s : string) : Str.all_chars (fun _ => true) s = true.
Proof. induction s as [|c s IH]; [reflexivity|exact IH]. Qed.

Lemma collapse_space_id (s : string) :
  Str.all_chars normal_char s = true -> Str.contains "  " s = false ->
  collapse Str.is_space " " s = s.
Proof.
  induction s as [|c s IH]; [reflexivity|].
  cbn [Str.all_chars]. rewrite contains_cons, starts_two_spaces.
  intros Hn Hd. apply Bool.andb_true_iff in Hn. destruct Hn as [Hc Hs].
  apply Bool.orb_false_iff in Hd. destruct Hd as [Hst Hd].
  specialize (IH Hs Hd). cbn [collapse].
  destruct (Str.is_space c) eqn:Ec.
  - pose proof (normal_space _ Hc Ec) as ->. cbn [Ascii.eqb Bool.eqb andb] in Hst.
    destruct s as [|c' s']; [reflexivity|].
    destruct (Str.is_space c') eqn:Ec'.
    + cbn [Str.all_chars] in Hs. apply Bool.andb_true_iff in Hs.
      destruct Hs as [Hc' _]. pose proof (normal_space _ Hc' Ec') as ->.
      discriminate Hst.
    + rewrite IH. reflexivity.
  - rewrite IH. reflexivity.
Qed.

(** A string of the normal alphabet without outer or doubled spaces is left
    as it is. *)
Lemma normalize_text_fixpoint (s : string) :
  Str.all_chars normal_char s = true -> Str.strip s = s ->
  Str.contains "  " s = false -> normalize_text s = s.
Proof.
  intros Hn Hs Hd. rewrite normalize_text_unfold.
  destruct (Str.is_empty s) eqn:Ee; [destruct s; [reflexivity|discriminate Ee]|].
  rewrite (lower_normal _ Hn).
  rewrite (collapse_none (fun c => negb (kept_char c)) " " s).
  - rewrite (collapse_space_id _ Hn Hd). exact Hs.
  - apply (all_chars_impl normal_char); [|exact Hn].
    intros c Hc. rewrite (normal_kept _ Hc). reflexivity.
Qed.

Lemma normalize_text_shape (text : string) :
  Str.all_chars normal_char (normalize_text text) = true /\
  Str.strip (normalize_text text) = normalize_text text /\
  Str.contains "  " (normalize_text text) = false.
Proof.
  rewrite normalize_text_unfold.
  destruct (Str.is_empty text); [repeat split; reflexivity|].
  split; [|split].
  - apply all_chars_strip.
    apply (collapse_chars Str.is_space kept_char normal_char);
      [apply kept_not_space_normal|reflexivity|].
    apply (collapse_chars _ (fun _ => true) kept_char);
      [|reflexivity|apply all_chars_true].
    intros c _ H. apply Bool.negb_false_iff, H.
  - apply strip_idem.
  - apply no_double_strip, collapse_no_double.
Qed.

(** X28: [normalize_text] returns a string over [a-z0-9-_/.] and the space, in
    lower case, without white space at either end and without two spaces in
    a row. *)
Theorem normalize_text_normal_form :
  forall text : string,
    Str.all_chars normal_char (normalize_text text) = true /\
    Str.strip (normalize_text text) = normalize_text text /\
    Str.contains "  " (normalize_text text) = false /\
    Str.lower (normalize_text text) = normalize_text text.
Proof.
  intros text. destruct (normalize_text_shape text) as (H1 & H2 & H3).
  repeat split; try assumption. apply lower_normal, H1.
Qed.

(** X29: [normalize_text] is idempotent: normalising a normalised text changes
    nothing. *)
Theorem normalize_text_idempotent :
  forall text : string,
    normalize_text (normalize_text text) = normalize_text text.
Proof.
  intros text. destruct (normalize_text_shape text) as (H1 & H2 & H3).
  apply normalize_text_fixpoint; assumption.
Qed.

Lemma filter_all (p q : ascii -> bool) (s : string) :
  Str.all_chars p s = true ->
  Str.all_chars (fun c => (p c && q c)%bool) (Str.filter_chars q s) = true.
Proof.
  induction s as [|c s IH]; [reflexivity|].
  cbn [Str.all_chars Str.filter_chars]. intros H.
  apply Bool.andb_true_iff in H. destruct H as [Hc Hs].
  destruct (q c) eqn:Eq; [|apply IH, Hs].
  cbn [Str.all_chars]. rewrite Hc, Eq, (IH Hs). reflexivity.
Qed.

Lemma no_space_hd (s : string) :
  Str.all_chars (fun c => negb (Str.is_space c)) s = true -> hd_space s = false.
Proof.
  destruct s as [|c s]; [reflexivity|]. cbn. intros H.
  apply Bool.andb_true_iff in H. destruct H as [H _].
  apply Bool.negb_true_iff, H.
Qed.

Lemma rstrip_no_space (s : string) :
  Str.all_chars (fun c => negb (Str.is_space c)) s = true -> Str.rstrip s = s.
Proof.
  induction s as [|c s IH]; [reflexivity|].
  cbn [Str.all_chars]. intros H. apply Bool.andb_true_iff in H.
  destruct H as [Hc Hs]. apply Bool.negb_true_iff in Hc.
  rewrite rstrip_cons, Hc, Bool.andb_false_r, (IH Hs). reflexivity.
Qed.

Lemma no_space_no_double (s : string) :
  Str.all_chars (fun c => negb (Str.is_space c)) s = true ->
  Str.contains "  " s = false.
Proof.
  induction s as [|c s IH]; [reflexivity|].
  cbn [Str.all_chars]. intros H. apply Bool.andb_true_iff in H.
  destruct H as [Hc Hs]. apply Bool.negb_true_iff in Hc.
  rewrite contains_cons, starts_two_spaces, (space_neq _ Hc), (IH Hs).
  reflexivity.
Qed.

(** X30: [normalize_key] returns a string over [a-z0-9-_/.] without any space; it
    is idempotent and does not see whether its argument was normalised
    before. *)
Theorem normalize_key_normal_form :
  forall text : string,
    Str.all_chars (fun c => (normal_char c && negb (Ascii.eqb c " "))%bool)
                  (normalize_key text) = true /\
    normalize_key (normalize_key text) = normalize_key text /\
    normalize_key (normalize_text text) = normalize_key text.
Proof.
  intros text. destruct (normalize_text_shape text) as (H1 & H2 & H3).
  assert (Hk : Str.all_chars
                 (fun c => (normal_char c && negb (Ascii.eqb c " "))%bool)
                 (normalize_key text) = true).
  { unfold normalize_key, remove_spaces. apply filter_all, H1. }
  split; [exact Hk|]. split.
  - assert (Hns : Str.all_chars (fun c => negb (Str.is_space c))
                                (normalize_key text) = true).
    { apply (all_chars_impl
               (fun c => (normal_char c && negb (Ascii.eqb c " "))%bool));
        [|exact Hk].
      intros c H. apply Bool.andb_true_iff in H. destruct H as [Hn He].
      destruct (Str.is_space c) eqn:Es; [|reflexivity].
      rewrite (normal_space _ Hn Es) in He. discriminate He. }
    assert (Hnorm : Str.all_chars normal_char (normalize_key text) = true).
    { apply (all_chars_impl
               (fun c => (normal_char c && negb (Ascii.eqb c " "))%bool));
        [|exact Hk].
      intros c H. apply Bool.andb_true_iff in H. apply H. }
    unfold normalize_key at 1.
    rewrite normalize_text_fixpoint.
    + unfold normalize_key, remove_spaces. apply filter_filter.
    + exact Hnorm.
    + unfold Str.strip. rewrite (lstrip_id _ (no_space_hd _ Hns)).
      apply rstrip_no_space, Hns.
    + apply no_space_no_double, Hns.
  - unfold normalize_key.
    rewrite (normalize_text_fixpoint (normalize_text text) H1 H2 H3).
    reflexivity.
Qed.

End TextFacts.
